(** * News management API: users, categories and news articles

    A shallow embedding of the model and controller layer of the API
    (src/models/User.js, Category.js, News.js, the three controllers, the
    auth and validation middlewares and the routes that chain them), with
    the storage engine modelled as three tables of rows.

    Conventions.
    - A JS string is a [string] whose characters are read as UTF-16 code
      units in the range 0..255 (Latin-1).  The character tables below
      ([isSpace], [isWord], [toLowerChar]) are exact on that range.
    - A JS number that holds an id, a page or a limit is a [Z]; the
      arithmetic on pages and limits rounds as doubles do.
    - A JS object used as a bag of named fields (a request body, a row
      returned by the driver) is a [gmap string _].
    - An [async] function that may reject is a function into [result]. *)

From Stdlib Require Import ZArith NArith Ascii String List Bool Lia DecimalString.
From stdpp Require Import base option list gmap strings.

Local Open Scope string_scope.
Local Open Scope Z_scope.

(** ** JavaScript values and strings *)

Module JS.

(** The values that travel through the code: [Num] is an integer-valued
    number, [NaN] what [parseInt] gives for text that is not a number. *)
Inductive value : Type :=
| Undefined
| Null
| Bool (b : bool)
| Num (n : Z)
| NaN
| Str (s : string).

#[global] Instance value_eq_dec : EqDecision value.
Proof. solve_decision. Defined.

(** [ToBoolean]: what [if (v)], [!v] and [a || b] look at. *)
Definition truthy (v : value) : bool :=
  match v with
  | Undefined | Null | NaN => false
  | Bool b => b
  | Num n => negb (n =? 0)
  | Str s => negb (String.eqb s "")
  end.

(** [a || b] *)
Definition or (a b : value) : value := if truthy a then a else b.

(** The double nearest to an integer, ties to the even mantissa: the
    integer itself below 2^53.  An integer past the largest double stands
    for [Infinity]. *)
Definition to_double (z : Z) : Z :=
  let m := Z.abs z in
  if m <? 2 ^ 53 then z
  else
    let e := Z.log2 m - 52 in
    let q := m / 2 ^ e in
    let r := m mod 2 ^ e in
    let q' := if 2 * r <? 2 ^ e then q
              else if 2 ^ e <? 2 * r then q + 1
              else if Z.even q then q else q + 1 in
    Z.sgn z * (q' * 2 ^ e).

(** [a - b] and [a * b] on numbers that hold integers. *)
Definition sub (a b : Z) : Z := to_double (a - b).
Definition mul (a b : Z) : Z := to_double (a * b).

(** [o.k] / [o[k]] on a plain object: a missing property reads as
    [undefined]. *)
Definition get (o : gmap string value) (k : string) : value :=
  match o !! k with
  | Some v => v
  | None => Undefined
  end.

(** Destructuring with a default, [const { k = d } = o]: the default is
    taken when the property is missing or [undefined]. *)
Definition get_default (o : gmap string value) (k : string) (d : value) : value :=
  match get o k with
  | Undefined => d
  | v => v
  end.

(** *** Character tables *)

Definition code (c : ascii) : N := N_of_ascii c.

Definition in_range (lo hi : N) (c : ascii) : bool :=
  ((lo <=? code c) && (code c <=? hi))%N.

Definition isDigit (c : ascii) : bool := in_range 48 57 c.
Definition isUpper (c : ascii) : bool := in_range 65 90 c.
Definition isLower (c : ascii) : bool := in_range 97 122 c.
Definition isUnderscore (c : ascii) : bool := (code c =? 95)%N.
Definition isHyphen (c : ascii) : bool := (code c =? 45)%N.

(** [\w] of a regular expression without the [u] and [i] flags. *)
Definition isWord (c : ascii) : bool :=
  isUpper c || isLower c || isDigit c || isUnderscore c.

(** [\s], which is also what [String.prototype.trim] strips: TAB, LF, VT,
    FF, CR, SPACE and NBSP are its members below U+0100. *)
Definition isSpace (c : ascii) : bool :=
  in_range 9 13 c || (code c =? 32)%N || (code c =? 160)%N.

(** [toLowerCase] on one code unit: A-Z, and the Latin-1 capitals
    U+00C0..U+00DE except the multiplication sign U+00D7. *)
Definition toLowerChar (c : ascii) : ascii :=
  if isUpper c || (in_range 192 222 c && negb (code c =? 215)%N)
  then ascii_of_N (code c + 32)
  else c.

(** *** String methods, on the list of code units *)

Definition chars := list ascii.

Fixpoint dropWhile (p : ascii -> bool) (s : chars) : chars :=
  match s with
  | [] => []
  | c :: s' => if p c then dropWhile p s' else s
  end.

Definition toLowerCase_chars (s : chars) : chars := map toLowerChar s.

(** [trim]: whitespace is removed from both ends. *)
Definition trim_chars (s : chars) : chars :=
  rev (dropWhile isSpace (rev (dropWhile isSpace s))).

(** [substring(0, n)] for [n] within the non-negative integers. *)
Definition substring0_chars (n : nat) (s : chars) : chars := firstn n s.

(** *** [String.prototype.replace] with a global regular expression

    The three expressions the slug generators use, each with the scan
    that a global replace performs: the subject is walked from the left,
    at every position the expression is tried, a match is replaced and
    the walk resumes behind it, a position without a match emits its
    character. *)

(** [s.replace(/[C]/g, '')] for a character class [C]. *)
Fixpoint replace_class_g (cls : ascii -> bool) (s : chars) : chars :=
  match s with
  | [] => []
  | c :: s' => if cls c then replace_class_g cls s' else c :: replace_class_g cls s'
  end.

(** [s.replace(/[C]+/g, r)]: [in_run] records that the previous position
    was consumed by the match that is still running (the [+] is greedy,
    so a match extends over the whole run). *)
Fixpoint replace_runs_from (cls : ascii -> bool) (r : chars) (in_run : bool)
         (s : chars) : chars :=
  match s with
  | [] => []
  | c :: s' =>
      if cls c
      then ((if in_run then [] else r) ++ replace_runs_from cls r true s')%list
      else c :: replace_runs_from cls r false s'
  end.

Definition replace_runs_g (cls : ascii -> bool) (r : chars) (s : chars) : chars :=
  replace_runs_from cls r false s.

(** [s.replace(/^C+|C+$/g, '')].  At position 0 the first alternative
    consumes the leading run.  At a later position [^] fails, and [C+$]
    matches exactly when every remaining character is in [C] (the greedy
    run must reach the end of the subject). *)
Fixpoint replace_tail_run (cls : ascii -> bool) (s : chars) : chars :=
  match s with
  | [] => []
  | c :: s' =>
      if cls c && forallb cls s' then [] else c :: replace_tail_run cls s'
  end.

Definition replace_edge_runs_g (cls : ascii -> bool) (s : chars) : chars :=
  match s with
  | [] => []
  | c :: s' =>
      if cls c then replace_tail_run cls (dropWhile cls s')
      else replace_tail_run cls s
  end.

Definition lift (f : chars -> chars) (s : string) : string :=
  string_of_list_ascii (f (list_ascii_of_string s)).

End JS.

(** ** Slug generators *)

Definition hyphen : JS.chars := ["-"%char].

(** [/[^\w\s-]/]: the complement of word characters, whitespace and the
    hyphen. *)
Definition special (c : ascii) : bool :=
  negb (JS.isWord c || JS.isSpace c || JS.isHyphen c).

(** [/[\s_-]/] *)
Definition separator (c : ascii) : bool :=
  JS.isSpace c || JS.isUnderscore c || JS.isHyphen c.

(** The shared pipeline of the two [generateSlug]:
    [.toLowerCase().trim().replace(/[^\w\s-]/g, '')
     .replace(/[\s_-]+/g, '-').replace(/^-+|-+$/g, '')]. *)
Definition slug_pipeline (text : JS.chars) : JS.chars :=
  JS.replace_edge_runs_g JS.isHyphen
    (JS.replace_runs_g separator hyphen
      (JS.replace_class_g special
        (JS.trim_chars (JS.toLowerCase_chars text)))).

(** ** The storage engine

    What the code relies on from SQLite and its driver: values, rows,
    comparison, [LIKE], joins, ordering, [LIMIT]/[OFFSET], name resolution
    inside a statement, and the constraints declared by [createTables].
    Column affinity (the coercion of a stored value towards the declared
    column type) is not modelled: a value is stored as it was bound. *)

Module Sql.

Inductive value : Type :=
| Null
| Int (z : Z)
| Text (s : string).

#[global] Instance value_eq_dec : EqDecision value.
Proof. solve_decision. Defined.

(** A row maps column names to values; a column that is not listed reads
    as [NULL]. *)
Abbreviation row := (gmap string value).

Definition col (r : row) (c : string) : value :=
  match r !! c with
  | Some v => v
  | None => Null
  end.

(** How the driver binds a statement parameter. *)
Definition bind (v : JS.value) : value :=
  match v with
  | JS.Undefined | JS.Null | JS.NaN => Null
  | JS.Bool b => Int (if b then 1 else 0)
  | JS.Num n => Int n
  | JS.Str s => Text s
  end.

(** How the driver hands a column back. *)
Definition to_js (v : value) : JS.value :=
  match v with
  | Null => JS.Null
  | Int z => JS.Num z
  | Text s => JS.Str s
  end.

Definition is_null (v : value) : bool :=
  match v with Null => true | _ => false end.

(** [a = b] inside [WHERE]: unknown (hence not satisfied) as soon as one
    side is [NULL]. *)
Definition eqb (a b : value) : bool :=
  negb (is_null a) && negb (is_null b) && bool_decide (a = b).

(** *** [LIKE] *)

(** ASCII letters compare without case, as SQLite's built-in [LIKE]. *)
Definition fold_case (c : ascii) : ascii :=
  if JS.isUpper c then ascii_of_N (JS.code c + 32) else c.

Fixpoint like_chars (pat : list ascii) (txt : list ascii) : bool :=
  match pat with
  | [] => match txt with [] => true | _ => false end
  | p :: pat' =>
      if (JS.code p =? 37)%N (* % *) then
        (fix any (t : list ascii) : bool :=
           like_chars pat' t ||
           match t with
           | [] => false
           | _ :: t' => any t'
           end) txt
      else
        match txt with
        | [] => false
        | c :: txt' =>
            ((JS.code p =? 95)%N (* _ *) ||
             bool_decide (fold_case p = fold_case c))
            && like_chars pat' txt'
        end
  end.

Definition text_of (v : value) : option string :=
  match v with
  | Null => None
  | Int z => Some (NilEmpty.string_of_int (Z.to_int z))
  | Text s => Some s
  end.

(** [v LIKE pat] *)
Definition like (v : value) (pat : string) : bool :=
  match text_of v with
  | None => false
  | Some s => like_chars (list_ascii_of_string pat) (list_ascii_of_string s)
  end.

(** *** [ORDER BY] *)

(** The storage order of values: [NULL], then numbers, then text by code
    unit. *)
Definition leb (a b : value) : bool :=
  match a, b with
  | Null, _ => true
  | _, Null => false
  | Int x, Int y => x <=? y
  | Int _, Text _ => true
  | Text _, Int _ => false
  | Text x, Text y => String.leb x y
  end.

Section Sorting.
Context {A : Type} (le : A -> A -> bool).

Fixpoint insert_sorted (x : A) (l : list A) : list A :=
  match l with
  | [] => [x]
  | y :: l' => if le x y then x :: l else y :: insert_sorted x l'
  end.

Fixpoint sort (l : list A) : list A :=
  match l with
  | [] => []
  | x :: l' => insert_sorted x (sort l')
  end.
End Sorting.

Inductive direction := ASC | DESC.

(** [ORDER BY key dir].  Rows with equal keys keep the order the scan
    produced them in. *)
Definition order_by {A : Type} (key : A -> value) (d : direction) (l : list A) : list A :=
  match d with
  | ASC => sort (fun x y => leb (key x) (key y)) l
  | DESC => sort (fun x y => leb (key y) (key x)) l
  end.

(** *** [LIMIT ? OFFSET ?]: a negative limit means no limit, a negative
    offset means none. *)
Definition limit_offset {A : Type} (limit offset : Z) (l : list A) : list A :=
  let l' := drop (Z.to_nat offset) l in
  if limit <? 0 then l' else take (Z.to_nat limit) l'.

(** *** [a LEFT JOIN b ON on]: every row of [a] with each matching row
    of [b], or once with no partner. *)
Definition join_row {A B : Type} (on : A -> B -> bool) (b : list B) (x : A)
  : list (A * option B) :=
  match List.filter (on x) b with
  | [] => [(x, None)]
  | ms => map (fun y => (x, Some y)) ms
  end.

Definition left_join {A B : Type} (on : A -> B -> bool) (a : list A) (b : list B)
  : list (A * option B) :=
  flat_map (join_row on b) a.

(** *** Names inside a statement.  A scope lists the tables of the
    [FROM] clause with their alias and columns; a bare column name must
    belong to exactly one of them. *)
Definition scope := list (string * list string).

Definition owners (sc : scope) (c : string) : list string :=
  map fst (List.filter (fun t => bool_decide (c ∈ snd t)) sc).

End Sql.

(** ** Failures *)

Inductive error : Type :=
| ThrownError (message : string)   (* throw new Error(message), TypeError *)
| SqliteError (message : string).  (* the driver rejected the statement *)

Inductive result (A : Type) : Type :=
| Ok (a : A)
| Err (e : error).
Arguments Ok {A} a.
Arguments Err {A} e.

Definition bind_result {A B : Type} (m : result A) (k : A -> result B) : result B :=
  match m with
  | Ok a => k a
  | Err e => Err e
  end.

Notation "'let*' x ':=' m 'in' k" := (bind_result m (fun x => k))
  (at level 10, x pattern, m at level 100, k at level 200).

(** [LIMIT ?] and [OFFSET ?] want an integer.  The driver binds a number
    outside the 32-bit range as a REAL; the engine takes a REAL without
    fraction that lies strictly between the least and the greatest 64-bit
    integer for the integer it equals, and rejects every other one when
    the statement runs. *)
Definition must_be_int (z : Z) : result Z :=
  if (- 2 ^ 63 <? z) && (z <? 2 ^ 63) then Ok z
  else Err (SqliteError "SQLITE_MISMATCH").

(** A method call on a value that is not a string throws a TypeError. *)
Definition on_string (f : string -> string) (v : JS.value) : result JS.value :=
  match v with
  | JS.Str s => Ok (JS.Str (f s))
  | _ => Err (ThrownError "TypeError: toLowerCase is not a function")
  end.

(** ** Statements

    The vocabulary the query builders of the three models use: column
    references, the conditions they push on [whereConditions], and the
    static check a statement undergoes when it is prepared. *)

Module Query.

Inductive colref : Type :=
| Bare (c : string)            (* created_at *)
| Qualified (t c : string).    (* n.created_at *)

#[global] Instance colref_eq_dec : EqDecision colref.
Proof. solve_decision. Defined.

Inductive condition : Type :=
| Equals (c : colref) (v : Sql.value)         (* c = ? *)
| LikeAny (cs : list colref) (pat : string).  (* (c1 LIKE ? OR c2 LIKE ? ...) *)

Definition has_column (sc : Sql.scope) (t c : string) : bool :=
  existsb (fun e => bool_decide (fst e = t) && bool_decide (c ∈ snd e)) sc.

(** The table and column a reference denotes, or the error the prepare
    step reports. *)
Definition resolve (sc : Sql.scope) (r : colref) : result (string * string) :=
  match r with
  | Qualified t c =>
      if has_column sc t c then Ok (t, c)
      else Err (SqliteError ("no such column: " ++ t ++ "." ++ c))
  | Bare c =>
      match Sql.owners sc c with
      | [] => Err (SqliteError ("no such column: " ++ c))
      | [t] => Ok (t, c)
      | _ => Err (SqliteError ("ambiguous column name: " ++ c))
      end
  end.

Fixpoint prepare (sc : Sql.scope) (refs : list colref) : result unit :=
  match refs with
  | [] => Ok tt
  | r :: refs' => let* _ := resolve sc r in prepare sc refs'
  end.

Definition refs_of (c : condition) : list colref :=
  match c with
  | Equals r _ => [r]
  | LikeAny rs _ => rs
  end.

(** The rows in scope while a condition is evaluated: one per alias,
    absent for the missing side of an outer join. *)
Definition env := string -> option Sql.row.

Definition read (sc : Sql.scope) (e : env) (r : colref) : Sql.value :=
  match resolve sc r with
  | Ok (t, c) =>
      match e t with
      | Some row => Sql.col row c
      | None => Sql.Null
      end
  | Err _ => Sql.Null
  end.

Definition holds (sc : Sql.scope) (e : env) (c : condition) : bool :=
  match c with
  | Equals r v => Sql.eqb (read sc e r) v
  | LikeAny rs pat => existsb (fun r => Sql.like (read sc e r) pat) rs
  end.

(** [WHERE c1 AND c2 AND ...]; no condition, no clause. *)
Definition where_ (sc : Sql.scope) (cs : list condition) (e : env) : bool :=
  forallb (holds sc e) cs.

(** [GROUP BY]: the groups in order of first appearance. *)
Fixpoint add_group {K A : Type} `{EqDecision K} (k : K) (x : A)
         (gs : list (K * list A)) : list (K * list A) :=
  match gs with
  | [] => [(k, [x])]
  | (k', xs) :: gs' =>
      if decide (k = k') then (k', xs ++ [x])%list :: gs'
      else (k', xs) :: add_group k x gs'
  end.

Definition group_by {K A : Type} `{EqDecision K} (key : A -> K) (l : list A)
  : list (K * list A) :=
  fold_left (fun gs x => add_group (key x) x gs) l [].

End Query.

(** ** The database *)

Module Schema.
Definition users : list string :=
  ["id"; "username"; "email"; "password"; "first_name"; "last_name";
   "role"; "is_active"; "created_at"; "updated_at"].
Definition categories : list string :=
  ["id"; "name"; "description"; "slug"; "is_active"; "created_at"; "updated_at"].
Definition news : list string :=
  ["id"; "title"; "content"; "summary"; "slug"; "featured_image"; "status";
   "category_id"; "author_id"; "published_at"; "created_at"; "updated_at"].
End Schema.

Record DB : Type := mkDB {
  users : list Sql.row;
  categories : list Sql.row;
  news : list Sql.row;
  (* the AUTOINCREMENT counters of sqlite_sequence *)
  seq_users : Z;
  seq_categories : Z;
  seq_news : Z;
  (* what CURRENT_TIMESTAMP evaluates to *)
  now : string
}.

Definition with_users (t : list Sql.row) (db : DB) : DB :=
  mkDB t (categories db) (news db) (seq_users db) (seq_categories db) (seq_news db) (now db).
Definition with_categories (t : list Sql.row) (db : DB) : DB :=
  mkDB (users db) t (news db) (seq_users db) (seq_categories db) (seq_news db) (now db).
Definition with_news (t : list Sql.row) (db : DB) : DB :=
  mkDB (users db) (categories db) t (seq_users db) (seq_categories db) (seq_news db) (now db).
Definition with_seq_categories (n : Z) (db : DB) : DB :=
  mkDB (users db) (categories db) (news db) (seq_users db) n (seq_news db) (now db).
Definition with_seq_news (n : Z) (db : DB) : DB :=
  mkDB (users db) (categories db) (news db) (seq_users db) (seq_categories db) n (now db).

(** *** Constraints of [createTables] *)

Module Constraint.

Definition column (c : string) (t : list Sql.row) : list Sql.value :=
  map (fun r => Sql.col r c) t.

Definition is_int (v : Sql.value) : bool :=
  match v with Sql.Int _ => true | _ => false end.

(** INTEGER PRIMARY KEY *)
Definition primary_key (t : list Sql.row) : bool :=
  forallb is_int (column "id" t) && bool_decide (NoDup (column "id" t)).

(** NOT NULL *)
Definition not_null (c : string) (t : list Sql.row) : bool :=
  forallb (fun v => negb (Sql.is_null v)) (column c t).

(** UNIQUE: no two rows share a value other than NULL. *)
Definition unique (c : string) (t : list Sql.row) : bool :=
  bool_decide (NoDup (List.filter (fun v => negb (Sql.is_null v)) (column c t))).

(** FOREIGN KEY (c) REFERENCES target(id) *)
Definition references (c : string) (t target : list Sql.row) : bool :=
  forallb (fun v => Sql.is_null v || bool_decide (v ∈ column "id" target)) (column c t).

Definition users_ok (db : DB) : bool :=
  primary_key (users db)
  && not_null "username" (users db) && unique "username" (users db)
  && not_null "email" (users db) && unique "email" (users db)
  && not_null "password" (users db).

Definition categories_ok (db : DB) : bool :=
  primary_key (categories db)
  && not_null "name" (categories db) && unique "name" (categories db)
  && not_null "slug" (categories db) && unique "slug" (categories db).

Definition news_ok (db : DB) : bool :=
  primary_key (news db)
  && not_null "title" (news db) && not_null "content" (news db)
  && not_null "slug" (news db) && unique "slug" (news db)
  && not_null "author_id" (news db)
  && references "category_id" (news db) (categories db)
  && references "author_id" (news db) (users db).

Definition consistent (db : DB) : bool :=
  users_ok db && categories_ok db && news_ok db.

End Constraint.

(** What [runQuery] resolves to. *)
Record RunResult : Type := mkRun { lastID : Z; changes : Z }.

(** A writing statement is applied as a whole or rejected: the driver
    rejects with a constraint error when the state it would leave breaks a
    declared constraint. *)
Definition commit (db' : DB) (r : RunResult) : result (DB * RunResult) :=
  if Constraint.consistent db' then Ok (db', r)
  else Err (SqliteError "SQLITE_CONSTRAINT").

(** [WHERE id = ?] *)
Definition where_id (id : JS.value) (r : Sql.row) : bool :=
  Sql.eqb (Sql.col r "id") (Sql.bind id).

(** [UPDATE t SET ... WHERE p] *)
Definition update_where (p : Sql.row -> bool) (set : Sql.row -> Sql.row)
           (t : list Sql.row) : list Sql.row :=
  map (fun r => if p r then set r else r) t.

Definition count_where (p : Sql.row -> bool) (t : list Sql.row) : Z :=
  Z.of_nat (length (List.filter p t)).

(** The next AUTOINCREMENT id: above the counter and above every id the
    table holds. *)
Definition fresh_id (seq : Z) (t : list Sql.row) : Z :=
  fold_right Z.max seq
    (map (fun v => match v with Sql.Int z => z | _ => 0 end) (Constraint.column "id" t)) + 1.

(** ** Listing options and pages *)

(** The [options] object of the three [findAll]: [None] is a property that
    is missing or [undefined]. *)
Record Options : Type := mkOptions {
  page : option Z;
  limit : option Z;
  sort : option string;
  order : option string;
  role : option string;
  is_active : option bool;
  status : option string;
  category_id : option Z;
  author_id : option Z;
  search : option string
}.

Definition no_options : Options :=
  mkOptions None None None None None None None None None None.

(** [{ ...options, status }], [{ ...options, category_id }],
    [{ ...options, author_id }], [{ ...options, search }],
    and the same for sort, page and limit. *)
Definition with_status (v : option string) (o : Options) : Options :=
  mkOptions (page o) (limit o) (sort o) (order o) (role o) (is_active o)
            v (category_id o) (author_id o) (search o).
Definition with_category_id (v : option Z) (o : Options) : Options :=
  mkOptions (page o) (limit o) (sort o) (order o) (role o) (is_active o)
            (status o) v (author_id o) (search o).
Definition with_author_id (v : option Z) (o : Options) : Options :=
  mkOptions (page o) (limit o) (sort o) (order o) (role o) (is_active o)
            (status o) (category_id o) v (search o).
Definition with_search (v : option string) (o : Options) : Options :=
  mkOptions (page o) (limit o) (sort o) (order o) (role o) (is_active o)
            (status o) (category_id o) (author_id o) v.
Definition with_sort (v : option string) (o : Options) : Options :=
  mkOptions (page o) (limit o) v (order o) (role o) (is_active o)
            (status o) (category_id o) (author_id o) (search o).
Definition with_page_limit (p l : option Z) (o : Options) : Options :=
  mkOptions p l (sort o) (order o) (role o) (is_active o)
            (status o) (category_id o) (author_id o) (search o).

(** [if (s)] on a string option. *)
Definition given_string (s : option string) : option string :=
  match s with
  | Some x => if String.eqb x "" then None else Some x
  | None => None
  end.

(** [if (n)] on a number option. *)
Definition given_number (n : option Z) : option Z :=
  match n with
  | Some x => if x =? 0 then None else Some x
  | None => None
  end.

Record Pagination : Type := mkPagination {
  pg_page : Z;
  pg_limit : Z;
  pg_total : Z;
  (* Math.ceil(total / limit); None when the quotient is not finite *)
  pg_pages : option Z
}.

Record Listing : Type := mkListing {
  items : list Sql.row;
  pagination : Pagination
}.

(** [Math.ceil(total / limit)] *)
Definition ceil_div (total limit : Z) : option Z :=
  if limit =? 0 then None else Some (- ((- total) / limit)).

(** [order.toLowerCase() === 'asc' ? 'ASC' : 'DESC'] *)
Definition sortOrder (order : string) : Sql.direction :=
  if String.eqb (JS.lift JS.toLowerCase_chars order) "asc" then Sql.ASC else Sql.DESC.

(** [validSortFields.includes(sort) ? sort : 'created_at'] *)
Definition sortField (validSortFields : list string) (sort : string) : string :=
  if bool_decide (sort ∈ validSortFields) then sort else "created_at".

(** [`%${search}%`] *)
Definition searchTerm (search : string) : string := "%" ++ search ++ "%".

(** [SELECT e1 AS a1, e2 AS a2, ...]: one result row. *)
Definition select_as (sc : Sql.scope) (e : Query.env) (cols : list (string * Query.colref))
  : Sql.row :=
  list_to_map (map (fun c => (fst c, Query.read sc e (snd c))) cols).

Definition bare (cols : list string) : list (string * Query.colref) :=
  map (fun c => (c, Query.Bare c)) cols.

Definition qualified (t : string) (cols : list string) : list (string * Query.colref) :=
  map (fun c => (c, Query.Qualified t c)) cols.

(** [key = ?] for the allowed keys of [updateData], as the assignments of
    a [SET] clause.  The keys of an object are distinct, so the order in
    which [Object.keys] lists them has no effect on the statement. *)
Definition set_clause (allowedFields : list string) (updateData : gmap string JS.value)
  : gmap string Sql.value :=
  Sql.bind <$> filter (fun kv : string * JS.value => fst kv ∈ allowedFields) updateData.

(** The row after [SET]: assigned columns take the new value. *)
Definition assign (s : gmap string Sql.value) (r : Sql.row) : Sql.row := s ∪ r.

(** ** models/User.js *)

Module User.

Definition scope : Sql.scope := [("users", Schema.users)].
Definition env (r : Sql.row) : Query.env := fun _ => Some r.

Definition public_columns : list string :=
  ["id"; "username"; "email"; "first_name"; "last_name"; "role"; "is_active";
   "created_at"; "updated_at"].

Definition findById (db : DB) (id : JS.value) : option Sql.row :=
  head (map (fun r => select_as scope (env r) (bare public_columns))
            (List.filter (where_id id) (users db))).

Definition validSortFields : list string :=
  ["id"; "username"; "email"; "first_name"; "last_name"; "role"; "created_at"].

Definition whereConditions (options : Options) : list Query.condition :=
  (match given_string (role options) with
   | Some r => [Query.Equals (Query.Bare "role") (Sql.Text r)]
   | None => []
   end ++
   match is_active options with
   | Some b => [Query.Equals (Query.Bare "is_active") (Sql.Int (if b then 1 else 0))]
   | None => []
   end ++
   match given_string (search options) with
   | Some s => [Query.LikeAny [Query.Bare "username"; Query.Bare "email";
                               Query.Bare "first_name"; Query.Bare "last_name"]
                              (searchTerm s)]
   | None => []
   end)%list.

Definition findAll (db : DB) (options : Options) : result Listing :=
  let page := default 1 (page options) in
  let limit := default 10 (limit options) in
  let sort := default "created_at" (sort options) in
  let order := default "desc" (order options) in
  let offset := JS.mul (JS.sub page 1) limit in
  let sortField := sortField validSortFields sort in
  let sortOrder := sortOrder order in
  let conds := whereConditions options in
  let matching := List.filter (fun r => Query.where_ scope conds (env r)) (users db) in
  (* SELECT COUNT( * ) as total FROM users WHERE ... *)
  let* _ := Query.prepare scope (flat_map Query.refs_of conds) in
  let total := Z.of_nat (length matching) in
  (* SELECT ... FROM users WHERE ... ORDER BY sortField sortOrder LIMIT ? OFFSET ? *)
  let* _ := Query.prepare scope (flat_map Query.refs_of conds ++ [Query.Bare sortField]) in
  let* limit' := must_be_int limit in
  let* offset' := must_be_int offset in
  let rows :=
    Sql.limit_offset limit' offset'
      (Sql.order_by (fun r => Query.read scope (env r) (Query.Bare sortField)) sortOrder
                    matching) in
  Ok (mkListing (map (fun r => select_as scope (env r) (bare public_columns)) rows)
                (mkPagination page limit total (ceil_div total limit))).

Definition allowedFields : list string :=
  ["username"; "email"; "first_name"; "last_name"; "role"; "is_active"].

(** [SET k1 = ?, ..., updated_at = CURRENT_TIMESTAMP] on one row. *)
Definition set_row (db : DB) (updateData : gmap string JS.value) (r : Sql.row) : Sql.row :=
  <["updated_at" := Sql.Text (now db)]> (assign (set_clause allowedFields updateData) r).

Definition updateById (db : DB) (id : JS.value) (updateData : gmap string JS.value)
  : result (DB * option Sql.row) :=
  let updateFields := set_clause allowedFields updateData in
  if bool_decide (updateFields = ∅) then Err (ThrownError "No valid fields to update")
  else
    let* (db', _) :=
      commit (with_users (update_where (where_id id) (set_row db updateData) (users db)) db)
             (mkRun 0 (count_where (where_id id) (users db))) in
    Ok (db', findById db' id).

(** [DELETE FROM users WHERE id = ?]; the news of the user go with it
    (author_id ... ON DELETE CASCADE). *)
Definition deleteById (db : DB) (id : JS.value) : result (DB * bool) :=
  let gone := List.filter (where_id id) (users db) in
  let authored (n : Sql.row) :=
    existsb (fun u => Sql.eqb (Sql.col n "author_id") (Sql.col u "id")) gone in
  let db1 := with_users (List.filter (fun r => negb (where_id id r)) (users db)) db in
  let db2 := with_news (List.filter (fun n => negb (authored n)) (news db)) db1 in
  let* (db', r) := commit db2 (mkRun 0 (Z.of_nat (length gone))) in
  Ok (db', 0 <? changes r).

(** The select list of [findByEmail]: the password is in it. *)
Definition credential_columns : list string :=
  ["id"; "username"; "email"; "password"; "first_name"; "last_name"; "role"; "is_active";
   "created_at"; "updated_at"].

Definition findByEmail (db : DB) (email : JS.value) : option Sql.row :=
  head (map (fun r => select_as scope (env r) (bare credential_columns))
            (List.filter (fun r => Sql.eqb (Sql.col r "email") (Sql.bind email)) (users db))).

Definition findByUsername (db : DB) (username : JS.value) : option Sql.row :=
  head (map (fun r => select_as scope (env r) (bare public_columns))
            (List.filter (fun r => Sql.eqb (Sql.col r "username") (Sql.bind username))
                         (users db))).

(** [checkExists(email, username, excludeId)]: the colliding field, if a
    row collides.  The engine answers [email = ? OR username = ?] term by
    term through the indexes of the two UNIQUE columns, so a row with the
    email comes before a row that has the username only. *)
Definition checkExists (db : DB) (email username excludeId : JS.value) : option string :=
  let other (r : Sql.row) :=
    if JS.truthy excludeId
    then negb (Sql.is_null (Sql.col r "id")) && negb (Sql.is_null (Sql.bind excludeId))
         && negb (bool_decide (Sql.col r "id" = Sql.bind excludeId))
    else true in
  let by_email :=
    List.filter (fun r => Sql.eqb (Sql.col r "email") (Sql.bind email) && other r)
                (users db) in
  let by_username :=
    List.filter (fun r => Sql.eqb (Sql.col r "username") (Sql.bind username) && other r)
                (users db) in
  match head (by_email ++ by_username)%list with
  | Some existingUser =>
      Some (if bool_decide (Sql.to_js (Sql.col existingUser "email") = email)
            then "email" else "username")
  | None => None
  end.

End User.

(** ** models/Category.js *)

Module Category.

(** Category.generateSlug *)
Definition generateSlug : string -> string := JS.lift slug_pipeline.

Definition scope : Sql.scope := [("categories", Schema.categories)].
Definition env (r : Sql.row) : Query.env := fun _ => Some r.

(** [FROM categories c LEFT JOIN news n ON c.id = n.category_id] *)
Definition join_scope : Sql.scope := [("c", Schema.categories); ("n", Schema.news)].
Definition join_env (j : Sql.row * option Sql.row) : Query.env :=
  fun a => if String.eqb a "c" then Some (fst j)
           else if String.eqb a "n" then snd j
           else None.
Definition joined (db : DB) : list (Sql.row * option Sql.row) :=
  Sql.left_join (fun c n => Sql.eqb (Sql.col c "id") (Sql.col n "category_id"))
                (categories db) (news db).

Definition columns : list string :=
  ["id"; "name"; "description"; "slug"; "is_active"; "created_at"; "updated_at"].

Definition findById (db : DB) (id : JS.value) : option Sql.row :=
  head (map (fun r => select_as scope (env r) (bare columns))
            (List.filter (where_id id) (categories db))).

(** [GROUP BY c.id, c.name, c.description, c.slug, c.is_active,
    c.created_at, c.updated_at] *)
Definition group_key (j : Sql.row * option Sql.row) : Sql.row :=
  select_as join_scope (join_env j) (qualified "c" columns).

Definition group_env (g : Sql.row * list (Sql.row * option Sql.row)) : Query.env :=
  match snd g with
  | j :: _ => join_env j
  | [] => fun _ => None
  end.

(** [SELECT c.id, ..., c.updated_at, COUNT(n.id) as news_count] *)
Definition aggregate (g : Sql.row * list (Sql.row * option Sql.row)) : Sql.row :=
  <["news_count" :=
      Sql.Int (Z.of_nat (length (List.filter
        (fun j => negb (Sql.is_null
                          (Query.read join_scope (join_env j) (Query.Qualified "n" "id"))))
        (snd g))))]> (fst g).

Definition validSortFields : list string := ["id"; "name"; "slug"; "created_at"].

Definition whereConditions (options : Options) : list Query.condition :=
  (match is_active options with
   | Some b => [Query.Equals (Query.Bare "is_active") (Sql.Int (if b then 1 else 0))]
   | None => []
   end ++
   match given_string (search options) with
   | Some s => [Query.LikeAny [Query.Bare "name"; Query.Bare "description"] (searchTerm s)]
   | None => []
   end)%list.

Definition findAll (db : DB) (options : Options) : result Listing :=
  let page := default 1 (page options) in
  let limit := default 10 (limit options) in
  let sort := default "created_at" (sort options) in
  let order := default "desc" (order options) in
  let offset := JS.mul (JS.sub page 1) limit in
  let sortField := sortField validSortFields sort in
  let sortOrder := sortOrder order in
  let conds := whereConditions options in
  (* SELECT COUNT( * ) as total FROM categories WHERE ... *)
  let* _ := Query.prepare scope (flat_map Query.refs_of conds) in
  let total :=
    Z.of_nat (length (List.filter (fun r => Query.where_ scope conds (env r))
                                  (categories db))) in
  (* SELECT c.id, ..., COUNT(n.id) as news_count
     FROM categories c LEFT JOIN news n ON c.id = n.category_id
     WHERE ... GROUP BY c.id, ... ORDER BY sortField sortOrder LIMIT ? OFFSET ? *)
  let* _ := Query.prepare join_scope
              (flat_map Query.refs_of conds ++ [Query.Bare sortField]) in
  let* limit' := must_be_int limit in
  let* offset' := must_be_int offset in
  let groups :=
    Query.group_by group_key
      (List.filter (fun j => Query.where_ join_scope conds (join_env j)) (joined db)) in
  let rows :=
    Sql.limit_offset limit' offset'
      (Sql.order_by (fun g => Query.read join_scope (group_env g) (Query.Bare sortField))
                    sortOrder groups) in
  Ok (mkListing (map aggregate rows)
                (mkPagination page limit total (ceil_div total limit))).

Definition allowedFields : list string := ["name"; "description"; "slug"; "is_active"].

(** [SET k1 = ?, ..., updated_at = CURRENT_TIMESTAMP] on one row. *)
Definition set_row (db : DB) (updateData : gmap string JS.value) (r : Sql.row) : Sql.row :=
  <["updated_at" := Sql.Text (now db)]> (assign (set_clause allowedFields updateData) r).

Definition updateById (db : DB) (id : JS.value) (updateData : gmap string JS.value)
  : result (DB * option Sql.row) :=
  let updateFields := set_clause allowedFields updateData in
  if bool_decide (updateFields = ∅) then Err (ThrownError "No valid fields to update")
  else
    let* (db', _) :=
      commit (with_categories (update_where (where_id id) (set_row db updateData) (categories db)) db)
             (mkRun 0 (count_where (where_id id) (categories db))) in
    Ok (db', findById db' id).

(** [DELETE FROM categories WHERE id = ?]; the news of the category lose
    their reference (category_id ... ON DELETE SET NULL). *)
Definition deleteById (db : DB) (id : JS.value) : result (DB * bool) :=
  let gone := List.filter (where_id id) (categories db) in
  let orphan (n : Sql.row) :=
    existsb (fun c => Sql.eqb (Sql.col n "category_id") (Sql.col c "id")) gone in
  let db1 :=
    with_categories (List.filter (fun r => negb (where_id id r)) (categories db)) db in
  let db2 :=
    with_news (update_where orphan (fun n => <["category_id" := Sql.Null]> n) (news db))
              db1 in
  let* (db', r) := commit db2 (mkRun 0 (Z.of_nat (length gone))) in
  Ok (db', 0 <? changes r).

(** [checkExists(name, slug, excludeId)]: the colliding field, if a row
    collides.  The engine answers [name = ? OR slug = ?] term by term
    through the indexes of the two UNIQUE columns, so a row with the name
    comes before a row that has the slug only. *)
Definition checkExists (db : DB) (name slug excludeId : JS.value) : option string :=
  let other (r : Sql.row) :=
    if JS.truthy excludeId
    then negb (Sql.is_null (Sql.col r "id")) && negb (Sql.is_null (Sql.bind excludeId))
         && negb (bool_decide (Sql.col r "id" = Sql.bind excludeId))
    else true in
  let by_name :=
    List.filter (fun r => Sql.eqb (Sql.col r "name") (Sql.bind name) && other r)
                (categories db) in
  let by_slug :=
    List.filter (fun r => Sql.eqb (Sql.col r "slug") (Sql.bind slug) && other r)
                (categories db) in
  match head (by_name ++ by_slug)%list with
  | Some existingCategory =>
      Some (if bool_decide (Sql.to_js (Sql.col existingCategory "name") = name)
            then "name" else "slug")
  | None => None
  end.

(** [... FROM categories c LEFT JOIN news n ON c.id = n.category_id
    WHERE c.id = ? GROUP BY c.id, ...] *)
Definition findByIdWithNewsCount (db : DB) (id : JS.value) : option Sql.row :=
  head (map aggregate
    (Query.group_by group_key
      (List.filter
         (fun j => Query.where_ join_scope
                     [Query.Equals (Query.Qualified "c" "id") (Sql.bind id)] (join_env j))
         (joined db)))).

(** The row of [INSERT INTO categories (name, description, slug) VALUES
    (?, ?, ?)]: is_active defaults to 1, the two timestamps to
    CURRENT_TIMESTAMP. *)
Definition inserted_row (db : DB) (id : Z) (name description finalSlug : JS.value)
  : Sql.row :=
  list_to_map
    [("id", Sql.Int id);
     ("name", Sql.bind name);
     ("description", Sql.bind description);
     ("slug", Sql.bind finalSlug);
     ("is_active", Sql.Int 1);
     ("created_at", Sql.Text (now db));
     ("updated_at", Sql.Text (now db))].

Definition create (db : DB) (categoryData : gmap string JS.value)
  : result (DB * option Sql.row) :=
  let name := JS.get categoryData "name" in
  let description := JS.get categoryData "description" in
  let slug := JS.get categoryData "slug" in
  (* slug || this.generateSlug(name) *)
  let* finalSlug := if JS.truthy slug then Ok slug else on_string generateSlug name in
  let id := fresh_id (seq_categories db) (categories db) in
  let row := inserted_row db id name description finalSlug in
  let* (db', result) :=
    commit (with_seq_categories id (with_categories (categories db ++ [row])%list db))
           (mkRun id 1) in
  Ok (db', findById db' (JS.Num (lastID result))).

Definition findBySlug (db : DB) (slug : JS.value) : option Sql.row :=
  head (map (fun r => select_as scope (env r) (bare columns))
            (List.filter (fun r => Sql.eqb (Sql.col r "slug") (Sql.bind slug))
                         (categories db))).

(** [SELECT id, name, description, slug, created_at, updated_at FROM
    categories WHERE is_active = 1 ORDER BY name ASC] *)
Definition findActive (db : DB) : list Sql.row :=
  map (fun r => select_as scope (env r)
                  (bare ["id"; "name"; "description"; "slug"; "created_at"; "updated_at"]))
      (Sql.order_by (fun r => Query.read scope (env r) (Query.Bare "name")) Sql.ASC
         (List.filter
            (fun r => Query.where_ scope
                        [Query.Equals (Query.Bare "is_active") (Sql.Int 1)] (env r))
            (categories db))).

End Category.

(** ** models/News.js *)

Module News.

(** News.generateSlug: the shared pipeline, then [.substring(0, 500)]. *)
Definition generateSlug : string -> string :=
  JS.lift (fun title => JS.substring0_chars 500 (slug_pipeline title)).

(** [FROM news n LEFT JOIN categories c ON n.category_id = c.id
    LEFT JOIN users u ON n.author_id = u.id] *)
Definition join_scope : Sql.scope :=
  [("n", Schema.news); ("c", Schema.categories); ("u", Schema.users)].

Definition joined_row : Type := (Sql.row * option Sql.row) * option Sql.row.

Definition join_env (j : joined_row) : Query.env :=
  fun a => if String.eqb a "n" then Some (fst (fst j))
           else if String.eqb a "c" then snd (fst j)
           else if String.eqb a "u" then snd j
           else None.

Definition joined (db : DB) : list joined_row :=
  Sql.left_join (fun nc u => Sql.eqb (Sql.col (fst nc) "author_id") (Sql.col u "id"))
    (Sql.left_join (fun n c => Sql.eqb (Sql.col n "category_id") (Sql.col c "id"))
                   (news db) (categories db))
    (users db).

Definition relation_columns : list (string * Query.colref) :=
  ([("category_id", Query.Qualified "n" "category_id");
    ("category_name", Query.Qualified "c" "name");
    ("category_slug", Query.Qualified "c" "slug");
    ("author_id", Query.Qualified "n" "author_id");
    ("author_username", Query.Qualified "u" "username");
    ("author_first_name", Query.Qualified "u" "first_name");
    ("author_last_name", Query.Qualified "u" "last_name")])%list.

(** The select list of [findById] and [findBySlug]. *)
Definition detail_columns : list (string * Query.colref) :=
  (qualified "n" ["id"; "title"; "content"; "summary"; "slug"; "featured_image";
                  "status"; "published_at"; "created_at"; "updated_at"]
   ++ relation_columns)%list.

(** The select list of [findAll]: no content. *)
Definition list_columns : list (string * Query.colref) :=
  (qualified "n" ["id"; "title"; "summary"; "slug"; "featured_image";
                  "status"; "published_at"; "created_at"; "updated_at"]
   ++ relation_columns)%list.

Definition findById (db : DB) (id : JS.value) : option Sql.row :=
  head (map (fun j => select_as join_scope (join_env j) detail_columns)
    (List.filter
       (fun j => Query.where_ join_scope
                   [Query.Equals (Query.Qualified "n" "id") (Sql.bind id)] (join_env j))
       (joined db))).

(** The row of [INSERT INTO news (title, content, summary, slug,
    featured_image, status, category_id, author_id) VALUES (?, ?, ?, ?, ?,
    ?, ?, ?)]: published_at has no default, the two timestamps default to
    CURRENT_TIMESTAMP. *)
Definition inserted_row (db : DB) (id : Z)
           (title content summary finalSlug featured_image status category_id author_id
            : JS.value) : Sql.row :=
  list_to_map
    [("id", Sql.Int id);
     ("title", Sql.bind title);
     ("content", Sql.bind content);
     ("summary", Sql.bind summary);
     ("slug", Sql.bind finalSlug);
     ("featured_image", Sql.bind featured_image);
     ("status", Sql.bind status);
     ("category_id", Sql.bind category_id);
     ("author_id", Sql.bind author_id);
     ("published_at", Sql.Null);
     ("created_at", Sql.Text (now db));
     ("updated_at", Sql.Text (now db))].

Definition create (db : DB) (newsData : gmap string JS.value)
  : result (DB * option Sql.row) :=
  let title := JS.get newsData "title" in
  let content := JS.get newsData "content" in
  let summary := JS.get newsData "summary" in
  let slug := JS.get newsData "slug" in
  let featured_image := JS.get newsData "featured_image" in
  let status := JS.get_default newsData "status" (JS.Str "draft") in
  let category_id := JS.get newsData "category_id" in
  let author_id := JS.get newsData "author_id" in
  (* slug || this.generateSlug(title) *)
  let* finalSlug := if JS.truthy slug then Ok slug else on_string generateSlug title in
  let id := fresh_id (seq_news db) (news db) in
  let row :=
    inserted_row db id title content summary finalSlug featured_image status
                 category_id author_id in
  let* (db', result) :=
    commit (with_seq_news id (with_news (news db ++ [row])%list db)) (mkRun id 1) in
  Ok (db', findById db' (JS.Num (lastID result))).

Definition validSortFields : list string :=
  ["id"; "title"; "status"; "published_at"; "created_at"].

Definition whereConditions (options : Options) : list Query.condition :=
  (match given_string (status options) with
   | Some s => [Query.Equals (Query.Qualified "n" "status") (Sql.Text s)]
   | None => []
   end ++
   match given_number (category_id options) with
   | Some c => [Query.Equals (Query.Qualified "n" "category_id") (Sql.Int c)]
   | None => []
   end ++
   match given_number (author_id options) with
   | Some a => [Query.Equals (Query.Qualified "n" "author_id") (Sql.Int a)]
   | None => []
   end ++
   match given_string (search options) with
   | Some s => [Query.LikeAny [Query.Qualified "n" "title"; Query.Qualified "n" "content";
                               Query.Qualified "n" "summary"] (searchTerm s)]
   | None => []
   end)%list.

Definition findAll (db : DB) (options : Options) : result Listing :=
  let page := default 1 (page options) in
  let limit := default 10 (limit options) in
  let sort := default "created_at" (sort options) in
  let order := default "desc" (order options) in
  let offset := JS.mul (JS.sub page 1) limit in
  let sortField := sortField validSortFields sort in
  let sortOrder := sortOrder order in
  let conds := whereConditions options in
  let matching :=
    List.filter (fun j => Query.where_ join_scope conds (join_env j)) (joined db) in
  (* SELECT COUNT( * ) as total FROM news n LEFT JOIN ... WHERE ... *)
  let* _ := Query.prepare join_scope (flat_map Query.refs_of conds) in
  let total := Z.of_nat (length matching) in
  (* SELECT ... FROM news n LEFT JOIN ... WHERE ...
     ORDER BY n.sortField sortOrder LIMIT ? OFFSET ? *)
  let* _ := Query.prepare join_scope
              (flat_map Query.refs_of conds ++ [Query.Qualified "n" sortField]) in
  let* limit' := must_be_int limit in
  let* offset' := must_be_int offset in
  let rows :=
    Sql.limit_offset limit' offset'
      (Sql.order_by
         (fun j => Query.read join_scope (join_env j) (Query.Qualified "n" sortField))
         sortOrder matching) in
  Ok (mkListing (map (fun j => select_as join_scope (join_env j) list_columns) rows)
                (mkPagination page limit total (ceil_div total limit))).

Definition allowedFields : list string :=
  ["title"; "content"; "summary"; "slug"; "featured_image"; "status"; "category_id"].

(** The [published_at] assignment that the status of the update calls for. *)
Definition published_at_clause (db : DB) (updateData : gmap string JS.value)
  : gmap string Sql.value :=
  let status := JS.get updateData "status" in
  if bool_decide (status = JS.Str "published")
  then {["published_at" := Sql.Text (now db)]}
  else if JS.truthy status && negb (bool_decide (status = JS.Str "published"))
       then {["published_at" := Sql.Null]}
       else ∅.

(** [SET k1 = ?, ..., published_at = ..., updated_at = CURRENT_TIMESTAMP]
    on one row. *)
Definition set_row (db : DB) (updateData : gmap string JS.value) (r : Sql.row) : Sql.row :=
  <["updated_at" := Sql.Text (now db)]>
    (assign (published_at_clause db updateData)
            (assign (set_clause allowedFields updateData) r)).

Definition updateById (db : DB) (id : JS.value) (updateData : gmap string JS.value)
  : result (DB * option Sql.row) :=
  let updateFields := set_clause allowedFields updateData in
  if bool_decide (updateFields = ∅) then Err (ThrownError "No valid fields to update")
  else
    let* (db', _) :=
      commit (with_news (update_where (where_id id) (set_row db updateData) (news db)) db)
             (mkRun 0 (count_where (where_id id) (news db))) in
    Ok (db', findById db' id).

(** [DELETE FROM news WHERE id = ?] *)
Definition deleteById (db : DB) (id : JS.value) : result (DB * bool) :=
  let* (db', r) :=
    commit (with_news (List.filter (fun r => negb (where_id id r)) (news db)) db)
           (mkRun 0 (count_where (where_id id) (news db))) in
  Ok (db', 0 <? changes r).

(** [existsBySlug(slug, excludeId)] *)
Definition existsBySlug (db : DB) (slug excludeId : JS.value) : bool :=
  let hit (r : Sql.row) :=
    Sql.eqb (Sql.col r "slug") (Sql.bind slug)
    && (if JS.truthy excludeId
        then negb (Sql.is_null (Sql.col r "id")) && negb (Sql.is_null (Sql.bind excludeId))
             && negb (bool_decide (Sql.col r "id" = Sql.bind excludeId))
        else true) in
  match head (List.filter hit (news db)) with
  | Some _ => true
  | None => false
  end.

Definition findPublished (db : DB) (options : Options) : result Listing :=
  findAll db (with_status (Some "published") options).

Definition findByCategory (db : DB) (categoryId : Z) (options : Options) : result Listing :=
  findAll db (with_category_id (Some categoryId) options).

Definition findByAuthor (db : DB) (authorId : Z) (options : Options) : result Listing :=
  findAll db (with_author_id (Some authorId) options).

Definition search (db : DB) (searchTerm : string) (options : Options) : result Listing :=
  findAll db (with_search (Some searchTerm) options).

Definition findBySlug (db : DB) (slug : JS.value) : option Sql.row :=
  head (map (fun j => select_as join_scope (join_env j) detail_columns)
    (List.filter
       (fun j => Query.where_ join_scope
                   [Query.Equals (Query.Qualified "n" "slug") (Sql.bind slug)] (join_env j))
       (joined db))).

(** The select list of [getLatest]. *)
Definition latest_columns : list (string * Query.colref) :=
  (qualified "n" ["id"; "title"; "summary"; "slug"; "featured_image"; "published_at";
                  "created_at"]
   ++ [("category_name", Query.Qualified "c" "name");
       ("category_slug", Query.Qualified "c" "slug");
       ("author_username", Query.Qualified "u" "username");
       ("author_first_name", Query.Qualified "u" "first_name");
       ("author_last_name", Query.Qualified "u" "last_name")])%list.

(** [... WHERE n.status = 'published' ORDER BY n.published_at DESC LIMIT ?] *)
Definition getLatest (db : DB) (limit : Z) : result (list Sql.row) :=
  let* limit' := must_be_int limit in
  Ok (map (fun j => select_as join_scope (join_env j) latest_columns)
        (Sql.limit_offset limit' 0
           (Sql.order_by
              (fun j => Query.read join_scope (join_env j)
                          (Query.Qualified "n" "published_at"))
              Sql.DESC
              (List.filter
                 (fun j => Query.where_ join_scope
                             [Query.Equals (Query.Qualified "n" "status")
                                           (Sql.Text "published")] (join_env j))
                 (joined db))))).

End News.

(** ** Requests and responses *)

(** What a controller reads from [req] once the middlewares have run:
    [req.user] as [authenticateToken] attached it, [req.params.id] as
    [validateId] stored it, and [req.body]. *)
Record Request : Type := mkRequest {
  user : Sql.row;
  params_id : Z;
  body : gmap string JS.value
}.

(** [res.status(code).json({ status, message, data })] *)
Record Response : Type := mkResponse {
  http_status : Z;
  message : string;
  data : option Sql.row
}.

(** [parseInt(x)] where [x] is already an integer-valued number: it is
    printed and read back, which gives [x] itself for the numbers that
    print without an exponent (magnitude below 10^21). *)
Definition parseInt_number (x : Z) : JS.value := JS.Num x.

(** [req.user.role !== 'admin' && req.user.role !== 'editor' &&
    req.user.id !== resource.author_id] *)
Definition not_owner_nor_staff (user resource : Sql.row) : bool :=
  negb (bool_decide (Sql.to_js (Sql.col user "role") = JS.Str "admin"))
  && negb (bool_decide (Sql.to_js (Sql.col user "role") = JS.Str "editor"))
  && negb (bool_decide (Sql.to_js (Sql.col user "id")
                        = Sql.to_js (Sql.col resource "author_id"))).

(** ** controllers/userController.js *)

Module UserController.

Definition deleteUser (db : DB) (req : Request) : Response * DB :=
  let userId := params_id req in
  (* Prevent users from deleting themselves *)
  if bool_decide (Sql.to_js (Sql.col (user req) "id") = parseInt_number userId)
  then (mkResponse 400 "You cannot delete your own account" None, db)
  else
    match User.findById db (JS.Num userId) with
    | None => (mkResponse 404 "User not found" None, db)
    | Some _ =>
        match User.deleteById db (JS.Num userId) with
        | Err _ => (mkResponse 500 "Failed to delete user" None, db)
        | Ok (db', deleted) =>
            if negb deleted
            then (mkResponse 400 "Failed to delete user" None, db')
            else (mkResponse 200 "User deleted successfully" None, db')
        end
    end.

Definition toggleUserStatus (db : DB) (req : Request) : Response * DB :=
  let userId := params_id req in
  (* Prevent users from deactivating themselves *)
  if bool_decide (Sql.to_js (Sql.col (user req) "id") = parseInt_number userId)
  then (mkResponse 400 "You cannot change your own status" None, db)
  else
    match User.findById db (JS.Num userId) with
    | None => (mkResponse 404 "User not found" None, db)
    | Some found =>
        let is_active := JS.truthy (Sql.to_js (Sql.col found "is_active")) in
        match User.updateById db (JS.Num userId) {["is_active" := JS.Bool (negb is_active)]} with
        | Err _ => (mkResponse 500 "Failed to change user status" None, db)
        | Ok (db', None) =>
            (* updatedUser.email on undefined *)
            (mkResponse 500 "Failed to change user status" None, db')
        | Ok (db', Some updatedUser) =>
            (mkResponse 200
               (if JS.truthy (Sql.to_js (Sql.col updatedUser "is_active"))
                then "User activated successfully"
                else "User deactivated successfully")
               (Some updatedUser), db')
        end
    end.

Definition updateUser (db : DB) (req : Request) : Response * DB :=
  let userId := params_id req in
  let updateData := body req in
  match User.findById db (JS.Num userId) with
  | None => (mkResponse 404 "User not found" None, db)
  | Some existingUser =>
      let email := JS.get updateData "email" in
      let username := JS.get updateData "username" in
      (* Check if email or username is taken by another user *)
      let existsCheck :=
        if JS.truthy email || JS.truthy username
        then User.checkExists db
               (JS.or email (Sql.to_js (Sql.col existingUser "email")))
               (JS.or username (Sql.to_js (Sql.col existingUser "username")))
               (JS.Num userId)
        else None in
      match existsCheck with
      | Some field =>
          (mkResponse 400 ("Another user with this " ++ field ++ " already exists") None, db)
      | None =>
          (* Prevent users from changing their own role (unless they're admin) *)
          let updateData :=
            if bool_decide (Sql.to_js (Sql.col (user req) "id") = parseInt_number userId)
               && JS.truthy (JS.get updateData "role")
               && negb (bool_decide (Sql.to_js (Sql.col (user req) "role") = JS.Str "admin"))
            then delete "role" updateData
            else updateData in
          match User.updateById db (JS.Num userId) updateData with
          | Err _ => (mkResponse 500 "Failed to update user" None, db)
          | Ok (db', None) => (mkResponse 500 "Failed to update user" None, db')
          | Ok (db', Some updatedUser) =>
              (mkResponse 200 "User updated successfully" (Some updatedUser), db')
          end
      end
  end.

End UserController.

(** ** controllers/authController.js *)

(** [{ id: user.id, username: user.username, ... }] *)
Definition pick (fields : list string) (r : Sql.row) : Sql.row :=
  list_to_map (map (fun c => (c, Sql.col r c)) fields).

Module AuthController.

Definition updateProfile (db : DB) (req : Request) : Response * DB :=
  let userId := Sql.to_js (Sql.col (user req) "id") in
  let username := JS.get (body req) "username" in
  let email := JS.get (body req) "email" in
  let first_name := JS.get (body req) "first_name" in
  let last_name := JS.get (body req) "last_name" in
  (* Check if email or username is taken by another user *)
  let existsCheck :=
    if JS.truthy email || JS.truthy username
    then User.checkExists db
           (JS.or email (Sql.to_js (Sql.col (user req) "email")))
           (JS.or username (Sql.to_js (Sql.col (user req) "username")))
           userId
    else None in
  match existsCheck with
  | Some field =>
      (mkResponse 400 ("Another user with this " ++ field ++ " already exists") None, db)
  | None =>
      (* the object literal has the four keys, whatever their values *)
      match User.updateById db userId
              (list_to_map [("username", username); ("email", email);
                            ("first_name", first_name); ("last_name", last_name)]) with
      | Err _ => (mkResponse 500 "Failed to update profile" None, db)
      | Ok (db', None) => (mkResponse 500 "Failed to update profile" None, db')
      | Ok (db', Some updatedUser) =>
          (mkResponse 200 "Profile updated successfully"
             (Some (pick ["id"; "username"; "email"; "first_name"; "last_name"; "role"]
                         updatedUser)), db')
      end
  end.

End AuthController.

(** ** controllers/categoryController.js *)

(** [if (updateData.k && !updateData.slug) updateData.slug = generateSlug(updateData.k)] *)
Definition fill_slug (generateSlug : string -> string) (k : string)
           (updateData : gmap string JS.value) : result (gmap string JS.value) :=
  if JS.truthy (JS.get updateData k) && negb (JS.truthy (JS.get updateData "slug"))
  then let* slug := on_string generateSlug (JS.get updateData k) in
       Ok (<["slug" := slug]> updateData)
  else Ok updateData.

Module CategoryController.

Definition updateCategory (db : DB) (req : Request) : Response * DB :=
  let categoryId := params_id req in
  match Category.findById db (JS.Num categoryId) with
  | None => (mkResponse 404 "Category not found" None, db)
  | Some existingCategory =>
      (* Generate slug if name is being updated but slug is not provided *)
      match fill_slug Category.generateSlug "name" (body req) with
      | Err _ => (mkResponse 500 "Failed to update category" None, db)
      | Ok updateData =>
          let name := JS.get updateData "name" in
          let slug := JS.get updateData "slug" in
          (* Check if name or slug is taken by another category *)
          let existsCheck :=
            if JS.truthy name || JS.truthy slug
            then Category.checkExists db
                   (JS.or name (Sql.to_js (Sql.col existingCategory "name")))
                   (JS.or slug (Sql.to_js (Sql.col existingCategory "slug")))
                   (JS.Num categoryId)
            else None in
          match existsCheck with
          | Some field =>
              (mkResponse 400 ("Another category with this " ++ field ++ " already exists")
                          None, db)
          | None =>
              match Category.updateById db (JS.Num categoryId) updateData with
              | Err _ => (mkResponse 500 "Failed to update category" None, db)
              | Ok (db', None) => (mkResponse 500 "Failed to update category" None, db')
              | Ok (db', Some updatedCategory) =>
                  (mkResponse 200 "Category updated successfully" (Some updatedCategory), db')
              end
          end
      end
  end.

(** [category.news_count > 0]; the column is a COUNT, an integer. *)
Definition has_news (category : Sql.row) : bool :=
  match Sql.col category "news_count" with
  | Sql.Int n => 0 <? n
  | _ => false
  end.

Definition deleteCategory (db : DB) (req : Request) : Response * DB :=
  let categoryId := params_id req in
  match Category.findByIdWithNewsCount db (JS.Num categoryId) with
  | None => (mkResponse 404 "Category not found" None, db)
  | Some category =>
      (* Check if category has news articles *)
      if has_news category
      then (mkResponse 400
              ("Cannot delete category. It has "
               ++ default "" (Sql.text_of (Sql.col category "news_count"))
               ++ " news article(s) associated with it") None, db)
      else
        match Category.deleteById db (JS.Num categoryId) with
        | Err _ => (mkResponse 500 "Failed to delete category" None, db)
        | Ok (db', deleted) =>
            if negb deleted
            then (mkResponse 400 "Failed to delete category" None, db')
            else (mkResponse 200 "Category deleted successfully" None, db')
        end
  end.

Definition createCategory (db : DB) (req : Request) : Response * DB :=
  let name := JS.get (body req) "name" in
  let description := JS.get (body req) "description" in
  let slug := JS.get (body req) "slug" in
  (* Generate slug if not provided *)
  match (if JS.truthy slug then Ok slug else on_string Category.generateSlug name) with
  | Err _ => (mkResponse 500 "Failed to create category" None, db)
  | Ok finalSlug =>
      (* Check if category with same name or slug exists *)
      match Category.checkExists db name finalSlug JS.Null with
      | Some field =>
          (mkResponse 400 ("Category with this " ++ field ++ " already exists") None, db)
      | None =>
          match Category.create db
                  (list_to_map [("name", name); ("description", description);
                                ("slug", finalSlug)]) with
          | Err _ => (mkResponse 500 "Failed to create category" None, db)
          | Ok (db', None) => (mkResponse 500 "Failed to create category" None, db')
          | Ok (db', Some category) =>
              (mkResponse 201 "Category created successfully" (Some category), db')
          end
      end
  end.

Definition toggleCategoryStatus (db : DB) (req : Request) : Response * DB :=
  let categoryId := params_id req in
  match Category.findById db (JS.Num categoryId) with
  | None => (mkResponse 404 "Category not found" None, db)
  | Some category =>
      let is_active := JS.truthy (Sql.to_js (Sql.col category "is_active")) in
      match Category.updateById db (JS.Num categoryId)
              {["is_active" := JS.Bool (negb is_active)]} with
      | Err _ => (mkResponse 500 "Failed to change category status" None, db)
      | Ok (db', None) => (mkResponse 500 "Failed to change category status" None, db')
      | Ok (db', Some updatedCategory) =>
          (mkResponse 200
             (if JS.truthy (Sql.to_js (Sql.col updatedCategory "is_active"))
              then "Category activated successfully"
              else "Category deactivated successfully")
             (Some updatedCategory), db')
      end
  end.

End CategoryController.

(** ** controllers/newsController.js *)

Module NewsController.

Definition updateNews (db : DB) (req : Request) : Response * DB :=
  let newsId := params_id req in
  match News.findById db (JS.Num newsId) with
  | None => (mkResponse 404 "News article not found" None, db)
  | Some existingNews =>
      (* Check authorization (author or admin/editor) *)
      if not_owner_nor_staff (user req) existingNews
      then (mkResponse 403 "Access denied - you can only edit your own articles" None, db)
      else
        (* Generate slug if title is being updated but slug is not provided *)
        match fill_slug News.generateSlug "title" (body req) with
        | Err _ => (mkResponse 500 "Failed to update news article" None, db)
        | Ok updateData =>
            (* Check if slug exists (if being updated) *)
            if JS.truthy (JS.get updateData "slug")
               && News.existsBySlug db (JS.get updateData "slug") (JS.Num newsId)
            then (mkResponse 400 "Another news article with this slug already exists"
                             None, db)
            else
              (* Verify category exists if provided *)
              if JS.truthy (JS.get updateData "category_id")
                 && negb (bool_decide
                            (is_Some (Category.findById db (JS.get updateData "category_id"))))
              then (mkResponse 400 "Category not found" None, db)
              else
                match News.updateById db (JS.Num newsId) updateData with
                | Err _ => (mkResponse 500 "Failed to update news article" None, db)
                | Ok (db', None) =>
                    (mkResponse 500 "Failed to update news article" None, db')
                | Ok (db', Some updatedNews) =>
                    (mkResponse 200 "News article updated successfully"
                                (Some updatedNews), db')
                end
        end
  end.

Definition deleteNews (db : DB) (req : Request) : Response * DB :=
  let newsId := params_id req in
  match News.findById db (JS.Num newsId) with
  | None => (mkResponse 404 "News article not found" None, db)
  | Some news =>
      (* Check authorization (author or admin/editor) *)
      if not_owner_nor_staff (user req) news
      then (mkResponse 403 "Access denied - you can only delete your own articles" None, db)
      else
        match News.deleteById db (JS.Num newsId) with
        | Err _ => (mkResponse 500 "Failed to delete news article" None, db)
        | Ok (db', deleted) =>
            if negb deleted
            then (mkResponse 400 "Failed to delete news article" None, db')
            else (mkResponse 200 "News article deleted successfully" None, db')
        end
  end.

Definition createNews (db : DB) (req : Request) : Response * DB :=
  let title := JS.get (body req) "title" in
  let content := JS.get (body req) "content" in
  let summary := JS.get (body req) "summary" in
  let slug := JS.get (body req) "slug" in
  let featured_image := JS.get (body req) "featured_image" in
  let status := JS.get (body req) "status" in
  let category_id := JS.get (body req) "category_id" in
  let author_id := Sql.to_js (Sql.col (user req) "id") in
  (* Generate slug if not provided *)
  match (if JS.truthy slug then Ok slug else on_string News.generateSlug title) with
  | Err _ => (mkResponse 500 "Failed to create news article" None, db)
  | Ok finalSlug =>
      (* Check if slug exists *)
      if News.existsBySlug db finalSlug JS.Null
      then (mkResponse 400 "News article with this slug already exists" None, db)
      else
        (* Verify category exists if provided *)
        if JS.truthy category_id
           && negb (bool_decide (is_Some (Category.findById db category_id)))
        then (mkResponse 400 "Category not found" None, db)
        else
          match News.create db
                  (list_to_map [("title", title); ("content", content);
                                ("summary", summary); ("slug", finalSlug);
                                ("featured_image", featured_image);
                                ("status", JS.or status (JS.Str "draft"));
                                ("category_id", category_id);
                                ("author_id", author_id)]) with
          | Err _ => (mkResponse 500 "Failed to create news article" None, db)
          | Ok (db', None) => (mkResponse 500 "Failed to create news article" None, db')
          | Ok (db', Some news) =>
              (mkResponse 201 "News article created successfully" (Some news), db')
          end
  end.

End NewsController.

(** ** utils/validation.js *)

Module Validation.

(** What the schemas ask of the Joi library and this model leaves open:
    which text [Joi.string().uri()] takes for a URI, and the number
    [Joi.number().integer().positive()] reads from a text ([None] when it
    reports an error).  Every statement about a schema holds for every
    value of the two. *)
Record Joi : Type := mkJoi {
  uri : string -> bool;
  positive_integer : string -> option Z
}.

(** The Joi rules the news update schema is built from. *)
Inductive rule : Type :=
| StringRule (min : nat) (max : option nat) (is_uri : bool)
    (* Joi.string().min(..).max(..), with .uri() *)
| ValidRule (allowed : list string)
    (* Joi.string().valid(..) *)
| PositiveIntegerRule.
    (* Joi.number().integer().positive() *)

(** newsSchemas.update; every key is optional. *)
Definition newsSchemas_update : gmap string rule :=
  list_to_map
    [("title", StringRule 1 (Some 500%nat) false);
     ("content", StringRule 1 None false);
     ("summary", StringRule 0 (Some 1000%nat) false);
     ("slug", StringRule 1 (Some 500%nat) false);
     ("featured_image", StringRule 0 None true);
     ("status", ValidRule ["draft"; "published"; "archived"]);
     ("category_id", PositiveIntegerRule)].

Definition safe_integer (n : Z) : bool := Z.abs n <=? 2 ^ 53 - 1.

(** The value a rule lets through (after conversion), if it does.  A
    string rule takes a string that is not empty and nothing else; a
    number rule takes a number, or a text the library reads as one. *)
Definition check_rule (J : Joi) (r : rule) (v : JS.value) : option JS.value :=
  match r, v with
  | _, JS.Undefined => Some JS.Undefined
  | StringRule min max is_uri, JS.Str s =>
      if negb (String.eqb s "")
         && (min <=? String.length s)%nat
         && match max with Some m => (String.length s <=? m)%nat | None => true end
         && (negb is_uri || uri J s)
      then Some v else None
  | ValidRule allowed, JS.Str s =>
      if bool_decide (s ∈ allowed) then Some v else None
  | PositiveIntegerRule, JS.Num n =>
      if (0 <? n) && safe_integer n then Some v else None
  | PositiveIntegerRule, JS.Str s =>
      match positive_integer J s with
      | Some n => Some (JS.Num n)
      | None => None
      end
  | _, _ => None
  end.

(** Each key of the body against its rule; an unknown key has none. *)
Definition checked (J : Joi) (schema : gmap string rule) (body : gmap string JS.value)
  : gmap string (option (option JS.value)) :=
  map_imap (fun k v => Some (option_map (fun r => check_rule J r v) (schema !! k))) body.

(** [schema.validate(body, { abortEarly: false, allowUnknown: false,
    stripUnknown: true })]: unknown keys are stripped, the known ones
    must all pass; [None] is a validation error. *)
Definition validate (J : Joi) (schema : gmap string rule) (body : gmap string JS.value)
  : option (gmap string JS.value) :=
  let c := checked J schema body in
  if bool_decide (map_Forall (fun _ o => o ≠ Some None) c)
  then Some (omap (fun o => match o with Some (Some v) => Some v | _ => None end) c)
  else None.

End Validation.

(** ** middlewares/auth.js and the routes *)

(** A request as it leaves [authenticateToken]: the caller row, the value
    of [parseInt(req.params.id)] (a number or [NaN]), the parsed JSON body. *)
Record HttpRequest : Type := mkHttpRequest {
  caller : Sql.row;
  parsed_id : JS.value;
  json_body : gmap string JS.value
}.

Module Middleware.

(** [authorize(...roles)]: [None] is [next()]. *)
Definition authorize (roles : list string) (r : HttpRequest) : option Response :=
  if bool_decide (Sql.to_js (Sql.col (caller r) "role") ∈ map JS.Str roles)
  then None
  else Some (mkResponse 403 "Access denied - insufficient permissions" None).

(** [validateId]: [isNaN(id) || id < 1] *)
Definition validateId (r : HttpRequest) : Response + Z :=
  match parsed_id r with
  | JS.Num id => if id <? 1 then inl (mkResponse 400 "Invalid ID parameter" None) else inr id
  | _ => inl (mkResponse 400 "Invalid ID parameter" None)
  end.

(** [validate(schema)] on the body. *)
Definition validate (J : Validation.Joi) (schema : gmap string Validation.rule)
           (r : HttpRequest) : Response + gmap string JS.value :=
  match Validation.validate J schema (json_body r) with
  | None => inl (mkResponse 400 "Validation error" None)
  | Some value => inr value
  end.

End Middleware.

Module Routes.

(** [router.put('/:id', authenticateToken, validateId,
    validate(newsSchemas.update), NewsController.updateNews)] *)
Definition put_news (J : Validation.Joi) (db : DB) (r : HttpRequest) : Response * DB :=
  match Middleware.validateId r with
  | inl res => (res, db)
  | inr id =>
      match Middleware.validate J Validation.newsSchemas_update r with
      | inl res => (res, db)
      | inr value => NewsController.updateNews db (mkRequest (caller r) id value)
      end
  end.

(** [router.delete('/:id', authenticateToken, validateId,
    NewsController.deleteNews)] *)
Definition delete_news (db : DB) (r : HttpRequest) : Response * DB :=
  match Middleware.validateId r with
  | inl res => (res, db)
  | inr id => NewsController.deleteNews db (mkRequest (caller r) id (json_body r))
  end.

(** [router.delete('/:id', authenticateToken, authorize('admin'),
    validateId, UserController.deleteUser)] *)
Definition delete_user (db : DB) (r : HttpRequest) : Response * DB :=
  match Middleware.authorize ["admin"] r with
  | Some res => (res, db)
  | None =>
      match Middleware.validateId r with
      | inl res => (res, db)
      | inr id => UserController.deleteUser db (mkRequest (caller r) id (json_body r))
      end
  end.

(** [router.patch('/:id/toggle-status', authenticateToken,
    authorize('admin'), validateId, UserController.toggleUserStatus)] *)
Definition toggle_user_status (db : DB) (r : HttpRequest) : Response * DB :=
  match Middleware.authorize ["admin"] r with
  | Some res => (res, db)
  | None =>
      match Middleware.validateId r with
      | inl res => (res, db)
      | inr id => UserController.toggleUserStatus db (mkRequest (caller r) id (json_body r))
      end
  end.

(** [router.delete('/:id', authenticateToken, authorize('admin'),
    validateId, CategoryController.deleteCategory)] *)
Definition delete_category (db : DB) (r : HttpRequest) : Response * DB :=
  match Middleware.authorize ["admin"] r with
  | Some res => (res, db)
  | None =>
      match Middleware.validateId r with
      | inl res => (res, db)
      | inr id => CategoryController.deleteCategory db (mkRequest (caller r) id (json_body r))
      end
  end.

(** [router.patch('/:id/toggle-status', authenticateToken,
    authorize('admin', 'editor'), validateId,
    CategoryController.toggleCategoryStatus)] *)
Definition toggle_category_status (db : DB) (r : HttpRequest) : Response * DB :=
  match Middleware.authorize ["admin"; "editor"] r with
  | Some res => (res, db)
  | None =>
      match Middleware.validateId r with
      | inl res => (res, db)
      | inr id =>
          CategoryController.toggleCategoryStatus db (mkRequest (caller r) id (json_body r))
      end
  end.

End Routes.

(** ** The specification's vocabulary *)

Module Spec.

(** *** Slugs, as the specification words them: lowercase; trim; strip
    all characters outside a set; collapse runs of
    whitespace/underscore/hyphen into a single hyphen; strip
    leading/trailing hyphens. *)

(** [a-z0-9, whitespace, hyphen] *)
Definition slug_char (c : ascii) : bool :=
  JS.isLower c || JS.isDigit c || JS.isSpace c || JS.isHyphen c.

(** The same set with the underscore. *)
Definition slug_char_or_underscore (c : ascii) : bool :=
  JS.isLower c || JS.isDigit c || JS.isUnderscore c || JS.isSpace c || JS.isHyphen c.

(** A run of separators becomes one hyphen, written when the run ends. *)
Fixpoint collapse (s : JS.chars) : JS.chars :=
  match s with
  | [] => []
  | c :: s' =>
      if separator c then
        match s' with
        | [] => hyphen
        | c' :: _ => if separator c' then collapse s' else (hyphen ++ collapse s')%list
        end
      else c :: collapse s'
  end.

Definition strip_hyphens (s : JS.chars) : JS.chars :=
  rev (JS.dropWhile JS.isHyphen (rev (JS.dropWhile JS.isHyphen s))).

Definition slugify_with (keep : ascii -> bool) (text : JS.chars) : JS.chars :=
  strip_hyphens (collapse (List.filter keep (JS.trim_chars (JS.toLowerCase_chars text)))).

(** [slugify] of the specification, and its News variant. *)
Definition slugify : string -> string := JS.lift (slugify_with slug_char).
Definition slugify_news : string -> string :=
  JS.lift (fun text => firstn 500 (slugify_with slug_char text)).

(** The amended reading: the strip step keeps the underscore. *)
Definition slugify_amended : string -> string :=
  JS.lift (slugify_with slug_char_or_underscore).
Definition slugify_news_amended : string -> string :=
  JS.lift (fun text => firstn 500 (slugify_with slug_char_or_underscore text)).

(** *** Ownership: the caller is admin or editor, or is the author. *)
Definition may_modify (caller article : Sql.row) : Prop :=
  Sql.col caller "role" = Sql.Text "admin"
  \/ Sql.col caller "role" = Sql.Text "editor"
  \/ Sql.col caller "id" = Sql.col article "author_id".

(** A response that turns the request down. *)
Definition rejected (res : Response) : Prop :=
  http_status res = 400 \/ http_status res = 403.

(** *** The number of news articles associated with a category. *)
Definition news_in_category (db : DB) (categoryId : Z) : Z :=
  count_where (fun n => Sql.eqb (Sql.col n "category_id") (Sql.Int categoryId)) (news db).

(** *** The filters of the list operations, on one row. *)
Definition text_filter (wanted : option string) (v : Sql.value) : bool :=
  match given_string wanted with
  | Some s => Sql.eqb v (Sql.Text s)
  | None => true
  end.

Definition number_filter (wanted : option Z) (v : Sql.value) : bool :=
  match given_number wanted with
  | Some n => Sql.eqb v (Sql.Int n)
  | None => true
  end.

Definition flag_filter (wanted : option bool) (v : Sql.value) : bool :=
  match wanted with
  | Some b => Sql.eqb v (Sql.Int (if b then 1 else 0))
  | None => true
  end.

Definition search_filter (wanted : option string) (vs : list Sql.value) : bool :=
  match given_string wanted with
  | Some s => existsb (fun v => Sql.like v (searchTerm s)) vs
  | None => true
  end.

Definition user_matches (o : Options) (u : Sql.row) : bool :=
  text_filter (role o) (Sql.col u "role")
  && flag_filter (is_active o) (Sql.col u "is_active")
  && search_filter (search o)
       [Sql.col u "username"; Sql.col u "email"; Sql.col u "first_name"; Sql.col u "last_name"].

Definition category_matches (o : Options) (c : Sql.row) : bool :=
  flag_filter (is_active o) (Sql.col c "is_active")
  && search_filter (search o) [Sql.col c "name"; Sql.col c "description"].

Definition news_matches (o : Options) (n : Sql.row) : bool :=
  text_filter (status o) (Sql.col n "status")
  && number_filter (category_id o) (Sql.col n "category_id")
  && number_filter (author_id o) (Sql.col n "author_id")
  && search_filter (search o)
       [Sql.col n "title"; Sql.col n "content"; Sql.col n "summary"].

(** *** Updates through an allow-list.  [stamped] are the columns the
    operation sets on its own.  An [Err] result carries no store: the
    statement was not run and the store is the one the call started from. *)
Definition allow_list_update (allowed stamped : list string) (table : DB -> list Sql.row)
  (updateById : DB -> JS.value -> gmap string JS.value -> result (DB * option Sql.row))
  : Prop :=
  forall (db : DB) (id : JS.value) (updateData : gmap string JS.value),
    (* fields outside the allow-list have no effect *)
    updateById db id updateData
    = updateById db id (filter (fun kv : string * JS.value => fst kv ∈ allowed) updateData)
    (* nothing left after filtering: the no-fields error *)
    /\ ((forall k, k ∈ allowed -> updateData !! k = None) ->
        updateById db id updateData = Err (ThrownError "No valid fields to update"))
    (* no other column of the table changes *)
    /\ (forall db' r, updateById db id updateData = Ok (db', r) ->
          forall c, c ∉ allowed -> c ∉ stamped ->
            Constraint.column c (table db') = Constraint.column c (table db)).

(** *** The published_at of the article [id] after an operation: in every
    stored row with that id and in the row handed back. *)
Definition published_at_is (v : Sql.value) (id : JS.value) (db' : DB)
           (returned : option Sql.row) : Prop :=
  (forall n', In n' (news db') -> where_id id n' = true -> Sql.col n' "published_at" = v)
  /\ (forall x, returned = Some x -> Sql.col x "published_at" = v).

Definition slug_is (v : Sql.value) (id : JS.value) (table : list Sql.row)
           (returned : option Sql.row) : Prop :=
  (forall n', In n' table -> where_id id n' = true -> Sql.col n' "slug" = v)
  /\ (forall x, returned = Some x -> Sql.col x "slug" = v).

Definition exists_in (id : JS.value) (table : list Sql.row) : Prop :=
  exists n, In n table /\ where_id id n = true.

(** [k = ceil(total / limit)] for a positive limit. *)
Definition is_ceil (total limit k : Z) : Prop :=
  (k - 1) * limit < total <= k * limit.

(** What a list operation owes its caller for a page and a limit. *)
Definition paginates (matching : nat) (p l : Z) (r : Listing) : Prop :=
  pg_page (pagination r) = p
  /\ pg_limit (pagination r) = l
  /\ pg_total (pagination r) = Z.of_nat matching
  /\ (exists k, pg_pages (pagination r) = Some k /\ is_ceil (Z.of_nat matching) l k)
  /\ length (items r) = Nat.min (Z.to_nat l) (matching - Z.to_nat ((p - 1) * l))
  /\ (length (items r) <= Z.to_nat l)%nat.

End Spec.

(** ** The store a delete leaves, with what the foreign keys ask for *)

(** [DELETE FROM users WHERE id = ?]: the news of the user go along
    (ON DELETE CASCADE). *)
Definition users_without (db : DB) (id : Z) : DB :=
  with_news
    (List.filter (fun n => negb (bool_decide (Sql.col n "author_id" = Sql.Int id))) (news db))
    (with_users (List.filter (fun r => negb (where_id (JS.Num id) r)) (users db)) db).

(** [DELETE FROM categories WHERE id = ?]: the news of the category lose
    their reference (ON DELETE SET NULL). *)
Definition categories_without (db : DB) (id : Z) : DB :=
  with_news
    (map (fun n => if bool_decide (Sql.col n "category_id" = Sql.Int id)
                   then <["category_id" := Sql.Null]> n else n) (news db))
    (with_categories (List.filter (fun r => negb (where_id (JS.Num id) r)) (categories db)) db).

(** ** A small database to run the code on *)

Module Sample.

Definition root : Sql.row :=
  list_to_map [("id", Sql.Int 1); ("username", Sql.Text "root");
               ("email", Sql.Text "root@x.com"); ("password", Sql.Text "h1");
               ("role", Sql.Text "admin"); ("is_active", Sql.Int 1)].
Definition alice : Sql.row :=
  list_to_map [("id", Sql.Int 2); ("username", Sql.Text "alice");
               ("email", Sql.Text "alice@x.com"); ("password", Sql.Text "h2");
               ("role", Sql.Text "user"); ("is_active", Sql.Int 1)].
Definition bob : Sql.row :=
  list_to_map [("id", Sql.Int 3); ("username", Sql.Text "bob");
               ("email", Sql.Text "bob@x.com"); ("password", Sql.Text "h3");
               ("role", Sql.Text "user"); ("is_active", Sql.Int 1)].

Definition tech : Sql.row :=
  list_to_map [("id", Sql.Int 1); ("name", Sql.Text "Tech"); ("slug", Sql.Text "tech");
               ("is_active", Sql.Int 1)].
Definition sport : Sql.row :=
  list_to_map [("id", Sql.Int 2); ("name", Sql.Text "Sport"); ("slug", Sql.Text "sport");
               ("is_active", Sql.Int 1)].

(** Alice's draft, in Tech. *)
Definition hello : Sql.row :=
  list_to_map [("id", Sql.Int 1); ("title", Sql.Text "Hello"); ("content", Sql.Text "body");
               ("slug", Sql.Text "hello"); ("status", Sql.Text "draft");
               ("category_id", Sql.Int 1); ("author_id", Sql.Int 2)].

Definition db : DB :=
  mkDB [root; alice; bob] [tech; sport] [hello] 3 2 1 "2024-01-01 00:00:00".

(** Payloads. *)
Definition promote : gmap string JS.value :=
  list_to_map [("role", JS.Str "editor"); ("password", JS.Str "x"); ("id", JS.Num 9)].
Definition publish : gmap string JS.value := {["status" := JS.Str "published"]}.
Definition retitle : gmap string JS.value := {["title" := JS.Str "Hello, World_2"]}.
Definition rename : gmap string JS.value := {["name" := JS.Str "Winter Sports"]}.
Definition scoop : gmap string JS.value :=
  list_to_map [("title", JS.Str "Scoop"); ("content", JS.Str "text");
               ("status", JS.Str "published"); ("author_id", JS.Num 3)].

(** The store a call leaves, the store it started from if it failed. *)
Definition after (start : DB) (r : result (DB * option Sql.row)) : DB :=
  match r with
  | Ok (db', _) => db'
  | Err _ => start
  end.
Definition returned (r : result (DB * option Sql.row)) : option Sql.row :=
  match r with
  | Ok (_, x) => x
  | Err _ => None
  end.

Definition listing_of (r : result Listing) : Listing :=
  match r with
  | Ok l => l
  | Err _ => mkListing [] (mkPagination 0 0 0 None)
  end.

(** More payloads and requests. *)
Definition new_category : gmap string JS.value :=
  list_to_map [("name", JS.Str "World News"); ("description", JS.Str "abroad")].
Definition story : gmap string JS.value :=
  list_to_map [("title", JS.Str "First Story"); ("content", JS.Str "text");
               ("author_id", JS.Num 1)].
Definition self_promotion : gmap string JS.value :=
  list_to_map [("role", JS.Str "admin"); ("first_name", JS.Str "Bob")].
Definition new_first_name : gmap string JS.value := {["first_name" := JS.Str "Al"]}.

End Sample.

(** * Properties *)

(** [c ∉ [k1; k2; ...]] for literal names. *)
Ltac not_in_list :=
  repeat (apply not_elem_of_cons; split; [discriminate|]); apply not_elem_of_nil.

(** Reading a computed option, result or list at a concrete input. *)
Section SampleFacts.

Lemma default_Some {A : Type} (d : A) (o : option A) :
  match o with Some _ => true | None => false end = true -> o = Some (default d o).
Proof. destruct o; [reflexivity | discriminate]. Qed.

Lemma listing_of_Ok (r : result Listing) :
  match r with Ok _ => true | Err _ => false end = true -> r = Ok (Sample.listing_of r).
Proof. destruct r; [reflexivity | discriminate]. Qed.

Lemma head_default_In {A : Type} (d : A) (l : list A) :
  match l with [] => false | _ :: _ => true end = true -> In (default d (head l)) l.
Proof. destruct l; [discriminate | left; reflexivity]. Qed.

Lemma is_Some_true {A : Type} (o : option A) :
  match o with Some _ => true | None => false end = true -> is_Some o.
Proof. destruct o; [eexists; reflexivity | discriminate]. Qed.

End SampleFacts.

(** ** Slug generation *)

Section SlugFacts.

Lemma toLowerChar_not_upper (c : ascii) : JS.isUpper (JS.toLowerChar c) = false.
Proof. destruct c as [[] [] [] [] [] [] [] []]; reflexivity. Qed.

Lemma lowered_not_upper (s : JS.chars) :
  Forall (fun c => JS.isUpper c = false) (JS.toLowerCase_chars s).
Proof.
  induction s as [|c s IH]; simpl; constructor; auto using toLowerChar_not_upper.
Qed.

Lemma Forall_dropWhile (P : ascii -> Prop) (p : ascii -> bool) (s : JS.chars) :
  Forall P s -> Forall P (JS.dropWhile p s).
Proof.
  induction 1 as [|c s Hc Hs IH]; simpl; [constructor|].
  destruct (p c); [exact IH | constructor; assumption].
Qed.

Lemma Forall_trim (P : ascii -> Prop) (s : JS.chars) :
  Forall P s -> Forall P (JS.trim_chars s).
Proof.
  intros H. unfold JS.trim_chars.
  apply List.Forall_rev, Forall_dropWhile, List.Forall_rev, Forall_dropWhile, H.
Qed.

(** On text without capitals, [/[^\w\s-]/] is the complement of
    [a-z0-9_], whitespace and the hyphen. *)
Lemma special_without_capitals (c : ascii) :
  JS.isUpper c = false -> special c = negb (Spec.slug_char_or_underscore c).
Proof.
  intros H. unfold special, Spec.slug_char_or_underscore, JS.isWord. rewrite H.
  destruct (JS.isLower c), (JS.isDigit c), (JS.isUnderscore c), (JS.isSpace c),
    (JS.isHyphen c); reflexivity.
Qed.

Lemma replace_class_g_filter (s : JS.chars) :
  Forall (fun c => JS.isUpper c = false) s ->
  JS.replace_class_g special s = List.filter Spec.slug_char_or_underscore s.
Proof.
  induction 1 as [|c s Hc Hs IH]; simpl; [reflexivity|].
  rewrite (special_without_capitals c Hc), IH.
  destruct (Spec.slug_char_or_underscore c); reflexivity.
Qed.

(** A run that starts at [c] ends in one hyphen, wherever it ends. *)
Lemma collapse_run (c : ascii) (s : JS.chars) :
  separator c = true ->
  Spec.collapse (c :: s) = (hyphen ++ Spec.collapse (JS.dropWhile separator s))%list.
Proof.
  revert c. induction s as [|c' s IH]; intros c Hc.
  - simpl. rewrite Hc. reflexivity.
  - change (Spec.collapse (c :: c' :: s))
      with (if separator c
            then (if separator c' then Spec.collapse (c' :: s)
                  else (hyphen ++ Spec.collapse (c' :: s))%list)
            else c :: Spec.collapse (c' :: s)).
    rewrite Hc. simpl JS.dropWhile.
    destruct (separator c') eqn:Hc'; [apply IH, Hc' | reflexivity].
Qed.

Lemma collapse_plain (c : ascii) (s : JS.chars) :
  separator c = false -> Spec.collapse (c :: s) = c :: Spec.collapse s.
Proof. intros Hc. simpl. rewrite Hc. reflexivity. Qed.

(** The greedy scan of [/[\s_-]+/g] writes the hyphen when a run starts,
    [Spec.collapse] when it ends: the same text. *)
Lemma replace_runs_from_collapse (s : JS.chars) :
  JS.replace_runs_from separator hyphen false s = Spec.collapse s
  /\ JS.replace_runs_from separator hyphen true s
     = Spec.collapse (JS.dropWhile separator s).
Proof.
  induction s as [|c s [IHf IHt]]; [split; reflexivity|].
  destruct (separator c) eqn:Hc.
  - split.
    + rewrite (collapse_run c s Hc). simpl JS.replace_runs_from.
      rewrite Hc, IHt. reflexivity.
    + simpl JS.replace_runs_from. simpl JS.dropWhile. rewrite Hc, IHt. reflexivity.
  - split.
    + rewrite (collapse_plain c s Hc). simpl JS.replace_runs_from.
      rewrite Hc, IHf. reflexivity.
    + simpl JS.dropWhile. rewrite Hc, (collapse_plain c s Hc).
      simpl JS.replace_runs_from. rewrite Hc, IHf. reflexivity.
Qed.

Lemma replace_runs_g_collapse (s : JS.chars) :
  JS.replace_runs_g separator hyphen s = Spec.collapse s.
Proof. apply replace_runs_from_collapse. Qed.

Lemma dropWhile_snoc (p : ascii -> bool) (s : JS.chars) (c : ascii) :
  JS.dropWhile p (s ++ [c])%list
  = if forallb p s then JS.dropWhile p [c] else (JS.dropWhile p s ++ [c])%list.
Proof.
  induction s as [|x s IH]; [reflexivity|].
  simpl. destruct (p x); [exact IH | reflexivity].
Qed.

Lemma forallb_rev (p : ascii -> bool) (s : JS.chars) : forallb p (rev s) = forallb p s.
Proof.
  induction s as [|x s IH]; [reflexivity|].
  simpl. rewrite forallb_app, IH. simpl. rewrite andb_true_r. apply andb_comm.
Qed.

Lemma replace_tail_run_all (p : ascii -> bool) (s : JS.chars) :
  forallb p s = true -> JS.replace_tail_run p s = [].
Proof.
  destruct s as [|c s]; [reflexivity|].
  simpl. intros H. rewrite H. reflexivity.
Qed.

(** [C+$] removes what [dropWhile] removes from the reversed text. *)
Lemma replace_tail_run_rev (p : ascii -> bool) (s : JS.chars) :
  JS.replace_tail_run p s = rev (JS.dropWhile p (rev s)).
Proof.
  induction s as [|c s IH]; [reflexivity|].
  simpl rev. rewrite dropWhile_snoc, forallb_rev.
  simpl JS.replace_tail_run.
  destruct (forallb p s) eqn:Hall.
  - rewrite andb_true_r. simpl. destruct (p c); [reflexivity|].
    rewrite (replace_tail_run_all p s Hall). reflexivity.
  - rewrite andb_false_r, rev_app_distr, <- IH. reflexivity.
Qed.

Lemma replace_edge_runs_g_strip (s : JS.chars) :
  JS.replace_edge_runs_g JS.isHyphen s = Spec.strip_hyphens s.
Proof.
  unfold Spec.strip_hyphens. rewrite <- replace_tail_run_rev.
  destruct s as [|c s]; [reflexivity|].
  unfold JS.replace_edge_runs_g. simpl JS.dropWhile.
  destruct (JS.isHyphen c); reflexivity.
Qed.

Lemma slug_pipeline_amended (text : JS.chars) :
  slug_pipeline text = Spec.slugify_with Spec.slug_char_or_underscore text.
Proof.
  unfold slug_pipeline, Spec.slugify_with.
  rewrite replace_edge_runs_g_strip, replace_runs_g_collapse, replace_class_g_filter;
    [reflexivity|].
  apply Forall_trim, lowered_not_upper.
Qed.

End SlugFacts.

(** C4, as stated, fails on an underscore: the specification's [slugify]
    strips it ("ab"), both generators turn it into a hyphen ("a-b"). *)
Lemma generateSlug_underscore_differs :
  Category.generateSlug "a_b" = "a-b"
  /\ News.generateSlug "a_b" = "a-b"
  /\ Spec.slugify "a_b" = "ab"
  /\ Category.generateSlug "a_b" <> Spec.slugify "a_b"
  /\ News.generateSlug "a_b" <> Spec.slugify_news "a_b".
Proof. vm_compute. repeat split; discriminate. Qed.

(** C4, amended: [generateSlug] lowercases, trims, strips all characters
    outside [a-z0-9_], whitespace and hyphen (the underscore survives this
    step), collapses runs of whitespace/underscore/hyphen into a single
    hyphen and strips leading/trailing hyphens; the News variant then keeps
    the first 500 characters, the Category variant does not truncate; the
    two examples of the specification evaluate as it says. *)
Theorem generateSlug_amended (text : string) :
  Category.generateSlug text = Spec.slugify_amended text
  /\ News.generateSlug text = Spec.slugify_news_amended text
  /\ News.generateSlug "Breaking Tech News!" = "breaking-tech-news"
  /\ News.generateSlug "  Multi   Space--Title " = "multi-space-title"
  /\ Category.generateSlug "Breaking Tech News!" = "breaking-tech-news"
  /\ Category.generateSlug "  Multi   Space--Title " = "multi-space-title".
Proof.
  split; [|split].
  - unfold Category.generateSlug, Spec.slugify_amended, JS.lift.
    rewrite slug_pipeline_amended. reflexivity.
  - unfold News.generateSlug, Spec.slugify_news_amended, JS.lift, JS.substring0_chars.
    rewrite slug_pipeline_amended. reflexivity.
  - vm_compute. repeat split.
Qed.

(** ** Authorization *)

Section AuthorizationFacts.

Lemma to_js_inj (a b : Sql.value) : Sql.to_js a = Sql.to_js b <-> a = b.
Proof. split; [|congruence]. destruct a, b; simpl; congruence. Qed.

Lemma to_js_text (a : Sql.value) (s : string) : Sql.to_js a = JS.Str s <-> a = Sql.Text s.
Proof. apply (to_js_inj a (Sql.Text s)). Qed.

(** The guard of the two news handlers is the negation of
    [Spec.may_modify]. *)
Lemma not_owner_nor_staff_true (u a : Sql.row) :
  not_owner_nor_staff u a = true <-> ~ Spec.may_modify u a.
Proof.
  unfold not_owner_nor_staff, Spec.may_modify.
  rewrite !andb_true_iff, !negb_true_iff, !bool_decide_eq_false.
  rewrite !to_js_text, to_js_inj. tauto.
Qed.

Lemma not_owner_nor_staff_false (u a : Sql.row) :
  not_owner_nor_staff u a = false <-> Spec.may_modify u a.
Proof.
  unfold not_owner_nor_staff, Spec.may_modify.
  rewrite !andb_false_iff, !negb_false_iff, !bool_decide_eq_true.
  rewrite !to_js_text, to_js_inj. tauto.
Qed.

(** Past the guard, [updateNews] answers 500, 400 or 200. *)
Lemma updateNews_past_guard (db : DB) (req : Request) (article : Sql.row) :
  News.findById db (JS.Num (params_id req)) = Some article ->
  not_owner_nor_staff (user req) article = false ->
  http_status (fst (NewsController.updateNews db req)) <> 403.
Proof.
  intros Hfind Hguard. unfold NewsController.updateNews. rewrite Hfind, Hguard.
  repeat (match goal with
          | |- context [match ?x with _ => _ end] => destruct x
          end; simpl; try discriminate).
Qed.

Lemma deleteNews_past_guard (db : DB) (req : Request) (article : Sql.row) :
  News.findById db (JS.Num (params_id req)) = Some article ->
  not_owner_nor_staff (user req) article = false ->
  http_status (fst (NewsController.deleteNews db req)) <> 403.
Proof.
  intros Hfind Hguard. unfold NewsController.deleteNews. rewrite Hfind, Hguard.
  repeat (match goal with
          | |- context [match ?x with _ => _ end] => destruct x
          end; simpl; try discriminate).
Qed.

End AuthorizationFacts.

(** A body whose status is none of the three is rejected, whatever the
    library makes of URIs and numeric text. *)
Lemma bogus_status_rejected (J : Validation.Joi) :
  Validation.validate J Validation.newsSchemas_update {["status" := JS.Str "bogus"]} = None.
Proof. vm_compute. reflexivity. Qed.

(** C1, as stated, fails through the PUT route: the body is validated
    before the handler runs, so Bob, who is neither staff nor the author of
    Alice's article, gets 400 for a body with an unknown status, not 403. *)
Lemma put_news_validation_precedes_ownership :
  is_Some (News.findById Sample.db (JS.Num 1))
  /\ ~ Spec.may_modify Sample.bob Sample.hello
  /\ (forall J : Validation.Joi,
        Routes.put_news J Sample.db
          (mkHttpRequest Sample.bob (JS.Num 1) {["status" := JS.Str "bogus"]})
        = (mkResponse 400 "Validation error" None, Sample.db))
  /\ (forall J : Validation.Joi,
        http_status (fst (Routes.put_news J Sample.db
          (mkHttpRequest Sample.bob (JS.Num 1) {["status" := JS.Str "bogus"]}))) <> 403).
Proof.
  assert (H : forall J : Validation.Joi,
            Routes.put_news J Sample.db
              (mkHttpRequest Sample.bob (JS.Num 1) {["status" := JS.Str "bogus"]})
            = (mkResponse 400 "Validation error" None, Sample.db)).
  { intros J. unfold Routes.put_news, Middleware.validateId, Middleware.validate.
    cbn [parsed_id json_body]. change (1 <? 1) with false. cbv iota.
    rewrite bogus_status_rejected. reflexivity. }
  split; [|split; [|split]].
  - apply is_Some_true. vm_compute. reflexivity.
  - intros [H'|[H'|H']]; vm_compute in H'; discriminate.
  - exact H.
  - intros J. rewrite H. simpl. discriminate.
Qed.

(** C1, amended: for every authenticated caller and every existing News
    article, the update and delete handlers get past the authorization
    check if and only if the caller's role is admin or editor, or the
    caller's id equals the article's author_id; in every other case they
    answer 403 and leave the store unchanged, whatever the body holds.
    Through the PUT route the body is validated first: such a caller gets
    403 for every body the schema accepts and 400 (validation error) for
    every body it rejects, the store unchanged in both cases and whatever
    the library makes of URIs and numeric text; the DELETE route answers
    403. *)
Theorem news_ownership_gate (db : DB) (me : Sql.row) (id : Z) (article : Sql.row) :
  News.findById db (JS.Num id) = Some article ->
  (forall b, Spec.may_modify me article
             <-> http_status (fst (NewsController.updateNews db (mkRequest me id b))) <> 403)
  /\ (forall b, Spec.may_modify me article
                <-> http_status (fst (NewsController.deleteNews db (mkRequest me id b))) <> 403)
  /\ (~ Spec.may_modify me article ->
      (forall b, NewsController.updateNews db (mkRequest me id b)
                 = (mkResponse 403 "Access denied - you can only edit your own articles" None,
                    db))
      /\ (forall b, NewsController.deleteNews db (mkRequest me id b)
                    = (mkResponse 403 "Access denied - you can only delete your own articles"
                                  None, db))
      /\ (forall (J : Validation.Joi) b, 1 <= id ->
            Routes.put_news J db (mkHttpRequest me (JS.Num id) b)
            = match Validation.validate J Validation.newsSchemas_update b with
              | Some _ =>
                  (mkResponse 403 "Access denied - you can only edit your own articles" None,
                   db)
              | None => (mkResponse 400 "Validation error" None, db)
              end)
      /\ (forall b, 1 <= id ->
            Routes.delete_news db (mkHttpRequest me (JS.Num id) b)
            = (mkResponse 403 "Access denied - you can only delete your own articles" None,
               db))).
Proof.
  intros Hfind.
  assert (Hupd : forall b, ~ Spec.may_modify me article ->
            NewsController.updateNews db (mkRequest me id b)
            = (mkResponse 403 "Access denied - you can only edit your own articles" None, db)).
  { intros b Hno. apply not_owner_nor_staff_true in Hno.
    unfold NewsController.updateNews. simpl. rewrite Hfind, Hno. reflexivity. }
  assert (Hdel : forall b, ~ Spec.may_modify me article ->
            NewsController.deleteNews db (mkRequest me id b)
            = (mkResponse 403 "Access denied - you can only delete your own articles" None,
               db)).
  { intros b Hno. apply not_owner_nor_staff_true in Hno.
    unfold NewsController.deleteNews. simpl. rewrite Hfind, Hno. reflexivity. }
  split; [|split].
  - intros b. split.
    + intros Hmay. apply (updateNews_past_guard db _ article); [exact Hfind|].
      apply not_owner_nor_staff_false, Hmay.
    + intros Hcode. destruct (not_owner_nor_staff me article) eqn:Hguard.
      * exfalso. apply Hcode. apply not_owner_nor_staff_true in Hguard.
        rewrite (Hupd b Hguard). reflexivity.
      * apply not_owner_nor_staff_false, Hguard.
  - intros b. split.
    + intros Hmay. apply (deleteNews_past_guard db _ article); [exact Hfind|].
      apply not_owner_nor_staff_false, Hmay.
    + intros Hcode. destruct (not_owner_nor_staff me article) eqn:Hguard.
      * exfalso. apply Hcode. apply not_owner_nor_staff_true in Hguard.
        rewrite (Hdel b Hguard). reflexivity.
      * apply not_owner_nor_staff_false, Hguard.
  - intros Hno. split; [|split; [|split]].
    + intros b. apply Hupd, Hno.
    + intros b. apply Hdel, Hno.
    + intros J b Hid. unfold Routes.put_news, Middleware.validateId, Middleware.validate.
      simpl. destruct (id <? 1) eqn:Hlt; [apply Z.ltb_lt in Hlt; lia|].
      destruct (Validation.validate J Validation.newsSchemas_update b) as [value|];
        [apply Hupd, Hno | reflexivity].
    + intros b Hid. unfold Routes.delete_news, Middleware.validateId.
      simpl. destruct (id <? 1) eqn:Hlt; [apply Z.ltb_lt in Hlt; lia|].
      apply Hdel, Hno.
Qed.

(** Bob against Alice's article: 403 from both handlers, whatever he sends. *)
Lemma news_ownership_gate_witness :
  NewsController.updateNews Sample.db
    (mkRequest Sample.bob 1 {["title" := JS.Str "Mine now"]})
  = (mkResponse 403 "Access denied - you can only edit your own articles" None, Sample.db).
Proof.
  refine (proj1 (proj2 (proj2
    (news_ownership_gate Sample.db Sample.bob 1
       (default ∅ (News.findById Sample.db (JS.Num 1))) _)) _) _).
  - apply default_Some. vm_compute. reflexivity.
  - intros [H|[H|H]]; vm_compute in H; discriminate.
Defined.

(** ** Self-protection *)

(** X4: through the delete and the toggle-status handler a caller who
    names the own user id is turned down and nothing is written: the
    handlers answer 400, and through the two routes a caller who is not
    admin is stopped with 403 before that. *)
Theorem self_protection (db : DB) (me : Sql.row) (id : Z) (b : gmap string JS.value) :
  Sql.col me "id" = Sql.Int id ->
  UserController.deleteUser db (mkRequest me id b)
  = (mkResponse 400 "You cannot delete your own account" None, db)
  /\ UserController.toggleUserStatus db (mkRequest me id b)
     = (mkResponse 400 "You cannot change your own status" None, db)
  /\ Spec.rejected (fst (Routes.delete_user db (mkHttpRequest me (JS.Num id) b)))
  /\ snd (Routes.delete_user db (mkHttpRequest me (JS.Num id) b)) = db
  /\ Spec.rejected (fst (Routes.toggle_user_status db (mkHttpRequest me (JS.Num id) b)))
  /\ snd (Routes.toggle_user_status db (mkHttpRequest me (JS.Num id) b)) = db.
Proof.
  intros Hme.
  assert (Hdel : UserController.deleteUser db (mkRequest me id b)
                 = (mkResponse 400 "You cannot delete your own account" None, db)).
  { unfold UserController.deleteUser, parseInt_number. simpl. rewrite Hme. simpl.
    rewrite bool_decide_eq_true_2 by reflexivity. reflexivity. }
  assert (Htog : UserController.toggleUserStatus db (mkRequest me id b)
                 = (mkResponse 400 "You cannot change your own status" None, db)).
  { unfold UserController.toggleUserStatus, parseInt_number. simpl. rewrite Hme. simpl.
    rewrite bool_decide_eq_true_2 by reflexivity. reflexivity. }
  split; [exact Hdel|]. split; [exact Htog|].
  unfold Routes.delete_user, Routes.toggle_user_status, Middleware.validateId, Spec.rejected.
  simpl parsed_id. simpl caller. simpl json_body.
  destruct (Middleware.authorize ["admin"] (mkHttpRequest me (JS.Num id) b)) as [res|] eqn:Hauth.
  - unfold Middleware.authorize in Hauth.
    destruct (bool_decide _) in Hauth; [discriminate|].
    injection Hauth as <-. simpl. auto.
  - destruct (id <? 1); simpl; [auto|].
    rewrite Hdel, Htog. simpl. auto 10.
Qed.

(** The admin of the sample asks to delete the own account. *)
Lemma self_protection_witness :
  UserController.deleteUser Sample.db (mkRequest Sample.root 1 ∅)
  = (mkResponse 400 "You cannot delete your own account" None, Sample.db).
Proof.
  refine (proj1 (self_protection Sample.db Sample.root 1 ∅ _)).
  vm_compute. reflexivity.
Defined.

(** ** Updates *)

Section UpdateFacts.

Lemma col_insert (k c : string) (v : Sql.value) (r : Sql.row) :
  Sql.col (<[k := v]> r) c = if decide (k = c) then v else Sql.col r c.
Proof. unfold Sql.col. rewrite lookup_insert. case_decide; reflexivity. Qed.

Lemma col_assign (s : gmap string Sql.value) (r : Sql.row) (c : string) :
  Sql.col (assign s r) c = match s !! c with Some v => v | None => Sql.col r c end.
Proof.
  unfold Sql.col, assign. rewrite lookup_union.
  destruct (s !! c), (r !! c); reflexivity.
Qed.

Lemma set_clause_lookup (allowed : list string) (data : gmap string JS.value) (c : string) :
  set_clause allowed data !! c
  = if bool_decide (c ∈ allowed) then Sql.bind <$> data !! c else None.
Proof.
  unfold set_clause. rewrite lookup_fmap, map_lookup_filter.
  destruct (data !! c) as [v|]; simpl; [|case_bool_decide; reflexivity].
  case_bool_decide.
  - rewrite option_guard_True by assumption. reflexivity.
  - rewrite option_guard_False by assumption. reflexivity.
Qed.

Lemma set_clause_filter (allowed : list string) (data : gmap string JS.value) :
  set_clause allowed (filter (fun kv : string * JS.value => fst kv ∈ allowed) data)
  = set_clause allowed data.
Proof.
  apply map_eq. intros c. rewrite !set_clause_lookup.
  case_bool_decide as Hc; [|reflexivity].
  rewrite map_lookup_filter. destruct (data !! c) as [v|]; simpl; [|reflexivity].
  rewrite option_guard_True by exact Hc. reflexivity.
Qed.

Lemma set_clause_empty (allowed : list string) (data : gmap string JS.value) :
  (forall k, k ∈ allowed -> data !! k = None) -> set_clause allowed data = ∅.
Proof.
  intros H. apply map_eq. intros c. rewrite set_clause_lookup, lookup_empty.
  case_bool_decide as Hc; [|reflexivity]. rewrite (H c Hc). reflexivity.
Qed.

Lemma get_filter (allowed : list string) (data : gmap string JS.value) (k : string) :
  k ∈ allowed ->
  JS.get (filter (fun kv : string * JS.value => fst kv ∈ allowed) data) k = JS.get data k.
Proof.
  intros Hk. unfold JS.get. rewrite map_lookup_filter.
  destruct (data !! k) as [v|]; simpl; [|reflexivity].
  rewrite option_guard_True by exact Hk. reflexivity.
Qed.

Lemma column_update_where (c : string) (p : Sql.row -> bool) (set : Sql.row -> Sql.row)
      (t : list Sql.row) :
  (forall r, Sql.col (set r) c = Sql.col r c) ->
  Constraint.column c (update_where p set t) = Constraint.column c t.
Proof.
  intros Hset. unfold Constraint.column, update_where. rewrite map_map.
  apply map_ext. intros r. destruct (p r); [apply Hset | reflexivity].
Qed.

Lemma In_update_where (p : Sql.row -> bool) (set : Sql.row -> Sql.row)
      (t : list Sql.row) (r' : Sql.row) :
  In r' (update_where p set t)
  <-> exists r, In r t /\ r' = if p r then set r else r.
Proof.
  unfold update_where. rewrite in_map_iff. split; intros [r [H1 H2]]; exists r; auto.
Qed.

Lemma commit_Ok (db1 db' : DB) (r r' : RunResult) :
  commit db1 r = Ok (db', r') -> db' = db1 /\ r' = r /\ Constraint.consistent db' = true.
Proof.
  unfold commit. destruct (Constraint.consistent db1) eqn:H; [|discriminate].
  intros [= <- <-]. auto.
Qed.

(** What a successful update leaves behind, per model. *)
Lemma User_updateById_Ok db id data db' r :
  User.updateById db id data = Ok (db', r) ->
  db' = with_users
          (update_where (where_id id) (User.set_row db data) (users db)) db
  /\ r = User.findById db' id
  /\ Constraint.consistent db' = true.
Proof.
  unfold User.updateById. case_bool_decide; [discriminate|].
  destruct (commit _ _) as [[db1 r1]|e] eqn:Hc; simpl; [|discriminate].
  intros [= <- <-]. apply commit_Ok in Hc as (-> & _ & Hok). auto.
Qed.

Lemma Category_updateById_Ok db id data db' r :
  Category.updateById db id data = Ok (db', r) ->
  db' = with_categories
          (update_where (where_id id) (Category.set_row db data) (categories db)) db
  /\ r = Category.findById db' id
  /\ Constraint.consistent db' = true.
Proof.
  unfold Category.updateById. case_bool_decide; [discriminate|].
  destruct (commit _ _) as [[db1 r1]|e] eqn:Hc; simpl; [|discriminate].
  intros [= <- <-]. apply commit_Ok in Hc as (-> & _ & Hok). auto.
Qed.

Lemma News_updateById_Ok db id data db' r :
  News.updateById db id data = Ok (db', r) ->
  db' = with_news
          (update_where (where_id id) (News.set_row db data) (news db)) db
  /\ r = News.findById db' id
  /\ Constraint.consistent db' = true.
Proof.
  unfold News.updateById. case_bool_decide; [discriminate|].
  destruct (commit _ _) as [[db1 r1]|e] eqn:Hc; simpl; [|discriminate].
  intros [= <- <-]. apply commit_Ok in Hc as (-> & _ & Hok). auto.
Qed.

Lemma published_at_clause_lookup db data c :
  c <> "published_at" -> News.published_at_clause db data !! c = None.
Proof.
  intros Hc. unfold News.published_at_clause.
  repeat case_match; rewrite ?lookup_singleton_ne, ?lookup_empty by congruence; reflexivity.
Qed.

Lemma published_at_clause_filter db data :
  News.published_at_clause db
    (filter (fun kv : string * JS.value => fst kv ∈ News.allowedFields) data)
  = News.published_at_clause db data.
Proof.
  unfold News.published_at_clause. rewrite get_filter; [reflexivity|].
  unfold News.allowedFields. set_solver.
Qed.

(** A column that is neither assigned nor stamped keeps its value. *)
Lemma col_set_frame (allowed : list string) (data : gmap string JS.value)
      (extra : gmap string Sql.value) (stamp : Sql.value) (r : Sql.row) (c : string) :
  c ∉ allowed -> extra !! c = None -> c <> "updated_at" ->
  Sql.col (<["updated_at" := stamp]> (assign extra (assign (set_clause allowed data) r))) c
  = Sql.col r c.
Proof.
  intros Hc He Hu. rewrite col_insert. case_decide; [congruence|].
  rewrite col_assign, He, col_assign, set_clause_lookup.
  rewrite bool_decide_eq_false_2 by exact Hc. reflexivity.
Qed.

Lemma col_stamp_frame (allowed : list string) (data : gmap string JS.value)
      (stamp : Sql.value) (r : Sql.row) (c : string) :
  c ∉ allowed -> c <> "updated_at" ->
  Sql.col (<["updated_at" := stamp]> (assign (set_clause allowed data) r)) c = Sql.col r c.
Proof.
  intros Hc Hu. rewrite col_insert. case_decide; [congruence|].
  rewrite col_assign, set_clause_lookup.
  rewrite bool_decide_eq_false_2 by exact Hc. reflexivity.
Qed.

End UpdateFacts.

(** C7: for each entity, [updateById] mutates only through its fixed
    allow-list: the fields of the payload outside the list have no effect
    on the outcome; when no listed field is present the call fails with the
    no-fields error (an error carries no store: nothing was written); and
    after a successful call every column outside the list, other than the
    timestamps the operation stamps itself, holds what it held, for every
    row.  In particular the id of all three entities and the password of a
    user never change, for any payload. *)
Theorem updateById_allow_list :
  Spec.allow_list_update User.allowedFields ["updated_at"] users User.updateById
  /\ Spec.allow_list_update Category.allowedFields ["updated_at"] categories
       Category.updateById
  /\ Spec.allow_list_update News.allowedFields ["published_at"; "updated_at"] news
       News.updateById
  /\ (forall db id updateData db' r,
        User.updateById db id updateData = Ok (db', r) ->
        Constraint.column "id" (users db') = Constraint.column "id" (users db)
        /\ Constraint.column "password" (users db') = Constraint.column "password" (users db))
  /\ (forall db id updateData db' r,
        Category.updateById db id updateData = Ok (db', r) ->
        Constraint.column "id" (categories db') = Constraint.column "id" (categories db))
  /\ (forall db id updateData db' r,
        News.updateById db id updateData = Ok (db', r) ->
        Constraint.column "id" (news db') = Constraint.column "id" (news db)).
Proof.
  assert (HU : Spec.allow_list_update User.allowedFields ["updated_at"] users User.updateById).
  { intros db id data. split; [|split].
    - unfold User.updateById, User.set_row. rewrite set_clause_filter. reflexivity.
    - intros Hnone. unfold User.updateById. rewrite (set_clause_empty _ _ Hnone).
      rewrite bool_decide_eq_true_2 by reflexivity. reflexivity.
    - intros db' r Hok c Hc Hs. apply User_updateById_Ok in Hok as (-> & _ & _).
      simpl. apply column_update_where. intros u.
      apply (col_stamp_frame User.allowedFields data _ u c Hc). set_solver. }
  assert (HC : Spec.allow_list_update Category.allowedFields ["updated_at"] categories
                 Category.updateById).
  { intros db id data. split; [|split].
    - unfold Category.updateById, Category.set_row. rewrite set_clause_filter. reflexivity.
    - intros Hnone. unfold Category.updateById. rewrite (set_clause_empty _ _ Hnone).
      rewrite bool_decide_eq_true_2 by reflexivity. reflexivity.
    - intros db' r Hok c Hc Hs. apply Category_updateById_Ok in Hok as (-> & _ & _).
      simpl. apply column_update_where. intros u.
      apply (col_stamp_frame Category.allowedFields data _ u c Hc). set_solver. }
  assert (HN : Spec.allow_list_update News.allowedFields ["published_at"; "updated_at"] news
                 News.updateById).
  { intros db id data. split; [|split].
    - unfold News.updateById, News.set_row.
      rewrite set_clause_filter, published_at_clause_filter. reflexivity.
    - intros Hnone. unfold News.updateById. rewrite (set_clause_empty _ _ Hnone).
      rewrite bool_decide_eq_true_2 by reflexivity. reflexivity.
    - intros db' r Hok c Hc Hs. apply News_updateById_Ok in Hok as (-> & _ & _).
      simpl. apply column_update_where. intros u.
      apply (col_set_frame News.allowedFields data _ _ u c Hc).
      + apply published_at_clause_lookup. set_solver.
      + set_solver. }
  split; [exact HU|]. split; [exact HC|]. split; [exact HN|].
  split; [|split].
  - intros db id data db' r Hok. destruct (HU db id data) as (_ & _ & Hframe).
    split; apply (Hframe db' r Hok); not_in_list.
  - intros db id data db' r Hok. destruct (HC db id data) as (_ & _ & Hframe).
    apply (Hframe db' r Hok); not_in_list.
  - intros db id data db' r Hok. destruct (HN db id data) as (_ & _ & Hframe).
    apply (Hframe db' r Hok); not_in_list.
Qed.

(** The sample gains an editor; the password and the id in the payload are
    dropped. *)
Lemma updateById_allow_list_witness :
  Constraint.column "password"
    (users (Sample.after Sample.db (User.updateById Sample.db (JS.Num 2) Sample.promote)))
  = Constraint.column "password" (users Sample.db).
Proof.
  refine (proj2 (proj1 (proj2 (proj2 (proj2 updateById_allow_list)))
            Sample.db (JS.Num 2) Sample.promote _
            (Sample.returned (User.updateById Sample.db (JS.Num 2) Sample.promote)) _)).
  vm_compute. reflexivity.
Defined.

(** ** Joins and reads *)

Section JoinFacts.

Lemma In_left_join {A B : Type} (on : A -> B -> bool) (a : list A) (b : list B)
      (x : A) (o : option B) :
  In (x, o) (Sql.left_join on a b) -> In x a.
Proof.
  unfold Sql.left_join, Sql.join_row. rewrite in_flat_map. intros [y [Hy Hin]].
  destruct (List.filter (on y) b) as [|m ms].
  - destruct Hin as [[= <- _]|[]]. exact Hy.
  - apply in_map_iff in Hin as [z [[= <- _] _]]. exact Hy.
Qed.

Lemma left_join_complete {A B : Type} (on : A -> B -> bool) (a : list A) (b : list B)
      (x : A) :
  In x a -> exists o, In (x, o) (Sql.left_join on a b).
Proof.
  intros Hx. unfold Sql.left_join.
  destruct (List.filter (on x) b) as [|m ms] eqn:Hf.
  - exists None. apply in_flat_map. exists x. unfold Sql.join_row. rewrite Hf.
    split; [exact Hx | left; reflexivity].
  - exists (Some m). apply in_flat_map. exists x. unfold Sql.join_row. rewrite Hf.
    split; [exact Hx | left; reflexivity].
Qed.

Lemma In_joined_news (db : DB) (j : News.joined_row) :
  In j (News.joined db) -> In (fst (fst j)) (news db).
Proof.
  destruct j as [[n c] u]. unfold News.joined. intros H.
  apply In_left_join in H. apply In_left_join in H. exact H.
Qed.

Lemma joined_news_complete (db : DB) (n : Sql.row) :
  In n (news db) -> exists j, In j (News.joined db) /\ fst (fst j) = n.
Proof.
  intros Hn. unfold News.joined.
  destruct (left_join_complete
              (fun n c => Sql.eqb (Sql.col n "category_id") (Sql.col c "id"))
              (news db) (categories db) n Hn) as [c Hc].
  destruct (left_join_complete
              (fun nc u => Sql.eqb (Sql.col (fst nc) "author_id") (Sql.col u "id"))
              _ (users db) (n, c) Hc) as [u Hu].
  exists ((n, c), u). split; [exact Hu | reflexivity].
Qed.

(** [n.c] reads the news side of a joined row. *)
Lemma read_news_column (j : News.joined_row) (c : string) :
  c ∈ Schema.news ->
  Query.read News.join_scope (News.join_env j) (Query.Qualified "n" c)
  = Sql.col (fst (fst j)) c.
Proof.
  intros Hc. unfold Schema.news in Hc.
  repeat (apply elem_of_cons in Hc as [->|Hc]; [reflexivity|]).
  apply elem_of_nil in Hc. contradiction.
Qed.

Lemma where_news_id (id : JS.value) (j : News.joined_row) :
  Query.where_ News.join_scope
    [Query.Equals (Query.Qualified "n" "id") (Sql.bind id)] (News.join_env j)
  = where_id id (fst (fst j)).
Proof.
  unfold Query.where_, Query.holds, where_id. simpl forallb.
  rewrite read_news_column by compute_done.
  apply andb_true_r.
Qed.

Lemma col_select_as (sc : Sql.scope) (e : Query.env)
      (cols : list (string * Query.colref)) (c : string) (ref : Query.colref) :
  NoDup (map fst cols) -> (c, ref) ∈ cols ->
  Sql.col (select_as sc e cols) c = Query.read sc e ref.
Proof.
  intros Hnd Hin. unfold Sql.col, select_as.
  erewrite (elem_of_list_to_map_1 _ c (Query.read sc e ref)); [reflexivity| |].
  - rewrite <- list_fmap_compose. exact Hnd.
  - apply (list_elem_of_fmap_2 (fun c0 => (fst c0, Query.read sc e (snd c0))) _ _ Hin).
Qed.

Lemma detail_columns_NoDup : NoDup (map fst News.detail_columns).
Proof. compute_done. Qed.

(** The row [findById] hands back shows a stored row with that id. *)
Lemma News_findById_stored (db : DB) (id : JS.value) (x : Sql.row) :
  News.findById db id = Some x ->
  exists n, In n (news db) /\ where_id id n = true
            /\ Sql.col x "published_at" = Sql.col n "published_at"
            /\ Sql.col x "slug" = Sql.col n "slug".
Proof.
  unfold News.findById. intros H.
  apply head_Some_elem_of, list_elem_of_In, in_map_iff in H as [j [<- Hj]].
  apply filter_In in Hj as [Hj Hid]. rewrite where_news_id in Hid.
  exists (fst (fst j)). split; [apply In_joined_news, Hj|]. split; [exact Hid|].
  split.
  - rewrite (col_select_as _ _ _ "published_at" (Query.Qualified "n" "published_at")
               detail_columns_NoDup) by compute_done.
    apply read_news_column. compute_done.
  - rewrite (col_select_as _ _ _ "slug" (Query.Qualified "n" "slug")
               detail_columns_NoDup) by compute_done.
    apply read_news_column. compute_done.
Qed.

Lemma News_findById_complete (db : DB) (id : JS.value) :
  Spec.exists_in id (news db) -> is_Some (News.findById db id).
Proof.
  intros [n [Hn Hid]]. destruct (joined_news_complete db n Hn) as [j [Hj Hfst]].
  unfold News.findById.
  destruct (List.filter _ (News.joined db)) as [|j0 js] eqn:Hf.
  - exfalso. assert (Hin : In j []); [|destruct Hin].
    rewrite <- Hf. apply filter_In. split; [exact Hj|].
    rewrite where_news_id, Hfst. exact Hid.
  - simpl. eexists. reflexivity.
Qed.

End JoinFacts.

(** ** Status and published_at *)

Section PublishedAtFacts.

Lemma eqb_true (a b : Sql.value) : Sql.eqb a b = true -> a = b.
Proof.
  unfold Sql.eqb. rewrite !andb_true_iff, bool_decide_eq_true. tauto.
Qed.

Lemma updated_rows (id : JS.value) (set : Sql.row -> Sql.row) (t : list Sql.row)
      (n' : Sql.row) :
  In n' (update_where (where_id id) set t) -> where_id id n' = true ->
  exists n, In n t /\ where_id id n = true /\ n' = set n.
Proof.
  intros Hin Hid. apply In_update_where in Hin as [n [Hn ->]].
  destruct (where_id id n) eqn:Hw; [|congruence].
  exists n. auto.
Qed.

Lemma updated_rows_exist (id : JS.value) (set : Sql.row -> Sql.row) (t : list Sql.row) :
  (forall r, Sql.col (set r) "id" = Sql.col r "id") ->
  Spec.exists_in id t -> Spec.exists_in id (update_where (where_id id) set t).
Proof.
  intros Hset [n [Hn Hid]]. exists (set n). split.
  - apply In_update_where. exists n. rewrite Hid. auto.
  - unfold where_id in *. rewrite Hset. exact Hid.
Qed.

Lemma News_set_row_id db data n : Sql.col (News.set_row db data n) "id" = Sql.col n "id".
Proof.
  apply col_set_frame; [not_in_list | | discriminate].
  apply published_at_clause_lookup. discriminate.
Qed.

Lemma News_set_row_published_at db data n :
  Sql.col (News.set_row db data n) "published_at"
  = match News.published_at_clause db data !! "published_at" with
    | Some v => v
    | None => Sql.col n "published_at"
    end.
Proof.
  unfold News.set_row. rewrite col_insert. case_decide; [discriminate|].
  rewrite col_assign. destruct (News.published_at_clause db data !! "published_at");
    [reflexivity|].
  rewrite col_assign, set_clause_lookup. reflexivity.
Qed.

Lemma News_set_row_slug db data n (s : JS.value) :
  data !! "slug" = Some s ->
  Sql.col (News.set_row db data n) "slug" = Sql.bind s.
Proof.
  intros Hs. unfold News.set_row. rewrite col_insert. case_decide; [discriminate|].
  rewrite col_assign, published_at_clause_lookup by discriminate.
  rewrite col_assign, set_clause_lookup, Hs. reflexivity.
Qed.

(** After a successful update every stored row of the article and the
    row handed back carry the published_at the update computed. *)
Lemma published_at_after_update db id data db' r (v : Sql.value) :
  News.updateById db id data = Ok (db', r) ->
  News.published_at_clause db data !! "published_at" = Some v ->
  Spec.published_at_is v id db' r.
Proof.
  intros Hok Hclause. apply News_updateById_Ok in Hok as (-> & -> & _).
  assert (Hstored : forall n', In n' (news (with_news
                       (update_where (where_id id) (News.set_row db data) (news db)) db)) ->
                     where_id id n' = true -> Sql.col n' "published_at" = v).
  { simpl. intros n' Hin Hid.
    apply updated_rows in Hin as [n [_ [_ ->]]]; [|exact Hid].
    rewrite News_set_row_published_at, Hclause. reflexivity. }
  split; [exact Hstored|].
  intros x Hx. apply News_findById_stored in Hx as (n' & Hin & Hid & Hpub & _).
  rewrite Hpub. apply Hstored; assumption.
Qed.

End PublishedAtFacts.

(** C3: after a successful update of an existing News article the updated
    row is handed back, and: a payload whose status is 'published' leaves
    published_at at the current timestamp, which is not null; a payload
    whose status is any other non-empty value ('draft', 'archived') leaves
    it null; a payload without a status field leaves it as it was. *)
Theorem published_at_follows_status (db : DB) (id : JS.value)
        (updateData : gmap string JS.value) (db' : DB) (r : option Sql.row) :
  News.updateById db id updateData = Ok (db', r) ->
  (Spec.exists_in id (news db) -> Spec.exists_in id (news db') /\ is_Some r)
  /\ (JS.get updateData "status" = JS.Str "published" ->
      Spec.published_at_is (Sql.Text (now db)) id db' r
      /\ Sql.Text (now db) <> Sql.Null)
  /\ (forall s, JS.get updateData "status" = JS.Str s -> s <> "" -> s <> "published" ->
      Spec.published_at_is Sql.Null id db' r)
  /\ (JS.get updateData "status" = JS.Str "draft"
      \/ JS.get updateData "status" = JS.Str "archived" ->
      Spec.published_at_is Sql.Null id db' r)
  /\ (updateData !! "status" = None ->
      Constraint.column "published_at" (news db') = Constraint.column "published_at" (news db)
      /\ (forall x, r = Some x ->
            exists n, In n (news db) /\ where_id id n = true
                      /\ Sql.col x "published_at" = Sql.col n "published_at")).
Proof.
  intros Hok.
  assert (Hother : forall s, JS.get updateData "status" = JS.Str s -> s <> "" ->
                     s <> "published" -> Spec.published_at_is Sql.Null id db' r).
  { intros s Hs Hne Hnp. apply (published_at_after_update db id updateData db' r _ Hok).
    unfold News.published_at_clause. rewrite Hs.
    rewrite bool_decide_eq_false_2 by congruence. simpl.
    apply String.eqb_neq in Hne. rewrite Hne. simpl. apply lookup_singleton_eq. }
  split; [|split; [|split; [|split]]].
  - intros Hex. pose proof Hok as Hinv.
    apply News_updateById_Ok in Hinv as (-> & -> & _).
    assert (Hex' : Spec.exists_in id (news (with_news
                     (update_where (where_id id) (News.set_row db updateData) (news db)) db))).
    { simpl. apply updated_rows_exist; [apply News_set_row_id | exact Hex]. }
    split; [exact Hex' | apply News_findById_complete, Hex'].
  - intros Hs. split; [|discriminate].
    apply (published_at_after_update db id updateData db' r _ Hok).
    unfold News.published_at_clause. rewrite Hs.
    rewrite bool_decide_eq_true_2 by reflexivity. apply lookup_singleton_eq.
  - exact Hother.
  - intros [Hs|Hs]; apply (Hother _ Hs); discriminate.
  - intros Hnone. pose proof Hok as Hinv.
    apply News_updateById_Ok in Hinv as (-> & -> & _).
    assert (Hclause : News.published_at_clause db updateData !! "published_at" = None).
    { unfold News.published_at_clause, JS.get. rewrite Hnone.
      rewrite bool_decide_eq_false_2 by discriminate. simpl. apply lookup_empty. }
    split.
    + simpl. apply column_update_where. intros n.
      change (Sql.col (News.set_row db updateData n) "published_at" = Sql.col n "published_at").
      rewrite News_set_row_published_at, Hclause. reflexivity.
    + intros x Hx. apply News_findById_stored in Hx as (n' & Hin & Hid & Hpub & _).
      simpl in Hin. apply updated_rows in Hin as [n [Hn [Hnid ->]]]; [|exact Hid].
      exists n. split; [exact Hn|]. split; [exact Hnid|].
      rewrite Hpub.
      change (Sql.col (News.set_row db updateData n) "published_at" = Sql.col n "published_at").
      rewrite News_set_row_published_at, Hclause. reflexivity.
Qed.

(** Alice's draft is published. *)
Lemma published_at_follows_status_witness :
  Spec.published_at_is (Sql.Text (now Sample.db)) (JS.Num 1)
    (Sample.after Sample.db (News.updateById Sample.db (JS.Num 1) Sample.publish))
    (Sample.returned (News.updateById Sample.db (JS.Num 1) Sample.publish)).
Proof.
  refine (proj1 (proj1 (proj2 (published_at_follows_status
            Sample.db (JS.Num 1) Sample.publish _ _ _)) _)).
  - vm_compute. reflexivity.
  - vm_compute. reflexivity.
Defined.

(** ** Creation *)

Section CreateFacts.

Lemma fold_max_ge (s z : Z) (l : list Z) : In z l -> z <= fold_right Z.max s l.
Proof.
  induction l as [|y l IH]; simpl; [intros []|].
  intros [->|H]; [lia | specialize (IH H); lia].
Qed.

(** An AUTOINCREMENT id is above every id the table holds. *)
Lemma fresh_id_above (seq : Z) (t : list Sql.row) (n : Sql.row) (z : Z) :
  In n t -> Sql.col n "id" = Sql.Int z -> z < fresh_id seq t.
Proof.
  intros Hn Hz. unfold fresh_id.
  assert (z <= fold_right Z.max seq
            (map (fun v => match v with Sql.Int z0 => z0 | _ => 0 end)
                 (Constraint.column "id" t))); [|lia].
  apply fold_max_ge. apply in_map_iff. exists (Sql.Int z). split; [reflexivity|].
  unfold Constraint.column. apply in_map_iff. exists n. auto.
Qed.

Lemma News_create_Ok db newsData db' r :
  News.create db newsData = Ok (db', r) ->
  exists finalSlug,
    let id := fresh_id (seq_news db) (news db) in
    let row :=
      News.inserted_row db id (JS.get newsData "title") (JS.get newsData "content")
        (JS.get newsData "summary") finalSlug (JS.get newsData "featured_image")
        (JS.get_default newsData "status" (JS.Str "draft"))
        (JS.get newsData "category_id") (JS.get newsData "author_id") in
    news db' = (news db ++ [row])%list
    /\ r = News.findById db' (JS.Num id).
Proof.
  unfold News.create.
  destruct (if JS.truthy (JS.get newsData "slug") then _ else _) as [finalSlug|e];
    simpl; [|discriminate].
  destruct (commit _ _) as [[db1 r1]|e] eqn:Hc; simpl; [|discriminate].
  intros [= <- <-]. apply commit_Ok in Hc as (-> & -> & _).
  exists finalSlug. simpl. auto.
Qed.

Lemma inserted_row_columns db id title content summary slug image status cat author :
  let row := News.inserted_row db id title content summary slug image status cat author in
  Sql.col row "id" = Sql.Int id
  /\ Sql.col row "published_at" = Sql.Null
  /\ Sql.col row "status" = Sql.bind status.
Proof. repeat split. Qed.

End CreateFacts.

(** C9: whatever the input, [News.create] leaves published_at null in the
    row it stores and in the row it hands back: the stored rows are the
    old ones and one more, whose status is the one asked for ('draft' when
    none is given) and whose published_at is null, also when that status
    is 'published'; the published_at of the older rows is untouched. *)
Theorem create_never_stamps_published_at (db : DB) (newsData : gmap string JS.value)
        (db' : DB) (r : option Sql.row) :
  News.create db newsData = Ok (db', r) ->
  Constraint.column "published_at" (news db')
  = (Constraint.column "published_at" (news db) ++ [Sql.Null])%list
  /\ Constraint.column "status" (news db')
     = (Constraint.column "status" (news db)
        ++ [Sql.bind (JS.get_default newsData "status" (JS.Str "draft"))])%list
  /\ (exists x, r = Some x /\ Sql.col x "published_at" = Sql.Null).
Proof.
  intros Hok. apply News_create_Ok in Hok as [finalSlug [Hnews ->]].
  set (id := fresh_id (seq_news db) (news db)) in *.
  set (row := News.inserted_row db id _ _ _ _ _ _ _ _) in *.
  destruct (inserted_row_columns db id (JS.get newsData "title") (JS.get newsData "content")
              (JS.get newsData "summary") finalSlug (JS.get newsData "featured_image")
              (JS.get_default newsData "status" (JS.Str "draft"))
              (JS.get newsData "category_id") (JS.get newsData "author_id"))
    as (Hid & Hpub & Hstatus).
  fold row in Hid, Hpub, Hstatus.
  split; [|split].
  - unfold Constraint.column. rewrite Hnews, map_app. simpl. rewrite Hpub. reflexivity.
  - unfold Constraint.column. rewrite Hnews, map_app. simpl. rewrite Hstatus. reflexivity.
  - assert (Hex : Spec.exists_in (JS.Num id) (news db')).
    { exists row. split; [rewrite Hnews; apply in_or_app; right; left; reflexivity|].
      unfold where_id, Sql.eqb. rewrite Hid. simpl.
      apply bool_decide_eq_true_2. reflexivity. }
    destruct (News_findById_complete db' (JS.Num id) Hex) as [x Hx].
    exists x. split; [exact Hx|].
    apply News_findById_stored in Hx as (n & Hn & Hnid & Hxpub & _).
    rewrite Hxpub. rewrite Hnews in Hn. apply in_app_or in Hn as [Hold|[<-|[]]].
    + exfalso. apply eqb_true in Hnid. simpl in Hnid.
      pose proof (fresh_id_above (seq_news db) (news db) n id Hold Hnid). fold id in H. lia.
    + exact Hpub.
Qed.

(** Bob files a scoop as published: the row comes back with published_at
    null. *)
Lemma create_never_stamps_published_at_witness :
  exists x, Sample.returned (News.create Sample.db Sample.scoop) = Some x
            /\ Sql.col x "published_at" = Sql.Null.
Proof.
  refine (proj2 (proj2 (create_never_stamps_published_at Sample.db Sample.scoop
            (Sample.after Sample.db (News.create Sample.db Sample.scoop)) _ _))).
  vm_compute. reflexivity.
Defined.

(** ** Renaming and slugs *)

Section RenameFacts.

Lemma fill_slug_generates (gen : string -> string) (k : string)
      (data : gmap string JS.value) (t : string) :
  JS.get data k = JS.Str t -> t <> "" -> data !! "slug" = None ->
  fill_slug gen k data = Ok (<["slug" := JS.Str (gen t)]> data).
Proof.
  intros Hk Ht Hslug. unfold fill_slug. rewrite Hk.
  unfold JS.get at 1. rewrite Hslug. simpl.
  apply String.eqb_neq in Ht. rewrite Ht. reflexivity.
Qed.

Lemma Category_set_row_slug db data c (s : JS.value) :
  data !! "slug" = Some s -> Sql.col (Category.set_row db data c) "slug" = Sql.bind s.
Proof.
  intros Hs. unfold Category.set_row. rewrite col_insert. case_decide; [discriminate|].
  rewrite col_assign, set_clause_lookup, Hs. reflexivity.
Qed.

Lemma Category_columns_NoDup : NoDup (map fst (bare Category.columns)).
Proof. compute_done. Qed.

Lemma Category_findById_stored (db : DB) (id : JS.value) (x : Sql.row) :
  Category.findById db id = Some x ->
  exists c, In c (categories db) /\ where_id id c = true
            /\ Sql.col x "slug" = Sql.col c "slug".
Proof.
  unfold Category.findById. intros H.
  apply head_Some_elem_of, list_elem_of_In, in_map_iff in H as [c [<- Hc]].
  apply filter_In in Hc as [Hc Hid].
  exists c. split; [exact Hc|]. split; [exact Hid|].
  rewrite (col_select_as _ _ _ "slug" (Query.Bare "slug") Category_columns_NoDup)
    by compute_done.
  reflexivity.
Qed.

(** A 200 from [updateNews] comes out of [News.updateById] on the body
    with its slug filled in. *)
Lemma updateNews_200 db req res db' :
  NewsController.updateNews db req = (res, db') -> http_status res = 200 ->
  exists updateData updatedNews,
    fill_slug News.generateSlug "title" (body req) = Ok updateData
    /\ News.updateById db (JS.Num (params_id req)) updateData = Ok (db', Some updatedNews)
    /\ data res = Some updatedNews.
Proof.
  unfold NewsController.updateNews. intros H Hcode.
  destruct (News.findById db _) as [existing|]; [|injection H as <- <-; discriminate].
  destruct (not_owner_nor_staff _ _); [injection H as <- <-; discriminate|].
  destruct (fill_slug _ _ _) as [updateData|e]; [|injection H as <- <-; discriminate].
  destruct (_ && News.existsBySlug _ _ _); [injection H as <- <-; discriminate|].
  destruct (_ && negb _); [injection H as <- <-; discriminate|].
  destruct (News.updateById _ _ _) as [[db1 [updated|]]|e] eqn:Hupd;
    injection H as <- <-; try discriminate.
  exists updateData, updated. auto.
Qed.

Lemma updateCategory_200 db req res db' :
  CategoryController.updateCategory db req = (res, db') -> http_status res = 200 ->
  exists updateData updatedCategory,
    fill_slug Category.generateSlug "name" (body req) = Ok updateData
    /\ Category.updateById db (JS.Num (params_id req)) updateData
       = Ok (db', Some updatedCategory)
    /\ data res = Some updatedCategory.
Proof.
  unfold CategoryController.updateCategory. intros H Hcode.
  destruct (Category.findById db _) as [existing|]; [|injection H as <- <-; discriminate].
  destruct (fill_slug _ _ _) as [updateData|e]; [|injection H as <- <-; discriminate].
  destruct (if _ || _ then _ else None) as [field|];
    [injection H as <- <-; discriminate|].
  destruct (Category.updateById _ _ _) as [[db1 [updated|]]|e] eqn:Hupd;
    injection H as <- <-; try discriminate.
  exists updateData, updated. auto.
Qed.

End RenameFacts.

(** ** Deleting a category *)

Section CategoryDeleteFacts.

Lemma filter_map_pair {A B : Type} (p : A -> bool) (x : A) (ms : list B) :
  List.filter (fun j : A * option B => p (fst j)) (map (fun y => (x, Some y)) ms)
  = if p x then map (fun y => (x, Some y)) ms else [].
Proof.
  induction ms as [|m ms IH]; simpl; [destruct (p x); reflexivity|].
  rewrite IH. destruct (p x); reflexivity.
Qed.

(** A filter on the left side of an outer join can be applied first. *)
Lemma filter_left_join {A B : Type} (on : A -> B -> bool) (p : A -> bool)
      (a : list A) (b : list B) :
  List.filter (fun j => p (fst j)) (Sql.left_join on a b)
  = Sql.left_join on (List.filter p a) b.
Proof.
  unfold Sql.left_join.
  assert (Hf : forall x, List.filter (fun j : A * option B => p (fst j)) (Sql.join_row on b x)
                         = if p x then Sql.join_row on b x else []).
  { intros x. unfold Sql.join_row. destruct (List.filter (on x) b) as [|m ms].
    - simpl. destruct (p x); reflexivity.
    - apply filter_map_pair. }
  induction a as [|x a IH]; [reflexivity|].
  change (flat_map (Sql.join_row on b) (x :: a))
    with (Sql.join_row on b x ++ flat_map (Sql.join_row on b) a)%list.
  rewrite List.filter_app, IH, Hf. simpl List.filter.
  destruct (p x); reflexivity.
Qed.

Lemma where_category_id (id : JS.value) (j : Sql.row * option Sql.row) :
  Query.where_ Category.join_scope
    [Query.Equals (Query.Qualified "c" "id") (Sql.bind id)] (Category.join_env j)
  = where_id id (fst j).
Proof. unfold Query.where_, where_id. simpl forallb. apply andb_true_r. Qed.

(** With ids a primary key, a value is the id of at most one row. *)
Lemma filter_key_unique (v : Sql.value) (t : list Sql.row) :
  NoDup (Constraint.column "id" t) ->
  (length (List.filter (fun r => Sql.eqb (Sql.col r "id") v) t) <= 1)%nat.
Proof.
  induction t as [|x t IH]; simpl; [lia|].
  intros Hnd. apply NoDup_cons in Hnd as [Hx Hnd]. specialize (IH Hnd).
  destruct (Sql.eqb (Sql.col x "id") v) eqn:Hid; [|exact IH].
  assert (Hnone : List.filter (fun r => Sql.eqb (Sql.col r "id") v) t = []).
  { destruct (List.filter (fun r => Sql.eqb (Sql.col r "id") v) t) as [|y ys] eqn:Hf;
      [reflexivity|].
    exfalso.
    assert (Hy : In y (List.filter (fun r => Sql.eqb (Sql.col r "id") v) t))
      by (rewrite Hf; left; reflexivity).
    apply filter_In in Hy as [Hy Hyid].
    apply eqb_true in Hid. apply eqb_true in Hyid.
    apply Hx. rewrite Hid, <- Hyid. apply list_elem_of_In.
    exact (in_map (fun r => Sql.col r "id") t y Hy). }
  rewrite Hnone. simpl. lia.
Qed.

Lemma filter_id_unique (id : JS.value) (t : list Sql.row) :
  NoDup (Constraint.column "id" t) -> (length (List.filter (where_id id) t) <= 1)%nat.
Proof. apply filter_key_unique. Qed.

Lemma group_by_grow {K A : Type} `{EqDecision K} (key : A -> K) (k : K)
      (acc l : list A) :
  Forall (fun y => key y = k) l ->
  fold_left (fun gs x => Query.add_group (key x) x gs) l [(k, acc)] = [(k, (acc ++ l)%list)].
Proof.
  revert acc. induction l as [|y l IH]; intros acc Hall; simpl.
  - rewrite app_nil_r. reflexivity.
  - apply Forall_cons in Hall as [Hy Hall]. rewrite Hy.
    destruct (decide (k = k)) as [_|Hne]; [|congruence].
    rewrite IH by exact Hall. rewrite <- app_assoc. reflexivity.
Qed.

(** Rows that agree on the key form one group. *)
Lemma group_by_const {K A : Type} `{EqDecision K} (key : A -> K) (k : K)
      (x : A) (l : list A) :
  key x = k -> Forall (fun y => key y = k) l ->
  Query.group_by key (x :: l) = [(k, x :: l)].
Proof.
  intros Hx Hall. unfold Query.group_by. simpl. rewrite Hx.
  apply (group_by_grow key k [x] l Hall).
Qed.

Lemma group_key_left (c : Sql.row) (o : option Sql.row) :
  Category.group_key (c, o) = Category.group_key (c, None).
Proof. reflexivity. Qed.

Lemma eqb_sym (a b : Sql.value) : Sql.eqb a b = Sql.eqb b a.
Proof.
  unfold Sql.eqb. destruct a, b; simpl; try reflexivity;
    apply bool_decide_ext; split; congruence.
Qed.

Lemma count_partners (c : Sql.row) (ms : list Sql.row) :
  Forall (fun n => Constraint.is_int (Sql.col n "id") = true) ms ->
  length (List.filter
    (fun j => negb (Sql.is_null (Query.read Category.join_scope (Category.join_env j)
                                            (Query.Qualified "n" "id"))))
    (map (fun n => (c, Some n)) ms))
  = length ms.
Proof.
  induction 1 as [|n ns Hn Hns IH]; [reflexivity|].
  simpl map. simpl List.filter.
  change (Query.read Category.join_scope (Category.join_env (c, Some n))
            (Query.Qualified "n" "id")) with (Sql.col n "id").
  destruct (Sql.col n "id"); try discriminate. simpl. f_equal. exact IH.
Qed.

(** COUNT(n.id) over the rows one category joins with. *)
Lemma count_joined (c : Sql.row) (t : list Sql.row) (id : Z) :
  forallb Constraint.is_int (Constraint.column "id" t) = true ->
  Sql.col c "id" = Sql.Int id ->
  Z.of_nat (length (List.filter
    (fun j => negb (Sql.is_null (Query.read Category.join_scope (Category.join_env j)
                                            (Query.Qualified "n" "id"))))
    (Sql.join_row (fun c n => Sql.eqb (Sql.col c "id") (Sql.col n "category_id")) t c)))
  = count_where (fun n => Sql.eqb (Sql.col n "category_id") (Sql.Int id)) t.
Proof.
  intros Hint Hc. unfold count_where, Sql.join_row. rewrite Hc.
  rewrite (List.filter_ext (fun n => Sql.eqb (Sql.col n "category_id") (Sql.Int id))
             (fun n => Sql.eqb (Sql.Int id) (Sql.col n "category_id")))
    by (intros n; apply eqb_sym).
  assert (Hsub : Forall (fun n => Constraint.is_int (Sql.col n "id") = true)
                   (List.filter (fun n => Sql.eqb (Sql.Int id) (Sql.col n "category_id")) t)).
  { apply List.Forall_forall. intros n Hn. apply filter_In in Hn as [Hn _].
    rewrite forallb_forall in Hint. apply Hint.
    exact (in_map (fun r => Sql.col r "id") t n Hn). }
  destruct (List.filter _ t) as [|m ms]; [reflexivity|].
  f_equal. apply count_partners, Hsub.
Qed.

Lemma consistent_keys (db : DB) :
  Constraint.consistent db = true ->
  NoDup (Constraint.column "id" (categories db))
  /\ forallb Constraint.is_int (Constraint.column "id" (news db)) = true.
Proof.
  unfold Constraint.consistent, Constraint.categories_ok, Constraint.news_ok,
    Constraint.primary_key.
  rewrite !andb_true_iff, !bool_decide_eq_true. tauto.
Qed.

(** What [findByIdWithNewsCount] finds in a consistent store. *)
Lemma findByIdWithNewsCount_spec (db : DB) (id : Z) :
  Constraint.consistent db = true ->
  match Category.findByIdWithNewsCount db (JS.Num id) with
  | None => ~ Spec.exists_in (JS.Num id) (categories db)
  | Some category =>
      Spec.exists_in (JS.Num id) (categories db)
      /\ Sql.col category "news_count" = Sql.Int (Spec.news_in_category db id)
  end.
Proof.
  intros Hok. apply consistent_keys in Hok as [Hpk Hint].
  unfold Category.findByIdWithNewsCount, Category.joined.
  rewrite (List.filter_ext _ (fun j => where_id (JS.Num id) (fst j)))
    by (intros j; apply where_category_id).
  rewrite filter_left_join.
  pose proof (filter_id_unique (JS.Num id) (categories db) Hpk) as Hlen.
  destruct (List.filter (where_id (JS.Num id)) (categories db)) as [|c [|c2 cs]] eqn:Hf.
  - simpl. intros [n [Hn Hid]].
    assert (Hin : In n []); [|destruct Hin].
    rewrite <- Hf. apply filter_In. auto.
  - assert (Hc : In c (List.filter (where_id (JS.Num id)) (categories db)))
      by (rewrite Hf; left; reflexivity).
    apply filter_In in Hc as [Hc Hid].
    pose proof (eqb_true _ _ Hid) as Hcid. simpl in Hcid.
    pose proof (count_joined c (news db) id Hint Hcid) as Hcount.
    unfold Sql.left_join.
    change (flat_map ?f [c]) with (f c ++ [])%list. rewrite app_nil_r.
    set (on := fun c0 n : Sql.row => Sql.eqb (Sql.col c0 "id") (Sql.col n "category_id")) in *.
    assert (Hrows : exists j js, Sql.join_row on (news db) c = j :: js
                                 /\ Forall (fun y => Category.group_key y
                                                      = Category.group_key (c, None)) (j :: js)).
    { unfold Sql.join_row. destruct (List.filter (on c) (news db)) as [|m ms].
      - exists (c, None), []. split; [reflexivity|]. repeat constructor.
      - exists (c, Some m), (map (fun y => (c, Some y)) ms). split; [reflexivity|].
        constructor; [apply group_key_left|].
        apply List.Forall_forall. intros j Hj. apply in_map_iff in Hj as [n [<- _]].
        apply group_key_left. }
    destruct Hrows as (j & js & Hrows & Hkeys). rewrite Hrows in *.
    apply Forall_cons in Hkeys as [Hj Hjs].
    rewrite (group_by_const Category.group_key _ j js Hj Hjs).
    cbn [map head]. split; [exists c; auto|].
    unfold Category.aggregate. rewrite col_insert. cbn [snd].
    destruct (decide ("news_count" = "news_count")) as [_|Hne]; [|congruence].
    f_equal. exact Hcount.
  - simpl in Hlen. lia.
Qed.

End CategoryDeleteFacts.

(** C6: in a store that satisfies its declared constraints, the category
    delete handler succeeds (200) only when no News article is associated
    with the category; when the category exists and has associated news the
    handler answers 400 and the store, the category row included, is
    unchanged. *)
Theorem category_delete_guard (db : DB) (req : Request) :
  Constraint.consistent db = true ->
  (http_status (fst (CategoryController.deleteCategory db req)) = 200 ->
   Spec.news_in_category db (params_id req) = 0)
  /\ (Spec.exists_in (JS.Num (params_id req)) (categories db) ->
      0 < Spec.news_in_category db (params_id req) ->
      http_status (fst (CategoryController.deleteCategory db req)) = 400
      /\ snd (CategoryController.deleteCategory db req) = db).
Proof.
  intros Hok. pose proof (findByIdWithNewsCount_spec db (params_id req) Hok) as Hspec.
  unfold CategoryController.deleteCategory.
  destruct (Category.findByIdWithNewsCount db (JS.Num (params_id req))) as [category|].
  - destruct Hspec as [_ Hcount]. unfold CategoryController.has_news. rewrite Hcount.
    destruct (0 <? Spec.news_in_category db (params_id req)) eqn:Hpos.
    + split; [simpl; discriminate|]. intros _ _. split; reflexivity.
    + apply Z.ltb_ge in Hpos. split.
      * intros _. unfold Spec.news_in_category, count_where in *. lia.
      * intros _ Hgt. lia.
  - split; [simpl; discriminate|]. intros Hex. contradiction.
Qed.

(** Tech holds Alice's article: the admin's request to delete it is
    answered 400. *)
Lemma category_delete_guard_witness :
  http_status (fst (CategoryController.deleteCategory Sample.db
                      (mkRequest Sample.root 1 ∅))) = 400
  /\ snd (CategoryController.deleteCategory Sample.db (mkRequest Sample.root 1 ∅))
     = Sample.db.
Proof.
  refine (proj2 (category_delete_guard Sample.db (mkRequest Sample.root 1 ∅) _) _ _).
  - vm_compute. reflexivity.
  - exists Sample.tech. split; [left; reflexivity | vm_compute; reflexivity].
  - vm_compute. reflexivity.
Defined.

(** The guard lives in the handler: [Category.deleteById] itself removes a
    category that still has news, and the reference of that news is set to
    null by the store. *)
Lemma deleteById_has_no_guard :
  0 < Spec.news_in_category Sample.db 1
  /\ exists db',
       Category.deleteById Sample.db (JS.Num 1) = Ok (db', true)
       /\ categories db' = [Sample.sport]
       /\ Constraint.column "category_id" (news db') = [Sql.Null].
Proof.
  split; [vm_compute; reflexivity|].
  eexists. split; [vm_compute; reflexivity|]. split; vm_compute; reflexivity.
Qed.

(** ** Listings *)

Section ListingFacts.

Lemma insert_sorted_length {A : Type} (le : A -> A -> bool) (x : A) (l : list A) :
  length (Sql.insert_sorted le x l) = S (length l).
Proof.
  induction l as [|y l IH]; simpl; [reflexivity|].
  destruct (le x y); simpl; [reflexivity | rewrite IH; reflexivity].
Qed.

Lemma sort_length {A : Type} (le : A -> A -> bool) (l : list A) :
  length (Sql.sort le l) = length l.
Proof.
  induction l as [|x l IH]; simpl; [reflexivity|].
  rewrite insert_sorted_length, IH. reflexivity.
Qed.

(** Ordering moves rows, it does not add or lose any. *)
Lemma order_by_length {A : Type} (key : A -> Sql.value) (d : Sql.direction) (l : list A) :
  length (Sql.order_by key d l) = length l.
Proof. destruct d; apply sort_length. Qed.

Lemma limit_offset_page {A : Type} (l off : Z) (x : list A) :
  1 <= l -> Sql.limit_offset l off x = take (Z.to_nat l) (drop (Z.to_nat off) x).
Proof.
  intros Hl. unfold Sql.limit_offset.
  destruct (l <? 0) eqn:Hneg; [apply Z.ltb_lt in Hneg; lia | reflexivity].
Qed.

Lemma ceil_div_is_ceil (total l : Z) :
  1 <= l -> exists k, ceil_div total l = Some k /\ Spec.is_ceil total l k.
Proof.
  intros Hl. unfold ceil_div. destruct (l =? 0) eqn:Hz; [apply Z.eqb_eq in Hz; lia|].
  eexists. split; [reflexivity|]. unfold Spec.is_ceil.
  pose proof (Z.div_mod (- total) l ltac:(lia)) as Hdm.
  pose proof (Z.mod_pos_bound (- total) l ltac:(lia)) as Hb.
  nia.
Qed.

Lemma prepare_app (sc : Sql.scope) (a b : list Query.colref) :
  Query.prepare sc (a ++ b)
  = match Query.prepare sc a with
    | Ok _ => Query.prepare sc b
    | Err e => Err e
    end.
Proof.
  induction a as [|r a IH]; simpl; [reflexivity|].
  destruct (Query.resolve sc r); simpl; [exact IH | reflexivity].
Qed.

(** Page arithmetic is exact where doubles are, and such a limit and
    offset are integers to the engine. *)
Lemma to_double_exact (z : Z) : Z.abs z < 2 ^ 53 -> JS.to_double z = z.
Proof.
  intros H. unfold JS.to_double. apply Z.ltb_lt in H. rewrite H. reflexivity.
Qed.

Lemma offset_exact (p l : Z) :
  1 <= p -> 1 <= l -> (p - 1) * l < 2 ^ 53 -> JS.mul (JS.sub p 1) l = (p - 1) * l.
Proof.
  intros Hp Hl Hb. unfold JS.mul, JS.sub.
  assert (H1 : 0 <= p - 1 <= (p - 1) * l) by nia.
  rewrite (to_double_exact (p - 1)) by lia.
  apply to_double_exact. lia.
Qed.

Lemma must_be_int_Ok (z : Z) : - 2 ^ 63 < z < 2 ^ 63 -> must_be_int z = Ok z.
Proof.
  intros [H1 H2]. unfold must_be_int. apply Z.ltb_lt in H1, H2. rewrite H1, H2. reflexivity.
Qed.

Lemma must_be_int_Err (z : Z) :
  ~ (- 2 ^ 63 < z < 2 ^ 63) -> must_be_int z = Err (SqliteError "SQLITE_MISMATCH").
Proof.
  intros H. unfold must_be_int.
  destruct (- 2 ^ 63 <? z) eqn:H1; [|reflexivity].
  destruct (z <? 2 ^ 63) eqn:H2; [|reflexivity].
  apply Z.ltb_lt in H1, H2. exfalso. apply H. split; assumption.
Qed.

Lemma page_bounds (p l : Z) :
  1 <= p -> 1 <= l -> l < 2 ^ 63 -> (p - 1) * l < 2 ^ 53 ->
  must_be_int l = Ok l
  /\ must_be_int (JS.mul (JS.sub p 1) l) = Ok ((p - 1) * l).
Proof.
  intros Hp Hl Hl' Hb. rewrite offset_exact by assumption.
  assert (H2 : 2 ^ 53 < 2 ^ 63) by reflexivity.
  split; apply must_be_int_Ok; nia.
Qed.

(** A slice of the ordered matches, with the figures computed from their
    number, is a page. *)
Lemma listing_paginates {A : Type} (sel : A -> Sql.row) (sorted : list A) (n : nat)
      (p l : Z) :
  1 <= p -> 1 <= l -> length sorted = n ->
  Spec.paginates n p l
    (mkListing (map sel (Sql.limit_offset l ((p - 1) * l) sorted))
               (mkPagination p l (Z.of_nat n) (ceil_div (Z.of_nat n) l))).
Proof.
  intros Hp Hl Hlen. unfold Spec.paginates. simpl.
  rewrite length_map, limit_offset_page, length_take, length_drop, Hlen by exact Hl.
  repeat split; try reflexivity; [apply ceil_div_is_ceil, Hl | lia].
Qed.

(** *** Users *)

Lemma read_user_column (u : Sql.row) (c : string) :
  c ∈ Schema.users ->
  Query.read User.scope (User.env u) (Query.Bare c) = Sql.col u c.
Proof.
  intros Hc. unfold Schema.users in Hc.
  repeat (apply elem_of_cons in Hc as [->|Hc]; [reflexivity|]).
  apply elem_of_nil in Hc. contradiction.
Qed.

Lemma User_where_matches (o : Options) (u : Sql.row) :
  Query.where_ User.scope (User.whereConditions o) (User.env u) = Spec.user_matches o u.
Proof.
  unfold User.whereConditions, Spec.user_matches, Spec.text_filter, Spec.flag_filter,
    Spec.search_filter, Query.where_.
  destruct (given_string (role o)), (is_active o), (given_string (search o));
    simpl; rewrite ?read_user_column by compute_done;
    rewrite ?andb_true_r, ?orb_false_r, ?andb_assoc, ?orb_assoc; reflexivity.
Qed.

Lemma User_prepare_where (o : Options) :
  Query.prepare User.scope (flat_map Query.refs_of (User.whereConditions o)) = Ok tt.
Proof.
  unfold User.whereConditions.
  destruct (given_string (role o)), (is_active o), (given_string (search o)); reflexivity.
Qed.

Lemma User_prepare_sort (s : string) :
  Query.prepare User.scope [Query.Bare (sortField User.validSortFields s)] = Ok tt.
Proof.
  unfold sortField. case_bool_decide as Hs; [|reflexivity].
  unfold User.validSortFields in Hs.
  repeat (apply elem_of_cons in Hs as [->|Hs]; [reflexivity|]).
  apply elem_of_nil in Hs. contradiction.
Qed.



End ListingFacts.

Section NewsListingFacts.

Lemma left_join_length {A B : Type} (on : A -> B -> bool) (a : list A) (b : list B) :
  (forall x, (length (List.filter (on x) b) <= 1)%nat) ->
  length (Sql.left_join on a b) = length a.
Proof.
  intros Huniq. unfold Sql.left_join. induction a as [|x a IH]; [reflexivity|].
  change (flat_map (Sql.join_row on b) (x :: a))
    with (Sql.join_row on b x ++ flat_map (Sql.join_row on b) a)%list.
  rewrite length_app, IH. unfold Sql.join_row. specialize (Huniq x).
  destruct (List.filter (on x) b) as [|m [|m2 ms]]; simpl in *; lia.
Qed.

Lemma consistent_primary_keys (db : DB) :
  Constraint.consistent db = true ->
  NoDup (Constraint.column "id" (users db))
  /\ NoDup (Constraint.column "id" (categories db)).
Proof.
  unfold Constraint.consistent, Constraint.users_ok, Constraint.categories_ok,
    Constraint.primary_key.
  rewrite !andb_true_iff, !bool_decide_eq_true. tauto.
Qed.

(** Joining the category and the author neither repeats nor drops a news
    row when ids are primary keys. *)
Lemma joined_filter_length (db : DB) (q : Sql.row -> bool) :
  Constraint.consistent db = true ->
  length (List.filter (fun j : News.joined_row => q (fst (fst j))) (News.joined db))
  = length (List.filter q (news db)).
Proof.
  intros Hok. apply consistent_primary_keys in Hok as [Hu Hc]. unfold News.joined.
  pose proof (filter_left_join
                (fun (nc : Sql.row * option Sql.row) u =>
                   Sql.eqb (Sql.col (fst nc) "author_id") (Sql.col u "id"))
                (fun nc : Sql.row * option Sql.row => q (fst nc))
                (Sql.left_join (fun n c => Sql.eqb (Sql.col n "category_id") (Sql.col c "id"))
                               (news db) (categories db))
                (users db)) as Houter.
  cbv beta in Houter. unfold News.joined_row. rewrite Houter.
  rewrite (filter_left_join _ q).
  rewrite left_join_length.
  - apply left_join_length. intros n.
    rewrite (List.filter_ext _ (fun c => Sql.eqb (Sql.col c "id") (Sql.col n "category_id")))
      by (intros c; apply eqb_sym).
    apply filter_key_unique, Hc.
  - intros nc.
    rewrite (List.filter_ext _
               (fun u => Sql.eqb (Sql.col u "id") (Sql.col (fst nc) "author_id")))
      by (intros u; apply eqb_sym).
    apply filter_key_unique, Hu.
Qed.

Lemma News_where_matches (o : Options) (j : News.joined_row) :
  Query.where_ News.join_scope (News.whereConditions o) (News.join_env j)
  = Spec.news_matches o (fst (fst j)).
Proof.
  unfold News.whereConditions, Spec.news_matches, Spec.text_filter, Spec.number_filter,
    Spec.search_filter, Query.where_.
  destruct (given_string (status o)), (given_number (category_id o)),
    (given_number (author_id o)), (given_string (search o));
    simpl; rewrite ?read_news_column by compute_done;
    rewrite ?andb_true_r, ?orb_false_r, ?andb_assoc, ?orb_assoc; reflexivity.
Qed.

Lemma News_prepare_where (o : Options) :
  Query.prepare News.join_scope (flat_map Query.refs_of (News.whereConditions o)) = Ok tt.
Proof.
  unfold News.whereConditions.
  destruct (given_string (status o)), (given_number (category_id o)),
    (given_number (author_id o)), (given_string (search o)); reflexivity.
Qed.

Lemma News_prepare_sort (s : string) :
  Query.prepare News.join_scope [Query.Qualified "n" (sortField News.validSortFields s)]
  = Ok tt.
Proof.
  unfold sortField. case_bool_decide as Hs; [|reflexivity].
  unfold News.validSortFields in Hs.
  repeat (apply elem_of_cons in Hs as [->|Hs]; [reflexivity|]).
  apply elem_of_nil in Hs. contradiction.
Qed.

Lemma News_whereConditions_page_limit (p l : option Z) (o : Options) :
  News.whereConditions (with_page_limit p l o) = News.whereConditions o.
Proof. reflexivity. Qed.

(** The news listing pages the news rows that match its filters. *)
Lemma News_findAll_paginates (db : DB) (o : Options) (p l : Z) :
  Constraint.consistent db = true ->
  1 <= p -> 1 <= l -> l < 2 ^ 63 -> (p - 1) * l < 2 ^ 53 ->
  exists r,
    News.findAll db (with_page_limit (Some p) (Some l) o) = Ok r
    /\ Spec.paginates (length (List.filter (Spec.news_matches o) (news db))) p l r
    /\ exists sorted,
         length sorted = length (List.filter (Spec.news_matches o) (news db))
         /\ items r = map (fun j => select_as News.join_scope (News.join_env j)
                                      News.list_columns)
                          (take (Z.to_nat l) (drop (Z.to_nat ((p - 1) * l)) sorted)).
Proof.
  intros Hok Hp Hl Hl' Hb. destruct (page_bounds p l Hp Hl Hl' Hb) as [Hlim Hoff].
  unfold News.findAll.
  rewrite News_whereConditions_page_limit.
  rewrite prepare_app, News_prepare_where, News_prepare_sort.
  rewrite (List.filter_ext _ (fun j : News.joined_row => Spec.news_matches o (fst (fst j))))
    by (intros j; apply News_where_matches).
  cbn [bind_result page limit with_page_limit default from_option id].
  rewrite Hlim. cbn [bind_result]. rewrite Hoff. cbn [bind_result].
  rewrite (joined_filter_length db (Spec.news_matches o) Hok).
  eexists. split; [reflexivity|]. split.
  - apply listing_paginates; [exact Hp | exact Hl |].
    rewrite order_by_length. apply joined_filter_length, Hok.
  - eexists. split; [rewrite order_by_length; apply joined_filter_length, Hok|].
    cbn [items]. rewrite limit_offset_page by exact Hl. reflexivity.
Qed.

(** The published-only listing counts and shows published rows only,
    whatever status the caller asked for. *)
Lemma findPublished_counts_published (db : DB) (o : Options) (p l : Z) :
  Constraint.consistent db = true ->
  1 <= p -> 1 <= l -> l < 2 ^ 63 -> (p - 1) * l < 2 ^ 53 ->
  exists r,
    News.findPublished db (with_page_limit (Some p) (Some l) o) = Ok r
    /\ pg_total (pagination r)
       = Z.of_nat (length (List.filter
           (Spec.news_matches (with_status (Some "published") o)) (news db))).
Proof.
  intros Hok Hp Hl Hl' Hb.
  destruct (News_findAll_paginates db (with_status (Some "published") o) p l
              Hok Hp Hl Hl' Hb) as (r & Hr & Hpag & _).
  exists r. split; [exact Hr | apply Hpag].
Qed.

End NewsListingFacts.

(** C2, where the code goes wrong: the categories listing orders by a bare
    column name inside a statement that joins categories with news, and
    created_at (the default), id and slug are columns of both tables, so
    the statement is rejected when it is prepared, for every store, page,
    limit and filter; no pagination is returned at all. *)
Theorem Category_findAll_ambiguous_sort (db : DB) (o : Options) :
  Category.findAll db no_options
  = Err (SqliteError "ambiguous column name: created_at")
  /\ Category.findAll db (with_sort None o)
     = Err (SqliteError "ambiguous column name: created_at")
  /\ Category.findAll db (with_sort (Some "created_at") o)
     = Err (SqliteError "ambiguous column name: created_at")
  /\ Category.findAll db (with_sort (Some "id") o)
     = Err (SqliteError "ambiguous column name: id")
  /\ Category.findAll db (with_sort (Some "slug") o)
     = Err (SqliteError "ambiguous column name: slug").
Proof.
  assert (H : forall s c, sortField Category.validSortFields (default "created_at" s) = c ->
                Query.resolve Category.join_scope (Query.Bare c)
                = Err (SqliteError ("ambiguous column name: " ++ c)) ->
                Category.findAll db (with_sort s o)
                = Err (SqliteError ("ambiguous column name: " ++ c))).
  { intros s c Hs Hamb. unfold Category.findAll.
    cbn [sort with_sort]. rewrite Hs.
    replace (Category.whereConditions (with_sort s o)) with (Category.whereConditions o)
      by reflexivity.
    assert (Hw : Query.prepare Category.scope
                   (flat_map Query.refs_of (Category.whereConditions o)) = Ok tt
                 /\ Query.prepare Category.join_scope
                      (flat_map Query.refs_of (Category.whereConditions o)) = Ok tt).
    { unfold Category.whereConditions.
      destruct (is_active o), (given_string (search o)); split; reflexivity. }
    destruct Hw as [Hw1 Hw2].
    rewrite prepare_app, Hw1, Hw2. cbn [bind_result Query.prepare].
    rewrite Hamb. reflexivity. }
  split; [reflexivity|].
  split; [apply (H None "created_at"); reflexivity|].
  split; [apply (H (Some "created_at") "created_at"); reflexivity|].
  split; [apply (H (Some "id") "id"); reflexivity|].
  apply (H (Some "slug") "slug"); reflexivity.
Qed.

(** The one sort field that belongs to categories alone: ordered by name
    the listing goes through, here with both categories on one page. *)
Lemma Category_findAll_by_name_sample :
  match Category.findAll Sample.db (with_sort (Some "name") no_options) with
  | Ok r => pagination r = mkPagination 1 10 2 (Some 1) /\ length (items r) = 2%nat
  | Err _ => False
  end.
Proof. vm_compute. split; reflexivity. Qed.

Section CategoryListingFacts.

Lemma read_category_column (c : Sql.row) (k : string) :
  k ∈ Schema.categories ->
  Query.read Category.scope (Category.env c) (Query.Bare k) = Sql.col c k.
Proof.
  intros Hk. unfold Schema.categories in Hk.
  repeat (apply elem_of_cons in Hk as [->|Hk]; [reflexivity|]).
  apply elem_of_nil in Hk. contradiction.
Qed.

Lemma Category_where_matches (o : Options) (c : Sql.row) :
  Query.where_ Category.scope (Category.whereConditions o) (Category.env c)
  = Spec.category_matches o c.
Proof.
  unfold Category.whereConditions, Spec.category_matches, Spec.flag_filter,
    Spec.search_filter, Query.where_.
  destruct (is_active o), (given_string (search o));
    simpl; rewrite ?read_category_column by compute_done;
    rewrite ?andb_true_r, ?orb_false_r, ?andb_assoc, ?orb_assoc; reflexivity.
Qed.

(** Ordered by name, the categories listing reports the number of matching
    categories and hands back at most [limit] of them. *)
Lemma Category_findAll_by_name (db : DB) (o : Options) (p l : Z) :
  1 <= p -> 1 <= l -> l < 2 ^ 63 -> (p - 1) * l < 2 ^ 53 ->
  exists r,
    Category.findAll db (with_sort (Some "name") (with_page_limit (Some p) (Some l) o)) = Ok r
    /\ pg_total (pagination r)
       = Z.of_nat (length (List.filter (Spec.category_matches o) (categories db)))
    /\ (exists k, pg_pages (pagination r) = Some k
                  /\ Spec.is_ceil (pg_total (pagination r)) l k)
    /\ (length (items r) <= Z.to_nat l)%nat.
Proof.
  intros Hp Hl Hl' Hb. destruct (page_bounds p l Hp Hl Hl' Hb) as [Hlim Hoff].
  unfold Category.findAll.
  replace (Category.whereConditions
             (with_sort (Some "name") (with_page_limit (Some p) (Some l) o)))
    with (Category.whereConditions o) by reflexivity.
  assert (Hw : Query.prepare Category.scope
                 (flat_map Query.refs_of (Category.whereConditions o)) = Ok tt
               /\ Query.prepare Category.join_scope
                    (flat_map Query.refs_of (Category.whereConditions o)) = Ok tt).
  { unfold Category.whereConditions.
    destruct (is_active o), (given_string (search o)); split; reflexivity. }
  destruct Hw as [Hw1 Hw2].
  rewrite prepare_app, Hw1, Hw2.
  rewrite (List.filter_ext (fun r => Query.where_ Category.scope
                                       (Category.whereConditions o) (Category.env r))
             (Spec.category_matches o)) by (intros c; apply Category_where_matches).
  cbn [bind_result page limit sort with_sort with_page_limit default from_option id].
  rewrite Hlim. cbn [bind_result]. rewrite Hoff. cbn [bind_result].
  eexists. split; [reflexivity|]. cbn [pagination pg_total pg_pages items].
  split; [reflexivity|]. split; [apply ceil_div_is_ceil, Hl|].
  rewrite length_map, limit_offset_page, length_take by exact Hl. lia.
Qed.

End CategoryListingFacts.

(** The admin renames Sport: the stored slug follows the name. *)
Lemma rename_category_sample :
  match CategoryController.updateCategory Sample.db (mkRequest Sample.root 2 Sample.rename) with
  | (res, db') =>
      http_status res = 200
      /\ Constraint.column "slug" (categories db') = [Sql.Text "tech"; Sql.Text "winter-sports"]
  end.
Proof. vm_compute. split; reflexivity. Qed.

(** * Further properties of the models and handlers *)

(** ** What a read hands out *)

Section ExposureFacts.

Lemma select_as_lookup_None (sc : Sql.scope) (e : Query.env)
      (cols : list (string * Query.colref)) (c : string) :
  c ∉ map fst cols -> select_as sc e cols !! c = None.
Proof.
  intros Hc. unfold select_as. apply not_elem_of_list_to_map_1.
  rewrite <- list_fmap_compose. exact Hc.
Qed.

Lemma select_as_lookup_Some (sc : Sql.scope) (e : Query.env)
      (cols : list (string * Query.colref)) (c : string) (ref : Query.colref) :
  NoDup (map fst cols) -> (c, ref) ∈ cols ->
  select_as sc e cols !! c = Some (Query.read sc e ref).
Proof.
  intros Hnd Hin. unfold select_as.
  apply (elem_of_list_to_map_1 _ c (Query.read sc e ref)).
  - rewrite <- list_fmap_compose. exact Hnd.
  - apply (list_elem_of_fmap_2 (fun c0 => (fst c0, Query.read sc e (snd c0))) _ _ Hin).
Qed.

Lemma In_sort {A : Type} (le : A -> A -> bool) (l : list A) (x : A) :
  In x (Sql.sort le l) <-> In x l.
Proof.
  assert (Hins : forall y l', In x (Sql.insert_sorted le y l') <-> x = y \/ In x l').
  { intros y l'. induction l' as [|z l' IH]; simpl; [intuition congruence|].
    destruct (le y z); simpl; [intuition congruence|]. rewrite IH. intuition congruence. }
  induction l as [|y l IH]; simpl; [tauto|].
  rewrite Hins, IH. intuition congruence.
Qed.

Lemma In_order_by {A : Type} (key : A -> Sql.value) (d : Sql.direction)
      (l : list A) (x : A) :
  In x (Sql.order_by key d l) <-> In x l.
Proof. destruct d; apply In_sort. Qed.

Lemma In_limit_offset {A : Type} (limit offset : Z) (l : list A) (x : A) :
  In x (Sql.limit_offset limit offset l) -> In x l.
Proof.
  unfold Sql.limit_offset. intros H.
  assert (Hd : In x (drop (Z.to_nat offset) l)).
  { destruct (limit <? 0); [exact H|].
    apply list_elem_of_In. apply list_elem_of_In in H.
    exact (subseteq_take _ _ _ H). }
  apply list_elem_of_In. apply list_elem_of_In in Hd. exact (subseteq_drop _ _ _ Hd).
Qed.

Lemma must_be_int_inv (z z' : Z) :
  must_be_int z = Ok z' -> z' = z /\ - 2 ^ 63 < z < 2 ^ 63.
Proof.
  unfold must_be_int. destruct (- 2 ^ 63 <? z) eqn:H1; [|discriminate].
  destruct (z <? 2 ^ 63) eqn:H2; [|discriminate].
  apply Z.ltb_lt in H1, H2. simpl. intros [= <-]. auto.
Qed.

(** The two listings that join nothing ambiguous fail only when the
    limit or the offset is no integer to the engine. *)
Lemma User_findAll_eq (db : DB) (o : Options) :
  User.findAll db o
  = let* limit' := must_be_int (default 10 (limit o)) in
    let* offset' :=
      must_be_int (JS.mul (JS.sub (default 1 (page o)) 1) (default 10 (limit o))) in
    Ok (mkListing
          (map (fun u => select_as User.scope (User.env u) (bare User.public_columns))
             (Sql.limit_offset limit' offset'
                (Sql.order_by
                   (fun u => Query.read User.scope (User.env u)
                               (Query.Bare (sortField User.validSortFields
                                              (default "created_at" (sort o)))))
                   (sortOrder (default "desc" (order o)))
                   (List.filter (Spec.user_matches o) (users db)))))
          (mkPagination (default 1 (page o)) (default 10 (limit o))
             (Z.of_nat (length (List.filter (Spec.user_matches o) (users db))))
             (ceil_div (Z.of_nat (length (List.filter (Spec.user_matches o) (users db))))
                       (default 10 (limit o))))).
Proof.
  unfold User.findAll.
  rewrite prepare_app, User_prepare_where, User_prepare_sort.
  rewrite (List.filter_ext _ (Spec.user_matches o)) by (intros u; apply User_where_matches).
  reflexivity.
Qed.

Lemma News_findAll_eq (db : DB) (o : Options) :
  News.findAll db o
  = let* limit' := must_be_int (default 10 (limit o)) in
    let* offset' :=
      must_be_int (JS.mul (JS.sub (default 1 (page o)) 1) (default 10 (limit o))) in
    Ok (mkListing
          (map (fun j => select_as News.join_scope (News.join_env j) News.list_columns)
             (Sql.limit_offset limit' offset'
                (Sql.order_by
                   (fun j => Query.read News.join_scope (News.join_env j)
                               (Query.Qualified "n"
                                  (sortField News.validSortFields
                                     (default "created_at" (sort o)))))
                   (sortOrder (default "desc" (order o)))
                   (List.filter (fun j : News.joined_row => Spec.news_matches o (fst (fst j)))
                                (News.joined db)))))
          (mkPagination (default 1 (page o)) (default 10 (limit o))
             (Z.of_nat (length (List.filter
                (fun j : News.joined_row => Spec.news_matches o (fst (fst j)))
                (News.joined db))))
             (ceil_div (Z.of_nat (length (List.filter
                (fun j : News.joined_row => Spec.news_matches o (fst (fst j)))
                (News.joined db))))
                (default 10 (limit o))))).
Proof.
  unfold News.findAll.
  rewrite prepare_app, News_prepare_where, News_prepare_sort.
  rewrite (List.filter_ext _ (fun j : News.joined_row => Spec.news_matches o (fst (fst j))))
    by (intros j; apply News_where_matches).
  reflexivity.
Qed.

(** The items of a users page are selected from matching rows. *)
Lemma User_findAll_items (db : DB) (o : Options) (r : Listing) (x : Sql.row) :
  User.findAll db o = Ok r -> In x (items r) ->
  exists u, In u (users db) /\ Spec.user_matches o u = true
            /\ x = select_as User.scope (User.env u) (bare User.public_columns).
Proof.
  rewrite User_findAll_eq.
  destruct (must_be_int (default 10 (limit o))) as [l|]; [|discriminate].
  destruct (must_be_int _) as [off|]; [|discriminate].
  cbn [bind_result]. intros [= <-]. simpl items. intros Hx.
  apply in_map_iff in Hx as [u [<- Hu]].
  apply In_limit_offset, In_order_by, filter_In in Hu as [Hu Hm].
  exists u. auto.
Qed.

Lemma list_columns_NoDup : NoDup (map fst News.list_columns).
Proof. compute_done. Qed.

(** An item of a news listing shows a stored row that passes the filters. *)
Lemma News_findAll_item (db : DB) (o : Options) (r : Listing) (x : Sql.row) :
  News.findAll db o = Ok r -> In x (items r) ->
  x !! "content" = None
  /\ exists n, In n (news db) /\ Spec.news_matches o n = true
               /\ Sql.col x "id" = Sql.col n "id"
               /\ Sql.col x "status" = Sql.col n "status"
               /\ Sql.col x "author_id" = Sql.col n "author_id"
               /\ Sql.col x "category_id" = Sql.col n "category_id".
Proof.
  rewrite News_findAll_eq.
  destruct (must_be_int (default 10 (limit o))) as [l|]; [|discriminate].
  destruct (must_be_int _) as [off|]; [|discriminate].
  cbn [bind_result]. intros [= <-]. simpl items. intros Hx.
  apply in_map_iff in Hx as [j [<- Hj]].
  apply In_limit_offset, In_order_by, filter_In in Hj as [Hj Hm].
  split; [apply select_as_lookup_None; compute_done|].
  exists (fst (fst j)). split; [apply In_joined_news, Hj|]. split; [exact Hm|].
  repeat split.
Qed.

End ExposureFacts.

(** X1: the password column is never part of what [User.findById],
    [User.findByUsername] and [User.findAll] hand out; [User.findByEmail],
    which login uses, hands out the password of the user it found. *)
Theorem password_never_selected (db : DB) :
  (forall id x, User.findById db id = Some x -> x !! "password" = None)
  /\ (forall username x, User.findByUsername db username = Some x -> x !! "password" = None)
  /\ (forall o r x, User.findAll db o = Ok r -> In x (items r) -> x !! "password" = None)
  /\ (forall email x, User.findByEmail db email = Some x ->
        exists u, In u (users db)
                  /\ Sql.eqb (Sql.col u "email") (Sql.bind email) = true
                  /\ x !! "password" = Some (Sql.col u "password")).
Proof.
  split; [|split; [|split]].
  - intros id x H. unfold User.findById in H.
    apply head_Some_elem_of, list_elem_of_In, in_map_iff in H as [u [<- _]].
    apply select_as_lookup_None. compute_done.
  - intros username x H. unfold User.findByUsername in H.
    apply head_Some_elem_of, list_elem_of_In, in_map_iff in H as [u [<- _]].
    apply select_as_lookup_None. compute_done.
  - intros o r x H Hx. destruct (User_findAll_items db o r x H Hx) as (u & _ & _ & ->).
    apply select_as_lookup_None. compute_done.
  - intros email x H. unfold User.findByEmail in H.
    apply head_Some_elem_of, list_elem_of_In, in_map_iff in H as [u [<- Hu]].
    apply filter_In in Hu as [Hu He]. exists u. split; [exact Hu|]. split; [exact He|].
    rewrite (select_as_lookup_Some _ _ _ "password" (Query.Bare "password"));
      [reflexivity | compute_done | compute_done].
Qed.

(** Alice, read by id. *)
Lemma password_never_selected_witness :
  default ∅ (User.findById Sample.db (JS.Num 2)) !! "password" = None.
Proof.
  refine (proj1 (password_never_selected Sample.db) (JS.Num 2) _ _).
  apply default_Some. vm_compute. reflexivity.
Defined.

(** X2: an item of a news listing never carries the content of the
    article, and shows the id, status, author and category of a stored
    article that passes the filters; [News.findById] hands out the stored
    content. *)
Theorem news_listing_omits_content (db : DB) :
  (forall o r x, News.findAll db o = Ok r -> In x (items r) ->
     x !! "content" = None
     /\ exists n, In n (news db) /\ Spec.news_matches o n = true
                  /\ Sql.col x "id" = Sql.col n "id")
  /\ (forall id x, News.findById db id = Some x ->
        exists n, In n (news db) /\ where_id id n = true
                  /\ x !! "content" = Some (Sql.col n "content")).
Proof.
  split.
  - intros o r x H Hx. destruct (News_findAll_item db o r x H Hx) as [Hc [n Hn]].
    split; [exact Hc|]. exists n. tauto.
  - intros id x H. unfold News.findById in H.
    apply head_Some_elem_of, list_elem_of_In, in_map_iff in H as [j [<- Hj]].
    apply filter_In in Hj as [Hj Hid]. rewrite where_news_id in Hid.
    exists (fst (fst j)). split; [apply In_joined_news, Hj|]. split; [exact Hid|].
    rewrite (select_as_lookup_Some _ _ _ "content" (Query.Qualified "n" "content"));
      [reflexivity | exact detail_columns_NoDup | compute_done].
Qed.

(** Alice's article, read by id, shows its body. *)
Lemma news_listing_omits_content_witness :
  exists n, In n (news Sample.db) /\ where_id (JS.Num 1) n = true
            /\ default ∅ (News.findById Sample.db (JS.Num 1)) !! "content"
               = Some (Sql.col n "content").
Proof.
  refine (proj2 (news_listing_omits_content Sample.db) (JS.Num 1) _ _).
  apply default_Some. vm_compute. reflexivity.
Defined.

(** X3: the users and the news listing return a page exactly when the
    limit and the offset, (page - 1) * limit as doubles compute it, lie
    strictly between the least and the greatest 64-bit integer, and fail
    with a datatype mismatch otherwise; a sort field outside the
    whitelist is the same as no sort field. *)
Theorem listing_fails_out_of_range_only (db : DB) (o : Options) (s : string) :
  let limit := default 10 (limit o) in
  let offset := JS.mul (JS.sub (default 1 (page o)) 1) limit in
  let in_range (z : Z) := - 2 ^ 63 < z < 2 ^ 63 in
  (in_range limit /\ in_range offset ->
   (exists r, User.findAll db o = Ok r) /\ (exists r, News.findAll db o = Ok r))
  /\ (~ (in_range limit /\ in_range offset) ->
      User.findAll db o = Err (SqliteError "SQLITE_MISMATCH")
      /\ News.findAll db o = Err (SqliteError "SQLITE_MISMATCH"))
  /\ (s ∉ User.validSortFields ->
      User.findAll db (with_sort (Some s) o) = User.findAll db (with_sort None o))
  /\ (s ∉ News.validSortFields ->
      News.findAll db (with_sort (Some s) o) = News.findAll db (with_sort None o)).
Proof.
  intros limit offset in_range. subst in_range. cbv beta.
  split; [|split; [|split]].
  - intros [Hl Ho]. rewrite User_findAll_eq, News_findAll_eq.
    fold limit. fold offset.
    rewrite (must_be_int_Ok limit Hl), (must_be_int_Ok offset Ho). cbn [bind_result].
    split; eexists; reflexivity.
  - intros Hno. rewrite User_findAll_eq, News_findAll_eq.
    fold limit. fold offset.
    destruct (must_be_int limit) as [l|] eqn:El.
    + apply must_be_int_inv in El as [-> Hl].
      rewrite must_be_int_Err by (intros Ho; apply Hno; split; assumption).
      split; reflexivity.
    + unfold must_be_int in El.
      destruct (_ && _) in El; [discriminate|]. injection El as <-. split; reflexivity.
  - intros Hs. rewrite !User_findAll_eq. cbn [sort with_sort default from_option id].
    unfold sortField at 1. rewrite bool_decide_eq_false_2 by exact Hs. reflexivity.
  - intros Hs. rewrite !News_findAll_eq. cbn [sort with_sort default from_option id].
    unfold sortField at 1. rewrite bool_decide_eq_false_2 by exact Hs. reflexivity.
Qed.

(** C8: the published-only listing is the generic listing run on the same
    options with the status replaced by 'published', whatever status the
    caller supplied; likewise the by-category listing replaces category_id
    and the by-author listing replaces author_id.  The rows show it: every
    item of the published-only listing is published, every item of the
    listing of a category or of an author (other than 0, which the generic
    listing takes for no filter) belongs to it. *)
Theorem scoped_listings_force_their_filter (db : DB) (o : Options) (categoryId authorId : Z) :
  News.findPublished db o = News.findAll db (with_status (Some "published") o)
  /\ (forall s, News.findPublished db (with_status s o) = News.findPublished db o)
  /\ News.findByCategory db categoryId o
     = News.findAll db (with_category_id (Some categoryId) o)
  /\ (forall c, News.findByCategory db categoryId (with_category_id c o)
                = News.findByCategory db categoryId o)
  /\ News.findByAuthor db authorId o = News.findAll db (with_author_id (Some authorId) o)
  /\ (forall a, News.findByAuthor db authorId (with_author_id a o)
                = News.findByAuthor db authorId o)
  /\ News.findPublished db o
     = News.findAll db
         (mkOptions (page o) (limit o) (sort o) (order o) (role o) (is_active o)
                    (Some "published") (category_id o) (author_id o) (search o))
  /\ News.findByCategory db categoryId o
     = News.findAll db
         (mkOptions (page o) (limit o) (sort o) (order o) (role o) (is_active o)
                    (status o) (Some categoryId) (author_id o) (search o))
  /\ News.findByAuthor db authorId o
     = News.findAll db
         (mkOptions (page o) (limit o) (sort o) (order o) (role o) (is_active o)
                    (status o) (category_id o) (Some authorId) (search o))
  /\ (forall r x, News.findPublished db o = Ok r -> In x (items r) ->
        Sql.col x "status" = Sql.Text "published")
  /\ (forall r x, categoryId <> 0 -> News.findByCategory db categoryId o = Ok r ->
        In x (items r) -> Sql.col x "category_id" = Sql.Int categoryId)
  /\ (forall r x, authorId <> 0 -> News.findByAuthor db authorId o = Ok r ->
        In x (items r) -> Sql.col x "author_id" = Sql.Int authorId).
Proof.
  repeat match goal with |- _ /\ _ => split end;
    try (destruct o; intros; reflexivity).
  - unfold News.findPublished. intros r x H Hx.
    destruct (News_findAll_item db _ r x H Hx) as [_ (n & _ & Hm & _ & Hs & _)].
    rewrite Hs. unfold Spec.news_matches in Hm. rewrite !andb_true_iff in Hm.
    destruct Hm as [[[Hm _] _] _]. apply eqb_true in Hm. exact Hm.
  - unfold News.findByCategory. intros r x Hc H Hx.
    destruct (News_findAll_item db _ r x H Hx) as [_ (n & _ & Hm & _ & _ & _ & Hs)].
    rewrite Hs. unfold Spec.news_matches in Hm. rewrite !andb_true_iff in Hm.
    destruct Hm as [[[_ Hm] _] _]. unfold Spec.number_filter in Hm. cbn in Hm.
    apply Z.eqb_neq in Hc. rewrite Hc in Hm. apply eqb_true in Hm. exact Hm.
  - unfold News.findByAuthor. intros r x Ha H Hx.
    destruct (News_findAll_item db _ r x H Hx) as [_ (n & _ & Hm & _ & _ & Hs & _)].
    rewrite Hs. unfold Spec.news_matches in Hm. rewrite !andb_true_iff in Hm.
    destruct Hm as [[[_ _] Hm] _]. unfold Spec.number_filter in Hm. cbn in Hm.
    apply Z.eqb_neq in Ha. rewrite Ha in Hm. apply eqb_true in Hm. exact Hm.
Qed.

(** Alice's articles, listed for her although the caller asked for Bob's. *)
Lemma scoped_listings_force_their_filter_witness :
  Sql.col (default ∅ (head (items (Sample.listing_of
             (News.findByAuthor Sample.db 2 (with_author_id (Some 3) no_options))))))
          "author_id"
  = Sql.Int 2.
Proof.
  refine (proj2 (proj2 (proj2 (proj2 (proj2 (proj2 (proj2 (proj2 (proj2 (proj2 (proj2
            (scoped_listings_force_their_filter Sample.db
               (with_author_id (Some 3) no_options) 1 2)))))))))))
            (Sample.listing_of
               (News.findByAuthor Sample.db 2 (with_author_id (Some 3) no_options)))
            _ _ _ _).
  - discriminate.
  - apply listing_of_Ok. vm_compute. reflexivity.
  - apply head_default_In. vm_compute. reflexivity.
Defined.

(** ** Constraints under row removal and column-preserving updates *)

Section ConsistencyFacts.

Lemma In_column_filter (c : string) (q : Sql.row -> bool) (t : list Sql.row) (v : Sql.value) :
  In v (Constraint.column c (List.filter q t)) -> In v (Constraint.column c t).
Proof.
  unfold Constraint.column. rewrite !in_map_iff. intros [r [Hr Hin]].
  apply filter_In in Hin as [Hin _]. exists r. auto.
Qed.

Lemma forallb_column_filter (f : Sql.value -> bool) (c : string) (q : Sql.row -> bool)
      (t : list Sql.row) :
  forallb f (Constraint.column c t) = true ->
  forallb f (Constraint.column c (List.filter q t)) = true.
Proof.
  rewrite !forallb_forall. intros H v Hv. apply H, (In_column_filter c q t v Hv).
Qed.

Lemma NoDup_column_filter (c : string) (q : Sql.row -> bool) (t : list Sql.row) :
  NoDup (Constraint.column c t) -> NoDup (Constraint.column c (List.filter q t)).
Proof.
  induction t as [|x t IH]; simpl; [auto|].
  intros Hnd. apply NoDup_cons in Hnd as [Hx Hnd].
  destruct (q x); simpl; [|apply IH, Hnd].
  apply NoDup_cons. split; [|apply IH, Hnd].
  intros Hin. apply Hx. apply list_elem_of_In. apply list_elem_of_In in Hin.
  exact (In_column_filter c q t _ Hin).
Qed.

Lemma unique_filter (c : string) (q : Sql.row -> bool) (t : list Sql.row) :
  Constraint.unique c t = true -> Constraint.unique c (List.filter q t) = true.
Proof.
  unfold Constraint.unique. rewrite !bool_decide_eq_true.
  induction t as [|x t IH]; simpl; [auto|].
  destruct (negb (Sql.is_null (Sql.col x c))) eqn:Hnn.
  - intros Hnd. apply NoDup_cons in Hnd as [Hx Hnd].
    destruct (q x); simpl; [|apply IH, Hnd]. rewrite Hnn.
    apply NoDup_cons. split; [|apply IH, Hnd].
    intros Hin. apply Hx. apply list_elem_of_In. apply list_elem_of_In in Hin.
    apply filter_In in Hin as [Hin Hv]. apply filter_In. split; [|exact Hv].
    exact (In_column_filter c q t _ Hin).
  - intros Hnd. destruct (q x); simpl; [rewrite Hnn|]; apply IH, Hnd.
Qed.

Lemma primary_key_filter (q : Sql.row -> bool) (t : list Sql.row) :
  Constraint.primary_key t = true -> Constraint.primary_key (List.filter q t) = true.
Proof.
  unfold Constraint.primary_key. rewrite !andb_true_iff, !bool_decide_eq_true.
  intros [Hint Hnd]. split; [apply forallb_column_filter, Hint | apply NoDup_column_filter, Hnd].
Qed.

Lemma not_null_filter (c : string) (q : Sql.row -> bool) (t : list Sql.row) :
  Constraint.not_null c t = true -> Constraint.not_null c (List.filter q t) = true.
Proof. apply forallb_column_filter. Qed.

Lemma references_filter (c : string) (q : Sql.row -> bool) (t target : list Sql.row) :
  Constraint.references c t target = true ->
  Constraint.references c (List.filter q t) target = true.
Proof. apply forallb_column_filter. Qed.

Lemma consistent_iff (db : DB) :
  Constraint.consistent db = true
  <-> Constraint.users_ok db = true /\ Constraint.categories_ok db = true
      /\ Constraint.news_ok db = true.
Proof. unfold Constraint.consistent. rewrite !andb_true_iff. tauto. Qed.

(** Removing news rows keeps the store consistent. *)
Lemma consistent_filter_news (db : DB) (q : Sql.row -> bool) :
  Constraint.consistent db = true ->
  Constraint.consistent (with_news (List.filter q (news db)) db) = true.
Proof.
  rewrite !consistent_iff. intros (Hu & Hc & Hn). split; [exact Hu|]. split; [exact Hc|].
  unfold Constraint.news_ok in *. simpl. rewrite !andb_true_iff in *.
  destruct Hn as (((((((H1 & H2) & H3) & H4) & H5) & H6) & H7) & H8).
  repeat split;
    auto using primary_key_filter, not_null_filter, unique_filter, references_filter.
Qed.

(** The constraints of a table read it through its columns. *)
Lemma users_ok_columns (db db' : DB) :
  (forall c, c ∈ ["id"; "username"; "email"; "password"] ->
             Constraint.column c (users db') = Constraint.column c (users db)) ->
  Constraint.users_ok db' = Constraint.users_ok db.
Proof.
  intros H. unfold Constraint.users_ok, Constraint.primary_key, Constraint.not_null,
    Constraint.unique.
  rewrite (H "id"), (H "username"), (H "email"), (H "password") by compute_done.
  reflexivity.
Qed.

Lemma categories_ok_columns (db db' : DB) :
  (forall c, c ∈ ["id"; "name"; "slug"] ->
             Constraint.column c (categories db') = Constraint.column c (categories db)) ->
  Constraint.categories_ok db' = Constraint.categories_ok db.
Proof.
  intros H. unfold Constraint.categories_ok, Constraint.primary_key, Constraint.not_null,
    Constraint.unique.
  rewrite (H "id"), (H "name"), (H "slug") by compute_done. reflexivity.
Qed.

Lemma news_ok_columns (db db' : DB) :
  (forall c, c ∈ ["id"; "title"; "content"; "slug"; "author_id"; "category_id"] ->
             Constraint.column c (news db') = Constraint.column c (news db)) ->
  Constraint.column "id" (categories db') = Constraint.column "id" (categories db) ->
  Constraint.column "id" (users db') = Constraint.column "id" (users db) ->
  Constraint.news_ok db' = Constraint.news_ok db.
Proof.
  intros H Hc Hu. unfold Constraint.news_ok, Constraint.primary_key, Constraint.not_null,
    Constraint.unique, Constraint.references.
  rewrite (H "id"), (H "title"), (H "content"), (H "slug"), (H "author_id"),
    (H "category_id"), Hc, Hu by compute_done.
  reflexivity.
Qed.

End ConsistencyFacts.

(** ** Deleting *)

Section DeleteFacts.

Lemma where_id_Num (id : Z) (r : Sql.row) :
  where_id (JS.Num id) r = true <-> Sql.col r "id" = Sql.Int id.
Proof.
  unfold where_id, Sql.eqb. simpl. split.
  - intros H. rewrite !andb_true_iff in H. destruct H as [_ H].
    apply bool_decide_eq_true in H. exact H.
  - intros ->. simpl. apply bool_decide_eq_true_2. reflexivity.
Qed.

Lemma filter_none {A : Type} (p : A -> bool) (l : list A) :
  (forall x, In x l -> p x = false) -> List.filter p l = [].
Proof.
  induction l as [|x l IH]; simpl; [reflexivity|]. intros H.
  rewrite (H x) by (left; reflexivity). apply IH. intros y Hy. apply H. right. exact Hy.
Qed.

Lemma filter_all {A : Type} (p : A -> bool) (l : list A) :
  (forall x, In x l -> p x = true) -> List.filter p l = l.
Proof.
  induction l as [|x l IH]; simpl; [reflexivity|]. intros H.
  rewrite (H x) by (left; reflexivity). f_equal. apply IH. intros y Hy. apply H. right. exact Hy.
Qed.

Lemma count_where_pos (p : Sql.row -> bool) (t : list Sql.row) :
  (0 <? count_where p t) = true <-> exists r, In r t /\ p r = true.
Proof.
  unfold count_where. rewrite Z.ltb_lt. split.
  - destruct (List.filter p t) as [|r l] eqn:E; simpl; [lia|]. intros _.
    exists r. apply filter_In. rewrite E. left. reflexivity.
  - intros [r Hr]. apply filter_In in Hr.
    destruct (List.filter p t); [destruct Hr | simpl; lia].
Qed.

Lemma length_pos {A : Type} (l : list A) :
  (0 <? Z.of_nat (length l)) = true <-> l <> [].
Proof.
  rewrite Z.ltb_lt. destruct l; simpl; split; try lia; try congruence.
Qed.

Lemma News_findById_gone (db : DB) (id : JS.value) :
  (forall n, In n (news db) -> where_id id n = false) -> News.findById db id = None.
Proof.
  intros H. unfold News.findById. rewrite filter_none; [reflexivity|].
  intros j Hj. rewrite where_news_id. apply H, In_joined_news, Hj.
Qed.

Lemma News_findById_None (db : DB) (id : JS.value) :
  News.findById db id = None <-> ~ Spec.exists_in id (news db).
Proof.
  split.
  - intros H Hex. apply News_findById_complete in Hex. rewrite H in Hex.
    destruct Hex as [x Hx]. discriminate.
  - intros H. apply News_findById_gone. intros n Hn.
    destruct (where_id id n) eqn:E; [|reflexivity]. exfalso. apply H. exists n. auto.
Qed.

Lemma News_deleteById_Ok (db : DB) (id : JS.value) :
  Constraint.consistent db = true ->
  News.deleteById db id
  = Ok (with_news (List.filter (fun r => negb (where_id id r)) (news db)) db,
        0 <? count_where (where_id id) (news db)).
Proof.
  intros Hc. unfold News.deleteById, commit.
  rewrite (consistent_filter_news db _ Hc). reflexivity.
Qed.

End DeleteFacts.

(** X5: in a store that meets its constraints, deleting a news article
    by id always goes through: the answer tells whether the article
    existed, the article is gone afterwards, every other article is
    kept, and users and categories are untouched. *)
Theorem News_deleteById_removes (db : DB) (id : JS.value) :
  Constraint.consistent db = true ->
  exists db' deleted,
    News.deleteById db id = Ok (db', deleted)
    /\ (deleted = true <-> Spec.exists_in id (news db))
    /\ News.findById db' id = None
    /\ (forall n, In n (news db') <-> In n (news db) /\ where_id id n = false)
    /\ users db' = users db /\ categories db' = categories db
    /\ Constraint.consistent db' = true.
Proof.
  intros Hc. rewrite (News_deleteById_Ok db id Hc). eexists _, _.
  split; [reflexivity|].
  split; [apply count_where_pos|].
  assert (Hin : forall n,
            In n (List.filter (fun r => negb (where_id id r)) (news db))
            <-> In n (news db) /\ where_id id n = false).
  { intros n. rewrite filter_In, negb_true_iff. reflexivity. }
  split; [apply News_findById_gone; intros n Hn; apply Hin in Hn; apply Hn|].
  split; [exact Hin|].
  split; [reflexivity|]. split; [reflexivity|].
  apply consistent_filter_news, Hc.
Qed.

(** Alice's article, deleted from the sample store. *)
Lemma News_deleteById_removes_witness :
  exists db' deleted,
    News.deleteById Sample.db (JS.Num 1) = Ok (db', deleted)
    /\ (deleted = true <-> Spec.exists_in (JS.Num 1) (news Sample.db))
    /\ News.findById db' (JS.Num 1) = None
    /\ (forall n, In n (news db') <-> In n (news Sample.db) /\ where_id (JS.Num 1) n = false)
    /\ users db' = users Sample.db /\ categories db' = categories Sample.db
    /\ Constraint.consistent db' = true.
Proof.
  apply (News_deleteById_removes Sample.db (JS.Num 1)). vm_compute. reflexivity.
Defined.

(** X6: in a store that meets its constraints the delete handler of
    news has three outcomes: 404 when no article has the id, 403 when
    the caller is neither admin, editor nor the author, 200 otherwise;
    only the last changes the store, and it removes that article and
    nothing else. *)
Theorem deleteNews_outcome (db : DB) (req : Request) :
  Constraint.consistent db = true ->
  let id := JS.Num (params_id req) in
  let res := fst (NewsController.deleteNews db req) in
  let db' := snd (NewsController.deleteNews db req) in
  (http_status res = 404 /\ db' = db /\ ~ Spec.exists_in id (news db))
  \/ (http_status res = 403 /\ db' = db
      /\ exists article, News.findById db id = Some article
                         /\ ~ Spec.may_modify (user req) article)
  \/ (http_status res = 200
      /\ (exists article, News.findById db id = Some article
                          /\ Spec.may_modify (user req) article)
      /\ News.findById db' id = None
      /\ news db' = List.filter (fun n => negb (where_id id n)) (news db)
      /\ users db' = users db /\ categories db' = categories db).
Proof.
  intros Hc id res db'. subst id res db'. unfold NewsController.deleteNews.
  destruct (News.findById db (JS.Num (params_id req))) as [article|] eqn:Hf.
  - destruct (not_owner_nor_staff (user req) article) eqn:Hg.
    + right. left. simpl. split; [reflexivity|]. split; [reflexivity|].
      exists article. split; [reflexivity|]. apply not_owner_nor_staff_true, Hg.
    + right. right. rewrite (News_deleteById_Ok db _ Hc).
      assert (Hex : (0 <? count_where (where_id (JS.Num (params_id req))) (news db)) = true).
      { apply count_where_pos. apply News_findById_stored in Hf as (n & Hn & Hid & _).
        exists n. auto. }
      rewrite Hex. simpl. split; [reflexivity|].
      split; [exists article; split; [reflexivity|]; apply not_owner_nor_staff_false, Hg|].
      split; [|auto].
      apply News_findById_gone. simpl. intros n Hn. apply filter_In in Hn as [_ Hn].
      apply negb_true_iff, Hn.
  - left. simpl. split; [reflexivity|]. split; [reflexivity|].
    apply News_findById_None, Hf.
Qed.

(** Alice deletes her own article. *)
Lemma deleteNews_outcome_witness :
  let req := mkRequest Sample.alice 1 ∅ in
  let id := JS.Num (params_id req) in
  let res := fst (NewsController.deleteNews Sample.db req) in
  let db' := snd (NewsController.deleteNews Sample.db req) in
  (http_status res = 404 /\ db' = Sample.db /\ ~ Spec.exists_in id (news Sample.db))
  \/ (http_status res = 403 /\ db' = Sample.db
      /\ exists article, News.findById Sample.db id = Some article
                         /\ ~ Spec.may_modify (user req) article)
  \/ (http_status res = 200
      /\ (exists article, News.findById Sample.db id = Some article
                          /\ Spec.may_modify (user req) article)
      /\ News.findById db' id = None
      /\ news db' = List.filter (fun n => negb (where_id id n)) (news Sample.db)
      /\ users db' = users Sample.db /\ categories db' = categories Sample.db).
Proof.
  apply (deleteNews_outcome Sample.db (mkRequest Sample.alice 1 ∅)). vm_compute. reflexivity.
Defined.

(** ** Deleting a user *)

Section CascadeFacts.

Lemma eqb_refl_nonnull (v : Sql.value) : Sql.is_null v = false -> Sql.eqb v v = true.
Proof.
  intros H. unfold Sql.eqb. rewrite H. simpl. apply bool_decide_eq_true_2. reflexivity.
Qed.

Lemma eqb_Int (v : Sql.value) (z : Z) : Sql.eqb v (Sql.Int z) = true <-> v = Sql.Int z.
Proof.
  split; [apply eqb_true|]. intros ->. apply eqb_refl_nonnull. reflexivity.
Qed.

Lemma In_column (c : string) (t : list Sql.row) (v : Sql.value) :
  In v (Constraint.column c t) <-> exists r, In r t /\ Sql.col r c = v.
Proof.
  unfold Constraint.column. rewrite in_map_iff. split; intros [r [H1 H2]]; exists r; auto.
Qed.

Lemma references_spec (c : string) (t target : list Sql.row) :
  Constraint.references c t target = true
  <-> forall n, In n t ->
        Sql.col n c = Sql.Null \/ exists r, In r target /\ Sql.col r "id" = Sql.col n c.
Proof.
  unfold Constraint.references. rewrite forallb_forall. split.
  - intros H n Hn. specialize (H (Sql.col n c)).
    rewrite orb_true_iff in H.
    destruct H as [H|H]; [apply In_column; exists n; auto| |].
    + left. destruct (Sql.col n c); try discriminate; reflexivity.
    + right. apply bool_decide_eq_true in H. apply list_elem_of_In, In_column in H. exact H.
  - intros H v Hv. apply In_column in Hv as [n [Hn <-]].
    destruct (H n Hn) as [->|Hr]; [reflexivity|].
    apply orb_true_iff. right. apply bool_decide_eq_true_2, list_elem_of_In, In_column, Hr.
Qed.

Lemma consistent_references (db : DB) :
  Constraint.consistent db = true ->
  Constraint.references "category_id" (news db) (categories db) = true
  /\ Constraint.references "author_id" (news db) (users db) = true.
Proof.
  intros H. apply consistent_iff in H as (_ & _ & H). unfold Constraint.news_ok in H.
  rewrite !andb_true_iff in H. tauto.
Qed.

(** A row refers to one of the rows with the id exactly when it holds the
    id, as long as rows it can refer to exist. *)
Lemma refers_to_gone (c : string) (id : Z) (n : Sql.row) (target : list Sql.row) :
  (Sql.col n c = Sql.Null \/ exists r, In r target /\ Sql.col r "id" = Sql.col n c) ->
  existsb (fun r => Sql.eqb (Sql.col n c) (Sql.col r "id"))
          (List.filter (where_id (JS.Num id)) target)
  = bool_decide (Sql.col n c = Sql.Int id).
Proof.
  intros Href. apply eq_true_iff_eq. rewrite existsb_exists, bool_decide_eq_true. split.
  - intros [r [Hr He]]. apply filter_In in Hr as [_ Hr]. apply where_id_Num in Hr.
    apply eqb_true in He. congruence.
  - intros Hv. destruct Href as [Hn|[r [Hr Hid]]]; [congruence|].
    exists r. split.
    + apply filter_In. split; [exact Hr|]. apply where_id_Num. congruence.
    + rewrite Hid. apply eqb_refl_nonnull. rewrite Hv. reflexivity.
Qed.

Lemma filter_ext_in' {A : Type} (p q : A -> bool) (l : list A) :
  (forall x, In x l -> p x = q x) -> List.filter p l = List.filter q l.
Proof.
  induction l as [|x l IH]; simpl; [reflexivity|]. intros H.
  rewrite (H x) by (left; reflexivity). rewrite IH; [reflexivity|].
  intros y Hy. apply H. right. exact Hy.
Qed.

Lemma users_ok_filter (db : DB) (q : Sql.row -> bool) (db' : DB) :
  users db' = List.filter q (users db) ->
  Constraint.users_ok db = true -> Constraint.users_ok db' = true.
Proof.
  unfold Constraint.users_ok. intros ->. rewrite !andb_true_iff.
  intros (((((H1 & H2) & H3) & H4) & H5) & H6).
  repeat split; auto using primary_key_filter, not_null_filter, unique_filter.
Qed.

Lemma categories_ok_filter (db : DB) (q : Sql.row -> bool) (db' : DB) :
  categories db' = List.filter q (categories db) ->
  Constraint.categories_ok db = true -> Constraint.categories_ok db' = true.
Proof.
  unfold Constraint.categories_ok. intros ->. rewrite !andb_true_iff.
  intros ((((H1 & H2) & H3) & H4) & H5).
  repeat split; auto using primary_key_filter, not_null_filter, unique_filter.
Qed.

Lemma User_deleteById_Ok (db : DB) (id : Z) :
  Constraint.consistent db = true ->
  User.deleteById db (JS.Num id)
  = Ok (users_without db id,
        0 <? Z.of_nat (length (List.filter (where_id (JS.Num id)) (users db))))
  /\ Constraint.consistent (users_without db id) = true.
Proof.
  intros Hc. destruct (consistent_references db Hc) as [Hrc Hra].
  pose proof (proj1 (references_spec _ _ _) Hra) as Hra'.
  assert (Hnews :
    List.filter
      (fun n => negb (existsb (fun u => Sql.eqb (Sql.col n "author_id") (Sql.col u "id"))
                              (List.filter (where_id (JS.Num id)) (users db)))) (news db)
    = List.filter (fun n => negb (bool_decide (Sql.col n "author_id" = Sql.Int id)))
                  (news db)).
  { apply filter_ext_in'. intros n Hn. f_equal. apply refers_to_gone, Hra', Hn. }
  assert (Hok : Constraint.consistent (users_without db id) = true).
  { pose proof Hc as Hc'. apply consistent_iff in Hc' as (Hu & Hcat & Hn).
    apply consistent_iff. split; [|split].
    - apply (users_ok_filter db (fun r => negb (where_id (JS.Num id) r))); [reflexivity|exact Hu].
    - exact Hcat.
    - unfold Constraint.news_ok in *. rewrite !andb_true_iff in *.
      destruct Hn as (((((((H1 & H2) & H3) & H4) & H5) & H6) & H7) & H8).
      unfold users_without. simpl.
      repeat split;
        auto using primary_key_filter, not_null_filter, unique_filter, references_filter.
      apply references_spec. intros n Hn. apply filter_In in Hn as [Hn Hne].
      destruct (Hra' n Hn) as [Hnull|[u [Hu' Hid]]]; [left; exact Hnull|].
      right. exists u. split; [|exact Hid]. apply filter_In. split; [exact Hu'|].
      apply negb_true_iff. apply negb_true_iff, bool_decide_eq_false in Hne.
      destruct (where_id (JS.Num id) u) eqn:E; [|reflexivity].
      apply where_id_Num in E. exfalso. apply Hne. congruence. }
  split; [|exact Hok].
  unfold User.deleteById. cbv zeta. rewrite Hnews. unfold commit.
  fold (users_without db id). rewrite Hok. reflexivity.
Qed.


End CascadeFacts.

(** X7: in a store that meets its constraints, deleting a user by id
    always goes through and takes the user's articles along: afterwards
    the users are those with another id, the news are those of another
    author, the categories are untouched and the constraints still hold;
    the answer tells whether the user existed. *)
Theorem User_deleteById_cascades (db : DB) (id : Z) :
  Constraint.consistent db = true ->
  exists db' deleted,
    User.deleteById db (JS.Num id) = Ok (db', deleted)
    /\ (deleted = true <-> Spec.exists_in (JS.Num id) (users db))
    /\ (forall u, In u (users db') <-> In u (users db) /\ Sql.col u "id" <> Sql.Int id)
    /\ (forall n, In n (news db') <-> In n (news db) /\ Sql.col n "author_id" <> Sql.Int id)
    /\ categories db' = categories db
    /\ Constraint.consistent db' = true.
Proof.
  intros Hc. destruct (User_deleteById_Ok db id Hc) as [-> Hok]. eexists _, _.
  split; [reflexivity|].
  split.
  { rewrite length_pos. unfold Spec.exists_in. split.
    - intros H. destruct (List.filter (where_id (JS.Num id)) (users db)) as [|u l] eqn:E;
        [congruence|]. exists u. apply filter_In. rewrite E. left. reflexivity.
    - intros [u Hu] E. apply filter_In in Hu. rewrite E in Hu. destruct Hu. }
  split.
  { intros u. unfold users_without. simpl. rewrite filter_In, negb_true_iff.
    rewrite <- not_true_iff_false, where_id_Num. reflexivity. }
  split.
  { intros n. unfold users_without. simpl. rewrite filter_In, negb_true_iff.
    rewrite bool_decide_eq_false. reflexivity. }
  split; [reflexivity | exact Hok].
Qed.

(** Alice, deleted from the sample store. *)
Lemma User_deleteById_cascades_witness :
  exists db' deleted,
    User.deleteById Sample.db (JS.Num 2) = Ok (db', deleted)
    /\ (deleted = true <-> Spec.exists_in (JS.Num 2) (users Sample.db))
    /\ (forall u, In u (users db') <-> In u (users Sample.db) /\ Sql.col u "id" <> Sql.Int 2)
    /\ (forall n, In n (news db')
                  <-> In n (news Sample.db) /\ Sql.col n "author_id" <> Sql.Int 2)
    /\ categories db' = categories Sample.db
    /\ Constraint.consistent db' = true.
Proof.
  apply (User_deleteById_cascades Sample.db 2). vm_compute. reflexivity.
Defined.


(** ** Deleting a category, once more *)


Section SetNullFacts.

Lemma column_map_frame (c : string) (f : Sql.row -> Sql.row) (t : list Sql.row) :
  (forall r, Sql.col (f r) c = Sql.col r c) ->
  Constraint.column c (map f t) = Constraint.column c t.
Proof.
  intros H. unfold Constraint.column. rewrite map_map. apply map_ext. exact H.
Qed.

Lemma col_set_null_frame (id : Z) (c : string) (n : Sql.row) :
  c <> "category_id" ->
  Sql.col (if bool_decide (Sql.col n "category_id" = Sql.Int id)
           then <["category_id" := Sql.Null]> n else n) c
  = Sql.col n c.
Proof.
  intros Hc. case_bool_decide; [|reflexivity]. rewrite col_insert.
  destruct (decide ("category_id" = c)); [congruence | reflexivity].
Qed.

Lemma Category_deleteById_Ok (db : DB) (id : Z) :
  Constraint.consistent db = true ->
  Category.deleteById db (JS.Num id)
  = Ok (categories_without db id,
        0 <? Z.of_nat (length (List.filter (where_id (JS.Num id)) (categories db))))
  /\ Constraint.consistent (categories_without db id) = true.
Proof.
  intros Hc. destruct (consistent_references db Hc) as [Hrc Hra].
  pose proof (proj1 (references_spec _ _ _) Hrc) as Hrc'.
  assert (Hnews :
    update_where
      (fun n => existsb (fun c => Sql.eqb (Sql.col n "category_id") (Sql.col c "id"))
                        (List.filter (where_id (JS.Num id)) (categories db)))
      (fun n => <["category_id" := Sql.Null]> n) (news db)
    = map (fun n => if bool_decide (Sql.col n "category_id" = Sql.Int id)
                    then <["category_id" := Sql.Null]> n else n) (news db)).
  { unfold update_where. apply map_ext_in. intros n Hn.
    rewrite (refers_to_gone "category_id" id n (categories db) (Hrc' n Hn)). reflexivity. }
  assert (Hcols : forall c, c <> "category_id" ->
            Constraint.column c (news (categories_without db id))
            = Constraint.column c (news db)).
  { intros c Hne. unfold categories_without. simpl. apply column_map_frame.
    intros r. apply col_set_null_frame, Hne. }
  assert (Hok : Constraint.consistent (categories_without db id) = true).
  { pose proof Hc as Hc'. apply consistent_iff in Hc' as (Hu & Hcat & Hn).
    apply consistent_iff. split; [|split].
    - exact Hu.
    - apply (categories_ok_filter db (fun r => negb (where_id (JS.Num id) r)));
        [reflexivity|exact Hcat].
    - unfold Constraint.news_ok in *. rewrite !andb_true_iff in *.
      destruct Hn as (((((((H1 & H2) & H3) & H4) & H5) & H6) & H7) & H8).
      unfold Constraint.primary_key, Constraint.not_null, Constraint.unique in *.
      unfold Constraint.references at 2. unfold Constraint.references in H8.
      rewrite !Hcols by discriminate.
      repeat split; auto.
      apply references_spec. intros n' Hn'. unfold categories_without in Hn'. simpl in Hn'.
      apply in_map_iff in Hn' as [n [<- Hn]].
      destruct (bool_decide (Sql.col n "category_id" = Sql.Int id)) eqn:Hv.
      + left. rewrite col_insert. destruct (decide ("category_id" = "category_id"));
          [reflexivity | congruence].
      + apply bool_decide_eq_false in Hv. destruct (Hrc' n Hn) as [Hnull|[c [Hc' Hid]]]; [left; exact Hnull|].
        right. exists c. split; [|exact Hid]. unfold categories_without. simpl.
        apply filter_In. split; [exact Hc'|]. apply negb_true_iff.
        destruct (where_id (JS.Num id) c) eqn:E; [|reflexivity].
        apply where_id_Num in E. exfalso. apply Hv. congruence. }
  split; [|exact Hok].
  unfold Category.deleteById. cbv zeta. rewrite Hnews. unfold commit.
  fold (categories_without db id). rewrite Hok. reflexivity.
Qed.

Lemma Category_findById_None (db : DB) (id : JS.value) :
  (forall c, In c (categories db) -> where_id id c = false) ->
  Category.findById db id = None.
Proof.
  intros H. unfold Category.findById. rewrite filter_none; [reflexivity|]. exact H.
Qed.

End SetNullFacts.

(** X9: in a store that meets its constraints, deleting a category by
    id always goes through and deletes no article: the categories
    afterwards are those with another id, every article that referred to
    the category is kept with category_id NULL, every other article and
    every user is untouched, and the constraints still hold. *)
Theorem Category_deleteById_sets_null (db : DB) (id : Z) :
  Constraint.consistent db = true ->
  exists db' deleted,
    Category.deleteById db (JS.Num id) = Ok (db', deleted)
    /\ (deleted = true <-> Spec.exists_in (JS.Num id) (categories db))
    /\ (forall c, In c (categories db')
                  <-> In c (categories db) /\ Sql.col c "id" <> Sql.Int id)
    /\ news db'
       = map (fun n => if bool_decide (Sql.col n "category_id" = Sql.Int id)
                       then <["category_id" := Sql.Null]> n else n) (news db)
    /\ users db' = users db
    /\ Constraint.consistent db' = true.
Proof.
  intros Hc. destruct (Category_deleteById_Ok db id Hc) as [-> Hok]. eexists _, _.
  split; [reflexivity|].
  split.
  { rewrite length_pos. unfold Spec.exists_in. split.
    - intros H. destruct (List.filter (where_id (JS.Num id)) (categories db)) as [|u l] eqn:E;
        [congruence|]. exists u. apply filter_In. rewrite E. left. reflexivity.
    - intros [u Hu] E. apply filter_In in Hu. rewrite E in Hu. destruct Hu. }
  split.
  { intros u. unfold categories_without. simpl. rewrite filter_In, negb_true_iff.
    rewrite <- not_true_iff_false, where_id_Num. reflexivity. }
  split; [reflexivity|]. split; [reflexivity | exact Hok].
Qed.

(** Tech, deleted from the sample store. *)
Lemma Category_deleteById_sets_null_witness :
  exists db' deleted,
    Category.deleteById Sample.db (JS.Num 1) = Ok (db', deleted)
    /\ (deleted = true <-> Spec.exists_in (JS.Num 1) (categories Sample.db))
    /\ (forall c, In c (categories db')
                  <-> In c (categories Sample.db) /\ Sql.col c "id" <> Sql.Int 1)
    /\ news db'
       = map (fun n => if bool_decide (Sql.col n "category_id" = Sql.Int 1)
                       then <["category_id" := Sql.Null]> n else n) (news Sample.db)
    /\ users db' = users Sample.db
    /\ Constraint.consistent db' = true.
Proof.
  apply (Category_deleteById_sets_null Sample.db 1). vm_compute. reflexivity.
Defined.

(** X10: in a store that meets its constraints the delete handler of
    categories removes a category that exists and has no article: it
    answers 200, the category is gone, and the news and the users are
    exactly what they were. *)
Theorem deleteCategory_removes_empty (db : DB) (req : Request) :
  Constraint.consistent db = true ->
  Spec.exists_in (JS.Num (params_id req)) (categories db) ->
  Spec.news_in_category db (params_id req) = 0 ->
  let res := fst (CategoryController.deleteCategory db req) in
  let db' := snd (CategoryController.deleteCategory db req) in
  http_status res = 200
  /\ Category.findById db' (JS.Num (params_id req)) = None
  /\ (forall c, In c (categories db')
                <-> In c (categories db) /\ Sql.col c "id" <> Sql.Int (params_id req))
  /\ news db' = news db /\ users db' = users db.
Proof.
  intros Hc Hex Hzero res db'. subst res db'. unfold CategoryController.deleteCategory.
  pose proof (findByIdWithNewsCount_spec db (params_id req) Hc) as Hspec.
  destruct (Category.findByIdWithNewsCount db (JS.Num (params_id req))) as [category|];
    [|contradiction].
  destruct Hspec as [_ Hcount]. unfold CategoryController.has_news.
  rewrite Hcount, Hzero. simpl.
  destruct (Category_deleteById_Ok db (params_id req) Hc) as [-> Hok].
  assert (Hpos : (0 <? Z.of_nat (length (List.filter (where_id (JS.Num (params_id req)))
                                                     (categories db)))) = true).
  { apply length_pos. destruct Hex as [u Hu]. apply filter_In in Hu. intros E.
    rewrite E in Hu. destruct Hu. }
  rewrite Hpos. simpl.
  split; [reflexivity|].
  split.
  { apply Category_findById_None. simpl. intros c Hin. apply filter_In in Hin as [_ Hin].
    apply negb_true_iff, Hin. }
  split.
  { intros c. rewrite filter_In, negb_true_iff.
    rewrite <- not_true_iff_false, where_id_Num. reflexivity. }
  split; [|reflexivity].
  rewrite <- (map_id (news db)) at 2. apply map_ext_in. intros n Hn.
  case_bool_decide as Hv; [|reflexivity]. exfalso.
  unfold Spec.news_in_category, count_where in Hzero.
  assert (Hin : In n (List.filter
            (fun n => Sql.eqb (Sql.col n "category_id") (Sql.Int (params_id req))) (news db))).
  { apply filter_In. split; [exact Hn|]. apply eqb_Int, Hv. }
  destruct (List.filter _ (news db)); [destruct Hin | simpl in Hzero; lia].
Qed.

(** Sport has no article in the sample store. *)
Lemma deleteCategory_removes_empty_witness :
  let req := mkRequest Sample.root 2 ∅ in
  let res := fst (CategoryController.deleteCategory Sample.db req) in
  let db' := snd (CategoryController.deleteCategory Sample.db req) in
  http_status res = 200
  /\ Category.findById db' (JS.Num (params_id req)) = None
  /\ (forall c, In c (categories db')
                <-> In c (categories Sample.db) /\ Sql.col c "id" <> Sql.Int (params_id req))
  /\ news db' = news Sample.db /\ users db' = users Sample.db.
Proof.
  apply (deleteCategory_removes_empty Sample.db (mkRequest Sample.root 2 ∅)).
  - vm_compute. reflexivity.
  - exists Sample.sport. split; [right; left; reflexivity | vm_compute; reflexivity].
  - vm_compute. reflexivity.
Defined.

(** ** Updates that leave the constrained columns alone *)

Section ToggleFacts.

Lemma set_row_frame (s : gmap string Sql.value) (stamp : Sql.value) (r : Sql.row)
      (c : string) :
  s !! c = None -> c <> "updated_at" ->
  Sql.col (<["updated_at" := stamp]> (assign s r)) c = Sql.col r c.
Proof.
  intros Hs Hc. rewrite col_insert. destruct (decide ("updated_at" = c)); [congruence|].
  rewrite col_assign, Hs. reflexivity.
Qed.

Lemma set_clause_skips (allowed : list string) (data : gmap string JS.value) (c : string) :
  data !! c = None -> set_clause allowed data !! c = None.
Proof.
  intros H. rewrite set_clause_lookup, H. destruct (bool_decide (c ∈ allowed)); reflexivity.
Qed.

Lemma set_clause_outside (allowed : list string) (data : gmap string JS.value) (c : string) :
  c ∉ allowed -> set_clause allowed data !! c = None.
Proof.
  intros H. rewrite set_clause_lookup, bool_decide_eq_false_2 by exact H. reflexivity.
Qed.

Lemma where_id_col (id : JS.value) (r r' : Sql.row) :
  Sql.col r' "id" = Sql.col r "id" -> where_id id r' = where_id id r.
Proof. unfold where_id. intros ->. reflexivity. Qed.

Lemma filter_update_where (id : JS.value) (set : Sql.row -> Sql.row) (t : list Sql.row) :
  (forall r, Sql.col (set r) "id" = Sql.col r "id") ->
  List.filter (where_id id) (update_where (where_id id) set t)
  = map set (List.filter (where_id id) t).
Proof.
  intros Hset. unfold update_where. induction t as [|r t IH]; simpl; [reflexivity|].
  destruct (where_id id r) eqn:E.
  - rewrite (where_id_col id r (set r) (Hset r)), E. simpl. f_equal. exact IH.
  - rewrite E. exact IH.
Qed.

Lemma with_same_categories (db db' : DB) :
  categories db' = categories db -> Constraint.categories_ok db' = Constraint.categories_ok db.
Proof. intros H. apply categories_ok_columns. intros c _. rewrite H. reflexivity. Qed.

Lemma User_selected_col (r : Sql.row) (c : string) :
  Sql.col (select_as User.scope (User.env r) (bare User.public_columns)) c
  = if bool_decide (c ∈ User.public_columns) then Sql.col r c else Sql.Null.
Proof.
  case_bool_decide as H.
  - unfold User.public_columns in H.
    repeat (apply elem_of_cons in H as [->|H]); try reflexivity.
    apply elem_of_nil in H. destruct H.
  - unfold Sql.col. rewrite select_as_lookup_None; [reflexivity|].
    exact H.
Qed.

Lemma Category_selected_col (r : Sql.row) (c : string) :
  Sql.col (select_as Category.scope (Category.env r) (bare Category.columns)) c
  = if bool_decide (c ∈ Category.columns) then Sql.col r c else Sql.Null.
Proof.
  case_bool_decide as H.
  - unfold Category.columns in H.
    repeat (apply elem_of_cons in H as [->|H]); try reflexivity.
    apply elem_of_nil in H. destruct H.
  - unfold Sql.col. rewrite select_as_lookup_None; [reflexivity|].
    exact H.
Qed.

(** An update of users that assigns neither username nor email goes
    through in a store that meets its constraints. *)
Lemma User_updateById_free (db : DB) (id : JS.value) (data : gmap string JS.value) :
  Constraint.consistent db = true ->
  set_clause User.allowedFields data <> ∅ ->
  data !! "username" = None -> data !! "email" = None ->
  User.updateById db id data
  = Ok (with_users (update_where (where_id id) (User.set_row db data) (users db)) db,
        head (map (fun r => select_as User.scope (User.env r) (bare User.public_columns))
                  (map (User.set_row db data) (List.filter (where_id id) (users db))))).
Proof.
  intros Hc Hne Hu He. unfold User.updateById. rewrite bool_decide_eq_false_2 by exact Hne.
  assert (Hcol : forall c, c ∈ ["id"; "username"; "email"; "password"] ->
            forall r, Sql.col (User.set_row db data r) c = Sql.col r c).
  { intros c Hin r. unfold User.set_row. apply set_row_frame.
    - repeat (apply elem_of_cons in Hin as [->|Hin]).
      + apply set_clause_outside. unfold User.allowedFields. not_in_list.
      + apply set_clause_skips, Hu.
      + apply set_clause_skips, He.
      + apply set_clause_outside. unfold User.allowedFields. not_in_list.
      + apply elem_of_nil in Hin. destruct Hin.
    - repeat (apply elem_of_cons in Hin as [->|Hin]); try discriminate.
      apply elem_of_nil in Hin. destruct Hin. }
  set (db2 := with_users _ db).
  assert (Hok : Constraint.consistent db2 = true).
  { unfold Constraint.consistent.
    rewrite (users_ok_columns db db2), (with_same_categories db db2),
      (news_ok_columns db db2); [exact Hc | reflexivity | reflexivity | | reflexivity |].
    - apply column_update_where, Hcol. compute_done.
    - intros c Hin. apply column_update_where, Hcol, Hin. }
  unfold commit. rewrite Hok. cbn [bind_result]. unfold User.findById. subst db2.
  cbn [users with_users].
  rewrite filter_update_where; [reflexivity|]. apply Hcol. compute_done.
Qed.

(** The same for categories: neither name nor slug. *)
Lemma Category_updateById_free (db : DB) (id : JS.value) (data : gmap string JS.value) :
  Constraint.consistent db = true ->
  set_clause Category.allowedFields data <> ∅ ->
  data !! "name" = None -> data !! "slug" = None ->
  Category.updateById db id data
  = Ok (with_categories
          (update_where (where_id id) (Category.set_row db data) (categories db)) db,
        head (map (fun r => select_as Category.scope (Category.env r)
                              (bare Category.columns))
                  (map (Category.set_row db data)
                       (List.filter (where_id id) (categories db))))).
Proof.
  intros Hc Hne Hu He. unfold Category.updateById.
  rewrite bool_decide_eq_false_2 by exact Hne.
  assert (Hcol : forall c, c ∈ ["id"; "name"; "slug"] ->
            forall r, Sql.col (Category.set_row db data r) c = Sql.col r c).
  { intros c Hin r. unfold Category.set_row. apply set_row_frame.
    - repeat (apply elem_of_cons in Hin as [->|Hin]).
      + apply set_clause_outside. unfold Category.allowedFields. not_in_list.
      + apply set_clause_skips, Hu.
      + apply set_clause_skips, He.
      + apply elem_of_nil in Hin. destruct Hin.
    - repeat (apply elem_of_cons in Hin as [->|Hin]); try discriminate.
      apply elem_of_nil in Hin. destruct Hin. }
  set (db2 := with_categories _ db).
  assert (Hok : Constraint.consistent db2 = true).
  { unfold Constraint.consistent.
    rewrite (users_ok_columns db db2), (categories_ok_columns db db2),
      (news_ok_columns db db2); [exact Hc | reflexivity | | reflexivity | | reflexivity].
    - apply column_update_where, Hcol. compute_done.
    - intros c Hin. apply column_update_where, Hcol, Hin. }
  unfold commit. rewrite Hok. cbn [bind_result]. unfold Category.findById. subst db2.
  cbn [categories with_categories].
  rewrite filter_update_where; [reflexivity|]. apply Hcol. compute_done.
Qed.

Lemma toggle_clause (allowed : list string) (b : bool) :
  "is_active" ∈ allowed ->
  set_clause allowed {["is_active" := JS.Bool b]} <> ∅
  /\ set_clause allowed {["is_active" := JS.Bool b]} !! "is_active"
     = Some (Sql.Int (if b then 1 else 0)).
Proof.
  intros Hin.
  assert (H : set_clause allowed {["is_active" := JS.Bool b]} !! "is_active"
              = Some (Sql.Int (if b then 1 else 0))).
  { rewrite set_clause_lookup, bool_decide_eq_true_2 by exact Hin.
    rewrite lookup_singleton_eq. reflexivity. }
  split; [|exact H]. intros E. rewrite E in H. rewrite lookup_empty in H. discriminate H.
Qed.

Lemma toggled_column (allowed : list string) (b : bool) (stamp : Sql.value) (r : Sql.row)
      (c : string) :
  "is_active" ∈ allowed ->
  Sql.col (<["updated_at" := stamp]>
             (assign (set_clause allowed {["is_active" := JS.Bool b]}) r)) c
  = if decide (c = "updated_at") then stamp
    else if decide (c = "is_active") then Sql.Int (if b then 1 else 0)
    else Sql.col r c.
Proof.
  intros Hin. rewrite col_insert.
  destruct (decide ("updated_at" = c)) as [<-|Hne].
  { rewrite decide_True by reflexivity. reflexivity. }
  rewrite decide_False by congruence. rewrite col_assign.
  destruct (decide (c = "is_active")) as [->|Hne'].
  - rewrite (proj2 (toggle_clause allowed b Hin)). reflexivity.
  - rewrite set_clause_skips; [reflexivity|]. apply lookup_singleton_ne. congruence.
Qed.

Lemma truthy_flag (b : bool) :
  JS.truthy (Sql.to_js (Sql.Int (if b then 1 else 0))) = b.
Proof. destruct b; reflexivity. Qed.

End ToggleFacts.

(** X11: in a store that meets its constraints, toggling the status of
    another, existing user answers 200 with the user as stored
    afterwards: the activity flag is the opposite of what it was, and no
    column other than is_active and updated_at differs; news and
    categories are untouched. *)
Theorem toggleUserStatus_flips (db : DB) (req : Request) (found : Sql.row) :
  Constraint.consistent db = true ->
  Sql.col (user req) "id" <> Sql.Int (params_id req) ->
  User.findById db (JS.Num (params_id req)) = Some found ->
  let res := fst (UserController.toggleUserStatus db req) in
  let db' := snd (UserController.toggleUserStatus db req) in
  http_status res = 200
  /\ exists updated,
       data res = Some updated
       /\ User.findById db' (JS.Num (params_id req)) = Some updated
       /\ JS.truthy (Sql.to_js (Sql.col updated "is_active"))
          = negb (JS.truthy (Sql.to_js (Sql.col found "is_active")))
       /\ (forall c, c <> "is_active" -> c <> "updated_at" ->
             Sql.col updated c = Sql.col found c)
       /\ news db' = news db /\ categories db' = categories db.
Proof.
  intros Hc Hself Hf res db'. subst res db'.
  unfold UserController.toggleUserStatus, parseInt_number.
  rewrite bool_decide_eq_false_2
    by (intros E; apply Hself; apply (to_js_inj _ (Sql.Int _)), E).
  rewrite Hf.
  set (b := negb (JS.truthy (Sql.to_js (Sql.col found "is_active")))).
  assert (Hact : "is_active" ∈ User.allowedFields) by compute_done.
  rewrite (User_updateById_free db _ {["is_active" := JS.Bool b]} Hc
             (proj1 (toggle_clause _ b Hact)) eq_refl eq_refl).
  unfold User.findById in Hf.
  destruct (List.filter (where_id (JS.Num (params_id req))) (users db)) as [|u l] eqn:E;
    [discriminate|].
  injection Hf as <-. cbn [map head fst snd http_status data].
  split; [reflexivity|]. eexists. split; [reflexivity|].
  split.
  { unfold User.findById. cbn [users with_users].
    rewrite filter_update_where, E; [reflexivity|].
    intros r. unfold User.set_row. rewrite (toggled_column _ b _ r "id" Hact).
    rewrite !decide_False by discriminate. reflexivity. }
  split.
  { rewrite User_selected_col. rewrite bool_decide_eq_true_2 by compute_done.
    unfold User.set_row. rewrite (toggled_column _ b _ u "is_active" Hact).
    rewrite decide_False by discriminate. rewrite decide_True by reflexivity.
    apply truthy_flag. }
  split; [|split; reflexivity].
  intros c Hc1 Hc2. rewrite !User_selected_col.
  case_bool_decide; [|reflexivity].
  unfold User.set_row. rewrite (toggled_column _ b _ u c Hact).
  rewrite !decide_False by assumption. reflexivity.
Qed.

(** Root deactivates Alice. *)
Lemma toggleUserStatus_flips_witness :
  let req := mkRequest Sample.root 2 ∅ in
  let found := default ∅ (User.findById Sample.db (JS.Num 2)) in
  let res := fst (UserController.toggleUserStatus Sample.db req) in
  let db' := snd (UserController.toggleUserStatus Sample.db req) in
  http_status res = 200
  /\ exists updated,
       data res = Some updated
       /\ User.findById db' (JS.Num (params_id req)) = Some updated
       /\ JS.truthy (Sql.to_js (Sql.col updated "is_active"))
          = negb (JS.truthy (Sql.to_js (Sql.col found "is_active")))
       /\ (forall c, c <> "is_active" -> c <> "updated_at" ->
             Sql.col updated c = Sql.col found c)
       /\ news db' = news Sample.db /\ categories db' = categories Sample.db.
Proof.
  apply (toggleUserStatus_flips Sample.db (mkRequest Sample.root 2 ∅)).
  - vm_compute. reflexivity.
  - discriminate.
  - apply default_Some. vm_compute. reflexivity.
Defined.

(** X12: in a store that meets its constraints, toggling the status of
    an existing category answers 200 with the category as stored
    afterwards: the activity flag is the opposite of what it was, and no
    column other than is_active and updated_at differs; news and users
    are untouched. *)
Theorem toggleCategoryStatus_flips (db : DB) (req : Request) (found : Sql.row) :
  Constraint.consistent db = true ->
  Category.findById db (JS.Num (params_id req)) = Some found ->
  let res := fst (CategoryController.toggleCategoryStatus db req) in
  let db' := snd (CategoryController.toggleCategoryStatus db req) in
  http_status res = 200
  /\ exists updated,
       data res = Some updated
       /\ Category.findById db' (JS.Num (params_id req)) = Some updated
       /\ JS.truthy (Sql.to_js (Sql.col updated "is_active"))
          = negb (JS.truthy (Sql.to_js (Sql.col found "is_active")))
       /\ (forall c, c <> "is_active" -> c <> "updated_at" ->
             Sql.col updated c = Sql.col found c)
       /\ news db' = news db /\ users db' = users db.
Proof.
  intros Hc Hf res db'. subst res db'.
  unfold CategoryController.toggleCategoryStatus.
  rewrite Hf.
  set (b := negb (JS.truthy (Sql.to_js (Sql.col found "is_active")))).
  assert (Hact : "is_active" ∈ Category.allowedFields) by compute_done.
  rewrite (Category_updateById_free db _ {["is_active" := JS.Bool b]} Hc
             (proj1 (toggle_clause _ b Hact)) eq_refl eq_refl).
  unfold Category.findById in Hf.
  destruct (List.filter (where_id (JS.Num (params_id req))) (categories db)) as [|u l] eqn:E;
    [discriminate|].
  injection Hf as <-. cbn [map head fst snd http_status data].
  split; [reflexivity|]. eexists. split; [reflexivity|].
  split.
  { unfold Category.findById. cbn [categories with_categories].
    rewrite filter_update_where, E; [reflexivity|].
    intros r. unfold Category.set_row. rewrite (toggled_column _ b _ r "id" Hact).
    rewrite !decide_False by discriminate. reflexivity. }
  split.
  { rewrite Category_selected_col. rewrite bool_decide_eq_true_2 by compute_done.
    unfold Category.set_row. rewrite (toggled_column _ b _ u "is_active" Hact).
    rewrite decide_False by discriminate. rewrite decide_True by reflexivity.
    apply truthy_flag. }
  split; [|split; reflexivity].
  intros c Hc1 Hc2. rewrite !Category_selected_col.
  case_bool_decide; [|reflexivity].
  unfold Category.set_row. rewrite (toggled_column _ b _ u c Hact).
  rewrite !decide_False by assumption. reflexivity.
Qed.

(** Sport, deactivated. *)
Lemma toggleCategoryStatus_flips_witness :
  let req := mkRequest Sample.root 2 ∅ in
  let found := default ∅ (Category.findById Sample.db (JS.Num 2)) in
  let res := fst (CategoryController.toggleCategoryStatus Sample.db req) in
  let db' := snd (CategoryController.toggleCategoryStatus Sample.db req) in
  http_status res = 200
  /\ exists updated,
       data res = Some updated
       /\ Category.findById db' (JS.Num (params_id req)) = Some updated
       /\ JS.truthy (Sql.to_js (Sql.col updated "is_active"))
          = negb (JS.truthy (Sql.to_js (Sql.col found "is_active")))
       /\ (forall c, c <> "is_active" -> c <> "updated_at" ->
             Sql.col updated c = Sql.col found c)
       /\ news db' = news Sample.db /\ users db' = users Sample.db.
Proof.
  apply (toggleCategoryStatus_flips Sample.db (mkRequest Sample.root 2 ∅)).
  - vm_compute. reflexivity.
  - apply default_Some. vm_compute. reflexivity.
Defined.

(** ** Changing the own status through the update handler *)

Section SelfUpdateFacts.

Lemma get_singleton_ne (k k' : string) (v : JS.value) :
  k <> k' -> JS.get {[k := v]} k' = JS.Undefined.
Proof. intros H. unfold JS.get. rewrite lookup_singleton_ne by exact H. reflexivity. Qed.

(** A body that holds is_active and nothing else passes the checks of
    [updateUser] that come before the update. *)
Lemma updateUser_flag_only (db : DB) (me : Sql.row) (id : Z) (b : bool) (found : Sql.row) :
  User.findById db (JS.Num id) = Some found ->
  UserController.updateUser db (mkRequest me id {["is_active" := JS.Bool b]})
  = match User.updateById db (JS.Num id) {["is_active" := JS.Bool b]} with
    | Err _ => (mkResponse 500 "Failed to update user" None, db)
    | Ok (db', None) => (mkResponse 500 "Failed to update user" None, db')
    | Ok (db', Some updatedUser) =>
        (mkResponse 200 "User updated successfully" (Some updatedUser), db')
    end.
Proof.
  intros Hf. unfold UserController.updateUser. cbn [params_id body user]. rewrite Hf.
  rewrite !get_singleton_ne by discriminate.
  cbn [JS.truthy orb andb]. rewrite andb_false_r. cbn [andb]. reflexivity.
Qed.

End SelfUpdateFacts.

(** C5, where the code goes wrong: the update handler of users guards the
    role only.  A caller who names the own id and sends an is_active flag
    is answered 200, and the own row is stored and handed back with that
    flag: with [false] the caller, an admin included, has deactivated the
    own account. *)
Theorem updateUser_changes_own_status (db : DB) (me found : Sql.row) (id : Z) (b : bool) :
  Constraint.consistent db = true ->
  Sql.col me "id" = Sql.Int id ->
  User.findById db (JS.Num id) = Some found ->
  let req := mkRequest me id {["is_active" := JS.Bool b]} in
  let res := fst (UserController.updateUser db req) in
  let db' := snd (UserController.updateUser db req) in
  http_status res = 200
  /\ (exists updated,
        data res = Some updated
        /\ User.findById db' (JS.Num id) = Some updated
        /\ Sql.col updated "id" = Sql.Int id
        /\ Sql.col updated "is_active" = Sql.Int (if b then 1 else 0))
  /\ (forall u, In u (users db') -> where_id (JS.Num id) u = true ->
        Sql.col u "is_active" = Sql.Int (if b then 1 else 0)).
Proof.
  intros Hc Hme Hf. cbv zeta.
  rewrite (updateUser_flag_only db me id b found Hf).
  assert (Hact : "is_active" ∈ User.allowedFields) by compute_done.
  rewrite (User_updateById_free db _ {["is_active" := JS.Bool b]} Hc
             (proj1 (toggle_clause _ b Hact)) eq_refl eq_refl).
  assert (Hid : forall r, Sql.col (User.set_row db {["is_active" := JS.Bool b]} r) "id"
                          = Sql.col r "id").
  { intros r. unfold User.set_row. rewrite (toggled_column _ b _ r "id" Hact).
    rewrite !decide_False by discriminate. reflexivity. }
  assert (Hflag : forall r, Sql.col (User.set_row db {["is_active" := JS.Bool b]} r)
                                    "is_active" = Sql.Int (if b then 1 else 0)).
  { intros r. unfold User.set_row. rewrite (toggled_column _ b _ r "is_active" Hact).
    rewrite decide_False by discriminate. rewrite decide_True by reflexivity. reflexivity. }
  unfold User.findById in Hf.
  destruct (List.filter (where_id (JS.Num id)) (users db)) as [|u l] eqn:E;
    [discriminate|].
  assert (Hu : where_id (JS.Num id) u = true).
  { assert (Hin : In u (List.filter (where_id (JS.Num id)) (users db)))
      by (rewrite E; left; reflexivity).
    apply filter_In in Hin. apply Hin. }
  cbn [map head fst snd http_status data].
  split; [reflexivity|]. split.
  - eexists. split; [reflexivity|]. split.
    + unfold User.findById. cbn [users with_users].
      rewrite filter_update_where, E by exact Hid. reflexivity.
    + rewrite !User_selected_col. rewrite !bool_decide_eq_true_2 by compute_done.
      rewrite Hid, Hflag. split; [apply where_id_Num, Hu | reflexivity].
  - cbn [users with_users]. intros u' Hin Hw.
    apply updated_rows in Hin as (u0 & _ & _ & ->); [apply Hflag | exact Hw].
Qed.

(** The admin of the sample deactivates the own account. *)
Lemma updateUser_changes_own_status_witness :
  http_status (fst (UserController.updateUser Sample.db
                      (mkRequest Sample.root 1 {["is_active" := JS.Bool false]}))) = 200
  /\ (exists updated,
        data (fst (UserController.updateUser Sample.db
                     (mkRequest Sample.root 1 {["is_active" := JS.Bool false]})))
        = Some updated
        /\ User.findById
             (snd (UserController.updateUser Sample.db
                     (mkRequest Sample.root 1 {["is_active" := JS.Bool false]})))
             (JS.Num 1) = Some updated
        /\ Sql.col updated "id" = Sql.Int 1
        /\ Sql.col updated "is_active" = Sql.Int 0)
  /\ (forall u,
        In u (users (snd (UserController.updateUser Sample.db
                            (mkRequest Sample.root 1 {["is_active" := JS.Bool false]})))) ->
        where_id (JS.Num 1) u = true -> Sql.col u "is_active" = Sql.Int 0).
Proof.
  refine (updateUser_changes_own_status Sample.db Sample.root
            (default ∅ (User.findById Sample.db (JS.Num 1))) 1 false _ _ _).
  - vm_compute. reflexivity.
  - vm_compute. reflexivity.
  - apply default_Some. vm_compute. reflexivity.
Defined.

(** ** Pages of users and news *)



(** ** Constraints under an update of one row *)

Section RowUpdateFacts.

Lemma column_cons (c : string) (x : Sql.row) (t : list Sql.row) :
  Constraint.column c (x :: t) = Sql.col x c :: Constraint.column c t.
Proof. reflexivity. Qed.

Lemma update_where_cons (p : Sql.row -> bool) (set : Sql.row -> Sql.row) (x : Sql.row)
      (t : list Sql.row) :
  update_where p set (x :: t) = (if p x then set x else x) :: update_where p set t.
Proof. reflexivity. Qed.

Lemma not_null_update (c : string) (p : Sql.row -> bool) (set : Sql.row -> Sql.row)
      (t : list Sql.row) :
  Constraint.not_null c t = true ->
  (forall r, Sql.is_null (Sql.col (set r) c) = false) ->
  Constraint.not_null c (update_where p set t) = true.
Proof.
  unfold Constraint.not_null. rewrite !forallb_forall. intros H Hset v Hv.
  apply In_column in Hv as [r' [Hr' <-]]. apply In_update_where in Hr' as [r [Hr ->]].
  destruct (p r); [rewrite Hset; reflexivity|].
  apply H, In_column. exists r. auto.
Qed.

(** At most one row has the id. *)
Lemma where_id_unique (id : JS.value) (x : Sql.row) (t : list Sql.row) :
  NoDup (Constraint.column "id" (x :: t)) -> where_id id x = true ->
  forall r, In r t -> where_id id r = false.
Proof.
  rewrite column_cons. intros Hnd Hx r Hr. apply NoDup_cons in Hnd as [Hnot _].
  destruct (where_id id r) eqn:E; [|reflexivity]. exfalso. apply Hnot.
  unfold where_id in Hx, E. apply eqb_true in Hx, E.
  apply list_elem_of_In, In_column. exists r. split; [exact Hr | congruence].
Qed.

Lemma update_where_none (p : Sql.row -> bool) (set : Sql.row -> Sql.row) (t : list Sql.row) :
  (forall r, In r t -> p r = false) -> update_where p set t = t.
Proof.
  intros H. unfold update_where. rewrite <- (map_id t) at 2. apply map_ext_in.
  intros r Hr. rewrite (H r Hr). reflexivity.
Qed.

(** Writing a value that no other row holds keeps a column UNIQUE. *)
Lemma unique_update (c : string) (id : JS.value) (v : Sql.value)
      (set : Sql.row -> Sql.row) (t : list Sql.row) :
  NoDup (Constraint.column "id" t) ->
  Constraint.unique c t = true ->
  (forall r, Sql.col (set r) c = v) ->
  (forall r, In r t -> where_id id r = false -> Sql.col r c <> v) ->
  Constraint.unique c (update_where (where_id id) set t) = true.
Proof.
  unfold Constraint.unique. rewrite !bool_decide_eq_true.
  intros Hid Huniq Hset Hother.
  induction t as [|x t IH]; [exact Huniq|].
  assert (Hid' : NoDup (Constraint.column "id" t)).
  { rewrite column_cons in Hid. apply NoDup_cons in Hid. tauto. }
  assert (Htail : NoDup (List.filter (fun w => negb (Sql.is_null w)) (Constraint.column c t))).
  { rewrite column_cons in Huniq. simpl List.filter in Huniq.
    destruct (negb (Sql.is_null (Sql.col x c))); [apply NoDup_cons in Huniq; tauto|].
    exact Huniq. }
  assert (Hother' : forall r, In r t -> where_id id r = false -> Sql.col r c <> v).
  { intros r Hr. apply Hother. right. exact Hr. }
  rewrite update_where_cons, column_cons.
  destruct (where_id id x) eqn:Ex.
  - rewrite (update_where_none _ set t) by (apply (where_id_unique id x t Hid Ex)).
    rewrite Hset. simpl List.filter.
    destruct (negb (Sql.is_null v)); [|exact Htail].
    apply NoDup_cons. split; [|exact Htail].
    intros Hin. apply list_elem_of_In, filter_In in Hin as [Hin _].
    apply In_column in Hin as [r [Hr Hv]].
    apply (Hother' r Hr); [|exact Hv]. apply (where_id_unique id x t Hid Ex r Hr).
  - simpl List.filter.
    destruct (negb (Sql.is_null (Sql.col x c))) eqn:Enn;
      [|apply IH; assumption].
    apply NoDup_cons. split; [|apply IH; assumption].
    intros Hin. apply list_elem_of_In, filter_In in Hin as [Hin _].
    apply In_column in Hin as [r' [Hr' Hv]].
    apply In_update_where in Hr' as [r [Hr ->]].
    destruct (where_id id r) eqn:Er.
    + rewrite Hset in Hv. apply (Hother x); [left; reflexivity | exact Ex | congruence].
    + rewrite column_cons in Huniq. simpl List.filter in Huniq. rewrite Enn in Huniq.
      apply NoDup_cons in Huniq as [Hnot _]. apply Hnot.
      apply list_elem_of_In, filter_In. split.
      * apply In_column. exists r. auto.
      * exact Enn.
Qed.

Lemma consistent_columns (db : DB) :
  Constraint.consistent db = true ->
  NoDup (Constraint.column "id" (users db))
  /\ NoDup (Constraint.column "id" (categories db))
  /\ NoDup (Constraint.column "id" (news db))
  /\ forallb Constraint.is_int (Constraint.column "id" (categories db)) = true
  /\ forallb Constraint.is_int (Constraint.column "id" (news db)) = true.
Proof.
  unfold Constraint.consistent, Constraint.users_ok, Constraint.categories_ok,
    Constraint.news_ok, Constraint.primary_key.
  rewrite !andb_true_iff, !bool_decide_eq_true. tauto.
Qed.

(** A row other than the one with the id, in a table whose ids are
    integers. *)
Lemma other_row (id : Z) (r : Sql.row) (t : list Sql.row) :
  forallb Constraint.is_int (Constraint.column "id" t) = true -> In r t -> id <> 0 ->
  (if JS.truthy (JS.Num id)
   then negb (Sql.is_null (Sql.col r "id")) && negb (Sql.is_null (Sql.bind (JS.Num id)))
        && negb (bool_decide (Sql.col r "id" = Sql.bind (JS.Num id)))
   else true)
  = negb (where_id (JS.Num id) r).
Proof.
  intros Hint Hr Hid. rewrite forallb_forall in Hint.
  assert (Hi : Constraint.is_int (Sql.col r "id") = true).
  { apply Hint, In_column. exists r. auto. }
  unfold JS.truthy. apply Z.eqb_neq in Hid. rewrite Hid. cbn [negb].
  unfold where_id, Sql.eqb. cbn [Sql.bind Sql.is_null negb].
  destruct (Sql.col r "id"); try discriminate. cbn [Sql.is_null negb andb]. reflexivity.
Qed.

End RowUpdateFacts.

(** ** Renaming goes through *)

Section RenameSuccessFacts.

Lemma get_insert_ne (k k' : string) (v : JS.value) (o : gmap string JS.value) :
  k <> k' -> JS.get (<[k := v]> o) k' = JS.get o k'.
Proof. intros H. unfold JS.get. rewrite lookup_insert_ne by exact H. reflexivity. Qed.

Lemma get_insert_eq (k : string) (v : JS.value) (o : gmap string JS.value) :
  JS.get (<[k := v]> o) k = v.
Proof. unfold JS.get. rewrite lookup_insert_eq. reflexivity. Qed.

Lemma get_Str_lookup (o : gmap string JS.value) (k s : string) :
  JS.get o k = JS.Str s -> o !! k = Some (JS.Str s).
Proof. unfold JS.get. destruct (o !! k); [congruence | discriminate]. Qed.

Lemma get_lookup_None (o : gmap string JS.value) (k : string) :
  o !! k = None -> JS.get o k = JS.Undefined.
Proof. unfold JS.get. intros ->. reflexivity. Qed.

Lemma truthy_Str (s : string) : s <> "" -> JS.truthy (JS.Str s) = true.
Proof. intros H. simpl. apply String.eqb_neq in H. rewrite H. reflexivity. Qed.

Lemma set_clause_nonempty (allowed : list string) (data : gmap string JS.value)
      (k : string) (v : JS.value) :
  k ∈ allowed -> data !! k = Some v -> set_clause allowed data <> ∅.
Proof.
  intros Hk Hv E.
  assert (H : set_clause allowed data !! k = Some (Sql.bind v)).
  { rewrite set_clause_lookup, bool_decide_eq_true_2, Hv by exact Hk. reflexivity. }
  rewrite E, lookup_empty in H. discriminate H.
Qed.

Lemma set_row_written (allowed : list string) (data : gmap string JS.value)
      (extra : gmap string Sql.value) (stamp : Sql.value) (r : Sql.row) (c : string)
      (v : JS.value) :
  c ∈ allowed -> data !! c = Some v -> extra !! c = None -> c <> "updated_at" ->
  Sql.col (<["updated_at" := stamp]> (assign extra (assign (set_clause allowed data) r))) c
  = Sql.bind v.
Proof.
  intros Hc Hv He Hne. rewrite col_insert. destruct (decide ("updated_at" = c)); [congruence|].
  rewrite col_assign, He, col_assign, set_clause_lookup, bool_decide_eq_true_2, Hv by exact Hc.
  reflexivity.
Qed.

Lemma set_row_kept (allowed : list string) (data : gmap string JS.value)
      (extra : gmap string Sql.value) (stamp : Sql.value) (r : Sql.row) (c : string) :
  set_clause allowed data !! c = None -> extra !! c = None -> c <> "updated_at" ->
  Sql.col (<["updated_at" := stamp]> (assign extra (assign (set_clause allowed data) r))) c
  = Sql.col r c.
Proof.
  intros Hs He Hne. rewrite col_insert. destruct (decide ("updated_at" = c)); [congruence|].
  rewrite col_assign, He, col_assign, Hs. reflexivity.
Qed.

Lemma assign_empty (r : Sql.row) : assign ∅ r = r.
Proof. unfold assign. apply (left_id ∅ (∪)). Qed.

Lemma found_some {A B : Type} (sel : A -> B) (set : A -> A) (l : list A) (x : B) :
  head (map sel l) = Some x -> is_Some (head (map sel (map set l))).
Proof. destruct l; [discriminate|]. intros _. eexists. reflexivity. Qed.

(** No other category has the name or the slug: the existence check finds
    nothing. *)
Lemma Category_checkExists_None (db : DB) (id : Z) (name slug : string) :
  Constraint.consistent db = true -> id <> 0 ->
  (forall c, In c (categories db) -> Sql.col c "id" <> Sql.Int id ->
     Sql.col c "name" <> Sql.Text name /\ Sql.col c "slug" <> Sql.Text slug) ->
  Category.checkExists db (JS.Str name) (JS.Str slug) (JS.Num id) = None.
Proof.
  intros Hc Hid Hother. apply consistent_columns in Hc as (_ & _ & _ & Hint & _).
  unfold Category.checkExists.
  rewrite !filter_none; [reflexivity | |].
  - intros r Hr. rewrite (other_row id r _ Hint Hr Hid).
    destruct (where_id (JS.Num id) r) eqn:E; [apply andb_false_r|].
    rewrite andb_true_r. destruct (Sql.eqb _ _) eqn:Es; [|reflexivity].
    apply eqb_true in Es. exfalso. apply (Hother r Hr); [|exact Es].
    intros Hi. apply where_id_Num in Hi. congruence.
  - intros r Hr. rewrite (other_row id r _ Hint Hr Hid).
    destruct (where_id (JS.Num id) r) eqn:E; [apply andb_false_r|].
    rewrite andb_true_r. destruct (Sql.eqb _ _) eqn:Es; [|reflexivity].
    apply eqb_true in Es. exfalso.
    assert (Hi : Sql.col r "id" <> Sql.Int id).
    { intros Hi. apply where_id_Num in Hi. congruence. }
    destruct (Hother r Hr Hi) as [Hn _]. apply Hn. exact Es.
Qed.

Lemma News_existsBySlug_false (db : DB) (id : Z) (slug : string) :
  Constraint.consistent db = true -> id <> 0 ->
  (forall n, In n (news db) -> Sql.col n "id" <> Sql.Int id ->
     Sql.col n "slug" <> Sql.Text slug) ->
  News.existsBySlug db (JS.Str slug) (JS.Num id) = false.
Proof.
  intros Hc Hid Hother. apply consistent_columns in Hc as (_ & _ & _ & _ & Hint).
  unfold News.existsBySlug.
  rewrite filter_none; [reflexivity|].
  intros r Hr. rewrite (other_row id r _ Hint Hr Hid).
  destruct (where_id (JS.Num id) r) eqn:E; [apply andb_false_r|].
  rewrite andb_true_r. destruct (Sql.eqb _ _) eqn:Es; [|reflexivity].
  apply eqb_true in Es. exfalso. apply (Hother r Hr); [|exact Es].
  intros Hi. apply where_id_Num in Hi. congruence.
Qed.

Lemma others_differ (id : Z) (c : string) (v : Sql.value) (t : list Sql.row) :
  (forall r, In r t -> Sql.col r "id" <> Sql.Int id -> Sql.col r c <> v) ->
  forall r, In r t -> where_id (JS.Num id) r = false -> Sql.col r c <> v.
Proof.
  intros H r Hr Hw. apply H; [exact Hr|]. intros Hi. apply where_id_Num in Hi. congruence.
Qed.

(** The update of a category that writes a name and a slug no other
    category holds is accepted and hands the category back. *)
Lemma Category_updateById_rename (db : DB) (id : Z) (data : gmap string JS.value)
      (name slug : string) (found : Sql.row) :
  Constraint.consistent db = true ->
  data !! "name" = Some (JS.Str name) -> data !! "slug" = Some (JS.Str slug) ->
  Category.findById db (JS.Num id) = Some found ->
  (forall c, In c (categories db) -> Sql.col c "id" <> Sql.Int id ->
     Sql.col c "name" <> Sql.Text name /\ Sql.col c "slug" <> Sql.Text slug) ->
  exists db' updated, Category.updateById db (JS.Num id) data = Ok (db', Some updated).
Proof.
  intros Hc Hname Hslug Hf Hother. unfold Category.updateById.
  rewrite bool_decide_eq_false_2
    by (apply (set_clause_nonempty _ _ "name" (JS.Str name)); [compute_done | exact Hname]).
  set (set := Category.set_row db data).
  assert (Hset_id : forall r, Sql.col (set r) "id" = Sql.col r "id").
  { intros r. subst set. unfold Category.set_row. rewrite <- (assign_empty (assign _ r)).
    apply set_row_kept; [|apply lookup_empty|discriminate].
    apply set_clause_outside. unfold Category.allowedFields. not_in_list. }
  assert (Hset_name : forall r, Sql.col (set r) "name" = Sql.Text name).
  { intros r. subst set. unfold Category.set_row. rewrite <- (assign_empty (assign _ r)).
    rewrite (set_row_written _ _ _ _ _ "name" (JS.Str name));
      [reflexivity | compute_done | exact Hname | apply lookup_empty | discriminate]. }
  assert (Hset_slug : forall r, Sql.col (set r) "slug" = Sql.Text slug).
  { intros r. subst set. unfold Category.set_row. rewrite <- (assign_empty (assign _ r)).
    rewrite (set_row_written _ _ _ _ _ "slug" (JS.Str slug));
      [reflexivity | compute_done | exact Hslug | apply lookup_empty | discriminate]. }
  set (db2 := with_categories _ db).
  assert (Hok : Constraint.consistent db2 = true).
  { pose proof (consistent_columns db Hc) as (_ & Hnd & _).
    pose proof Hc as Hc'. apply consistent_iff in Hc' as (Hu & Hcat & Hn).
    apply consistent_iff. split; [|split].
    - rewrite (users_ok_columns db db2); [exact Hu | reflexivity].
    - unfold Constraint.categories_ok in *. rewrite !andb_true_iff in *.
      destruct Hcat as ((((H1 & H2) & H3) & H4) & H5).
      subst db2. cbn [categories with_categories].
      repeat split.
      + unfold Constraint.primary_key in *.
        rewrite (column_update_where "id" _ _ _ Hset_id). exact H1.
      + apply not_null_update; [exact H2|]. intros r. rewrite Hset_name. reflexivity.
      + apply (unique_update "name" _ (Sql.Text name)); [exact Hnd | exact H3 | exact Hset_name|].
        apply others_differ. intros r Hr Hi. apply (Hother r Hr Hi).
      + apply not_null_update; [exact H4|]. intros r. rewrite Hset_slug. reflexivity.
      + apply (unique_update "slug" _ (Sql.Text slug)); [exact Hnd | exact H5 | exact Hset_slug|].
        apply others_differ. intros r Hr Hi. apply (Hother r Hr Hi).
    - rewrite (news_ok_columns db db2); [exact Hn | reflexivity | | reflexivity].
      subst db2. cbn [categories with_categories].
      apply column_update_where, Hset_id. }
  unfold commit. rewrite Hok. cbn [bind_result].
  unfold Category.findById in *. subst db2. cbn [categories with_categories].
  rewrite filter_update_where by exact Hset_id.
  destruct (found_some _ set _ _ Hf) as [x Hx]. rewrite Hx. eauto.
Qed.

Lemma updateCategory_rename_succeeds (db : DB) (req : Request) (t : string)
      (found : Sql.row) :
  Constraint.consistent db = true -> params_id req <> 0 ->
  t <> "" -> Category.generateSlug t <> "" ->
  JS.get (body req) "name" = JS.Str t -> body req !! "slug" = None ->
  Category.findById db (JS.Num (params_id req)) = Some found ->
  (forall c, In c (categories db) -> Sql.col c "id" <> Sql.Int (params_id req) ->
     Sql.col c "name" <> Sql.Text t
     /\ Sql.col c "slug" <> Sql.Text (Category.generateSlug t)) ->
  http_status (fst (CategoryController.updateCategory db req)) = 200.
Proof.
  intros Hc Hid Ht Hg Hname Hslug Hf Hother.
  unfold CategoryController.updateCategory. rewrite Hf.
  rewrite (fill_slug_generates _ _ _ t Hname Ht Hslug).
  rewrite get_insert_eq, get_insert_ne, Hname by discriminate.
  rewrite (truthy_Str t Ht). cbn [orb]. unfold JS.or.
  rewrite (truthy_Str t Ht), (truthy_Str _ Hg).
  rewrite (Category_checkExists_None db _ t _ Hc Hid Hother).
  destruct (Category_updateById_rename db (params_id req)
              (<["slug" := JS.Str (Category.generateSlug t)]> (body req))
              t (Category.generateSlug t) found Hc) as (db' & updated & Hupd);
    [ rewrite lookup_insert_ne by discriminate; apply get_Str_lookup, Hname
    | apply lookup_insert_eq | exact Hf | exact Hother |].
  rewrite Hupd. reflexivity.
Qed.

(** The same for news: a new title and the slug made from it, with the
    content and the category left alone. *)
Lemma News_updateById_rename (db : DB) (id : Z) (data : gmap string JS.value)
      (title slug : string) (article : Sql.row) :
  Constraint.consistent db = true ->
  data !! "title" = Some (JS.Str title) -> data !! "slug" = Some (JS.Str slug) ->
  data !! "content" = None -> data !! "category_id" = None ->
  News.findById db (JS.Num id) = Some article ->
  (forall n, In n (news db) -> Sql.col n "id" <> Sql.Int id ->
     Sql.col n "slug" <> Sql.Text slug) ->
  exists db' updated, News.updateById db (JS.Num id) data = Ok (db', Some updated).
Proof.
  intros Hc Htitle Hslug Hcontent Hcat Hf Hother. unfold News.updateById.
  rewrite bool_decide_eq_false_2
    by (apply (set_clause_nonempty _ _ "title" (JS.Str title)); [compute_done | exact Htitle]).
  set (set := News.set_row db data).
  assert (Hkept : forall c, c ∈ ["id"; "content"; "author_id"; "category_id"] ->
            forall r, Sql.col (set r) c = Sql.col r c).
  { intros c Hin r. subst set. unfold News.set_row.
    repeat (apply elem_of_cons in Hin as [->|Hin]).
    - apply set_row_kept; [|apply published_at_clause_lookup|]; try discriminate.
      apply set_clause_outside. unfold News.allowedFields. not_in_list.
    - apply set_row_kept; [|apply published_at_clause_lookup|]; try discriminate.
      apply set_clause_skips, Hcontent.
    - apply set_row_kept; [|apply published_at_clause_lookup|]; try discriminate.
      apply set_clause_outside. unfold News.allowedFields. not_in_list.
    - apply set_row_kept; [|apply published_at_clause_lookup|]; try discriminate.
      apply set_clause_skips, Hcat.
    - apply elem_of_nil in Hin. destruct Hin. }
  assert (Hset_title : forall r, Sql.col (set r) "title" = Sql.Text title).
  { intros r. subst set. unfold News.set_row.
    rewrite (set_row_written _ _ _ _ _ "title" (JS.Str title));
      [reflexivity | compute_done | exact Htitle
       | apply published_at_clause_lookup; discriminate | discriminate]. }
  assert (Hset_slug : forall r, Sql.col (set r) "slug" = Sql.Text slug).
  { intros r. subst set. unfold News.set_row.
    rewrite (set_row_written _ _ _ _ _ "slug" (JS.Str slug));
      [reflexivity | compute_done | exact Hslug
       | apply published_at_clause_lookup; discriminate | discriminate]. }
  set (db2 := with_news _ db).
  assert (Hok : Constraint.consistent db2 = true).
  { pose proof (consistent_columns db Hc) as (_ & _ & Hnd & _).
    pose proof Hc as Hc'. apply consistent_iff in Hc' as (Hu & Hcats & Hn).
    apply consistent_iff. split; [|split].
    - rewrite (users_ok_columns db db2); [exact Hu | reflexivity].
    - rewrite (categories_ok_columns db db2); [exact Hcats | reflexivity].
    - unfold Constraint.news_ok in *. rewrite !andb_true_iff in *.
      destruct Hn as (((((((H1 & H2) & H3) & H4) & H5) & H6) & H7) & H8).
      subst db2. cbn [news users categories with_news].
      repeat split.
      + unfold Constraint.primary_key in *.
        rewrite (column_update_where "id" _ _ _ (Hkept "id" ltac:(compute_done))). exact H1.
      + apply not_null_update; [exact H2|]. intros r. rewrite Hset_title. reflexivity.
      + unfold Constraint.not_null in *.
        rewrite (column_update_where "content" _ _ _ (Hkept "content" ltac:(compute_done))).
        exact H3.
      + apply not_null_update; [exact H4|]. intros r. rewrite Hset_slug. reflexivity.
      + apply (unique_update "slug" _ (Sql.Text slug)); [exact Hnd | exact H5 | exact Hset_slug|].
        apply others_differ. exact Hother.
      + unfold Constraint.not_null in *.
        rewrite (column_update_where "author_id" _ _ _
                   (Hkept "author_id" ltac:(compute_done))).
        exact H6.
      + unfold Constraint.references in *.
        rewrite (column_update_where "category_id" _ _ _
                   (Hkept "category_id" ltac:(compute_done))).
        exact H7.
      + unfold Constraint.references in *.
        rewrite (column_update_where "author_id" _ _ _
                   (Hkept "author_id" ltac:(compute_done))).
        exact H8. }
  unfold commit. rewrite Hok. cbn [bind_result].
  assert (Hex : Spec.exists_in (JS.Num id) (news db2)).
  { subst db2. cbn [news with_news].
    apply updated_rows_exist; [apply (Hkept "id"); compute_done|].
    apply News_findById_stored in Hf as (n & Hn & Hw & _). exists n. auto. }
  apply News_findById_complete in Hex as [x Hx]. rewrite Hx. eauto.
Qed.

Lemma updateNews_rename_succeeds (db : DB) (req : Request) (t : string)
      (article : Sql.row) :
  Constraint.consistent db = true -> params_id req <> 0 -> t <> "" ->
  JS.get (body req) "title" = JS.Str t -> body req !! "slug" = None ->
  body req !! "content" = None -> body req !! "category_id" = None ->
  News.findById db (JS.Num (params_id req)) = Some article ->
  Spec.may_modify (user req) article ->
  (forall n, In n (news db) -> Sql.col n "id" <> Sql.Int (params_id req) ->
     Sql.col n "slug" <> Sql.Text (News.generateSlug t)) ->
  http_status (fst (NewsController.updateNews db req)) = 200.
Proof.
  intros Hc Hid Ht Htitle Hslug Hcontent Hcat Hf Hmay Hother.
  unfold NewsController.updateNews. rewrite Hf.
  rewrite (proj2 (not_owner_nor_staff_false _ _) Hmay).
  rewrite (fill_slug_generates _ _ _ t Htitle Ht Hslug).
  rewrite get_insert_eq, get_insert_ne, (get_lookup_None _ _ Hcat) by discriminate.
  rewrite (News_existsBySlug_false db _ _ Hc Hid Hother), andb_false_r.
  cbn [JS.truthy andb].
  destruct (News_updateById_rename db (params_id req)
              (<["slug" := JS.Str (News.generateSlug t)]> (body req))
              t (News.generateSlug t) article Hc) as (db' & updated & Hupd);
    [ rewrite lookup_insert_ne by discriminate; apply get_Str_lookup, Htitle
    | apply lookup_insert_eq
    | rewrite lookup_insert_ne by discriminate; exact Hcontent
    | rewrite lookup_insert_ne by discriminate; exact Hcat
    | exact Hf | exact Hother |].
  rewrite Hupd. reflexivity.
Qed.

End RenameSuccessFacts.

(** ** Renaming regenerates the slug *)

(** C10: an update of a News article whose payload holds a title and no
    slug stores, and shows in the row handed back, the slug generated from
    the new title; likewise a Category update with a name and no slug
    stores the slug generated from the new name.  The slug held before
    plays no part.  This is what every such update that is answered 200
    has done; and the update is answered 200 when the store meets its
    constraints, the article (category) exists, the caller may modify it
    and no other article (category) holds the generated slug (or the new
    name), the payload leaving content and category alone. *)
Theorem rename_regenerates_slug (db : DB) (req : Request) (t : string) :
  t <> "" -> body req !! "slug" = None ->
  (forall res db',
     http_status res = 200 ->
     JS.get (body req) "title" = JS.Str t ->
     NewsController.updateNews db req = (res, db') ->
     is_Some (data res)
     /\ Spec.exists_in (JS.Num (params_id req)) (news db')
     /\ Spec.slug_is (Sql.Text (News.generateSlug t)) (JS.Num (params_id req))
          (news db') (data res))
  /\ (forall res db',
        http_status res = 200 ->
        JS.get (body req) "name" = JS.Str t ->
        CategoryController.updateCategory db req = (res, db') ->
        is_Some (data res)
        /\ Spec.exists_in (JS.Num (params_id req)) (categories db')
        /\ Spec.slug_is (Sql.Text (Category.generateSlug t)) (JS.Num (params_id req))
             (categories db') (data res))
  /\ (forall article,
        Constraint.consistent db = true -> params_id req <> 0 ->
        JS.get (body req) "title" = JS.Str t ->
        body req !! "content" = None -> body req !! "category_id" = None ->
        News.findById db (JS.Num (params_id req)) = Some article ->
        Spec.may_modify (user req) article ->
        (forall n, In n (news db) -> Sql.col n "id" <> Sql.Int (params_id req) ->
           Sql.col n "slug" <> Sql.Text (News.generateSlug t)) ->
        http_status (fst (NewsController.updateNews db req)) = 200)
  /\ (forall found,
        Constraint.consistent db = true -> params_id req <> 0 ->
        Category.generateSlug t <> "" ->
        JS.get (body req) "name" = JS.Str t ->
        Category.findById db (JS.Num (params_id req)) = Some found ->
        (forall c, In c (categories db) -> Sql.col c "id" <> Sql.Int (params_id req) ->
           Sql.col c "name" <> Sql.Text t
           /\ Sql.col c "slug" <> Sql.Text (Category.generateSlug t)) ->
        http_status (fst (CategoryController.updateCategory db req)) = 200).
Proof.
  intros Ht Hslug. split; [|split; [|split]].
  - intros res db' Hcode Htitle Hrun.
    destruct (updateNews_200 db req res db' Hrun Hcode)
      as (updateData & updated & Hfill & Hupd & Hdata).
    rewrite (fill_slug_generates _ _ _ t Htitle Ht Hslug) in Hfill.
    injection Hfill as <-.
    apply News_updateById_Ok in Hupd as (-> & Hfind & _). simpl news in *.
    assert (Hstored : forall n', In n' (update_where (where_id (JS.Num (params_id req)))
                        (News.set_row db (<["slug" := JS.Str (News.generateSlug t)]> (body req)))
                        (news db)) ->
                      where_id (JS.Num (params_id req)) n' = true ->
                      Sql.col n' "slug" = Sql.Text (News.generateSlug t)).
    { intros n' Hin Hid. apply updated_rows in Hin as [n [_ [_ ->]]]; [|exact Hid].
      rewrite (News_set_row_slug _ _ _ (JS.Str (News.generateSlug t)));
        [reflexivity | apply lookup_insert_eq]. }
    symmetry in Hfind. apply News_findById_stored in Hfind as (n' & Hin & Hid & _ & Hs).
    simpl news in Hin.
    split; [rewrite Hdata; eexists; reflexivity|].
    split; [exists n'; auto|].
    split; [exact Hstored|].
    intros x Hx. rewrite Hdata in Hx. injection Hx as <-.
    rewrite Hs. apply Hstored; assumption.
  - intros res db' Hcode Hname Hrun.
    destruct (updateCategory_200 db req res db' Hrun Hcode)
      as (updateData & updated & Hfill & Hupd & Hdata).
    rewrite (fill_slug_generates _ _ _ t Hname Ht Hslug) in Hfill.
    injection Hfill as <-.
    apply Category_updateById_Ok in Hupd as (-> & Hfind & _). simpl categories in *.
    assert (Hstored : forall c', In c' (update_where (where_id (JS.Num (params_id req)))
                        (Category.set_row db
                           (<["slug" := JS.Str (Category.generateSlug t)]> (body req)))
                        (categories db)) ->
                      where_id (JS.Num (params_id req)) c' = true ->
                      Sql.col c' "slug" = Sql.Text (Category.generateSlug t)).
    { intros c' Hin Hid. apply updated_rows in Hin as [c [_ [_ ->]]]; [|exact Hid].
      rewrite (Category_set_row_slug _ _ _ (JS.Str (Category.generateSlug t)));
        [reflexivity | apply lookup_insert_eq]. }
    symmetry in Hfind. apply Category_findById_stored in Hfind as (c' & Hin & Hid & Hs).
    simpl categories in Hin.
    split; [rewrite Hdata; eexists; reflexivity|].
    split; [exists c'; auto|].
    split; [exact Hstored|].
    intros x Hx. rewrite Hdata in Hx. injection Hx as <-.
    rewrite Hs. apply Hstored; assumption.
  - intros article Hc Hid Htitle Hcontent Hcat Hf Hmay Hother.
    exact (updateNews_rename_succeeds db req t article Hc Hid Ht Htitle Hslug Hcontent Hcat
             Hf Hmay Hother).
  - intros found Hc Hid Hg Hname Hf Hother.
    exact (updateCategory_rename_succeeds db req t found Hc Hid Ht Hg Hname Hslug Hf Hother).
Qed.

(** Alice retitles her article and the admin renames Sport: both updates
    are answered 200, and the stored slugs follow the title and the name. *)
Lemma rename_regenerates_slug_witness :
  (http_status (fst (NewsController.updateNews Sample.db
                       (mkRequest Sample.alice 1 Sample.retitle))) = 200
   /\ Spec.slug_is (Sql.Text "hello-world-2") (JS.Num 1)
        (news (snd (NewsController.updateNews Sample.db
                      (mkRequest Sample.alice 1 Sample.retitle))))
        (data (fst (NewsController.updateNews Sample.db
                      (mkRequest Sample.alice 1 Sample.retitle)))))
  /\ (http_status (fst (CategoryController.updateCategory Sample.db
                          (mkRequest Sample.root 2 Sample.rename))) = 200
      /\ Spec.slug_is (Sql.Text "winter-sports") (JS.Num 2)
           (categories (snd (CategoryController.updateCategory Sample.db
                               (mkRequest Sample.root 2 Sample.rename))))
           (data (fst (CategoryController.updateCategory Sample.db
                         (mkRequest Sample.root 2 Sample.rename))))).
Proof.
  assert (HN : "Hello, World_2" <> "") by discriminate.
  assert (HC : "Winter Sports" <> "") by discriminate.
  assert (HsN : body (mkRequest Sample.alice 1 Sample.retitle) !! "slug" = None)
    by (vm_compute; reflexivity).
  assert (HsC : body (mkRequest Sample.root 2 Sample.rename) !! "slug" = None)
    by (vm_compute; reflexivity).
  pose proof (rename_regenerates_slug Sample.db (mkRequest Sample.alice 1 Sample.retitle)
                "Hello, World_2" HN HsN) as (Hn & _ & Hn200 & _).
  pose proof (rename_regenerates_slug Sample.db (mkRequest Sample.root 2 Sample.rename)
                "Winter Sports" HC HsC) as (_ & Hc & _ & Hc200).
  assert (N200 : http_status (fst (NewsController.updateNews Sample.db
                   (mkRequest Sample.alice 1 Sample.retitle))) = 200).
  { apply (Hn200 (default ∅ (News.findById Sample.db (JS.Num 1)))).
    - vm_compute. reflexivity.
    - discriminate.
    - vm_compute. reflexivity.
    - vm_compute. reflexivity.
    - vm_compute. reflexivity.
    - apply default_Some. vm_compute. reflexivity.
    - right. right. vm_compute. reflexivity.
    - intros n [<-|[]] Hi. exfalso. apply Hi. vm_compute. reflexivity. }
  assert (C200 : http_status (fst (CategoryController.updateCategory Sample.db
                   (mkRequest Sample.root 2 Sample.rename))) = 200).
  { apply (Hc200 (default ∅ (Category.findById Sample.db (JS.Num 2)))).
    - vm_compute. reflexivity.
    - discriminate.
    - vm_compute. discriminate.
    - vm_compute. reflexivity.
    - apply default_Some. vm_compute. reflexivity.
    - intros c [<-|[<-|[]]] Hi.
      + split; vm_compute; discriminate.
      + exfalso. apply Hi. vm_compute. reflexivity. }
  split; (split; [assumption|]).
  - refine (proj2 (proj2 (Hn _ _ N200 _ _))).
    + vm_compute. reflexivity.
    + apply surjective_pairing.
  - refine (proj2 (proj2 (Hc _ _ C200 _ _))).
    + vm_compute. reflexivity.
    + apply surjective_pairing.
Defined.

(** ** The profile update and the creation of news *)

Section ProfileFacts.

Lemma with_users_same (db : DB) : with_users (users db) db = db.
Proof. destruct db. reflexivity. Qed.

Lemma not_null_In (c : string) (t : list Sql.row) (r : Sql.row) :
  Constraint.not_null c t = true -> In r t -> Sql.col r c <> Sql.Null.
Proof.
  unfold Constraint.not_null. rewrite forallb_forall. intros H Hr E.
  specialize (H (Sql.col r c)). rewrite E in H. discriminate H.
  apply In_column. exists r. auto.
Qed.

Lemma consistent_users_not_null (db : DB) :
  Constraint.consistent db = true ->
  Constraint.not_null "username" (users db) = true
  /\ Constraint.not_null "email" (users db) = true.
Proof.
  intros H. apply consistent_iff in H as (H & _). unfold Constraint.users_ok in H.
  rewrite !andb_true_iff in H. tauto.
Qed.

(** An update of users that writes NULL into a NOT NULL column either is
    refused or touches no row. *)
Lemma User_updateById_null (db : DB) (id : JS.value) (data : gmap string JS.value)
      (c : string) (v : JS.value) :
  c = "username" \/ c = "email" ->
  data !! c = Some v -> Sql.bind v = Sql.Null ->
  match User.updateById db id data with
  | Err _ => True
  | Ok (db', found) => db' = db /\ found = None
  end.
Proof.
  intros Hc Hv Hnull. unfold User.updateById.
  assert (Hin : c ∈ User.allowedFields) by (destruct Hc as [-> | ->]; compute_done).
  rewrite bool_decide_eq_false_2 by (apply (set_clause_nonempty _ _ c v Hin Hv)).
  unfold commit.
  destruct (Constraint.consistent _) eqn:Hok; cbn [bind_result]; [|exact I].
  assert (Hnone : forall r, In r (users db) -> where_id id r = false).
  { intros r Hr. destruct (where_id id r) eqn:E; [|reflexivity]. exfalso.
    destruct (consistent_users_not_null _ Hok) as [Hu He].
    cbn [users with_users] in Hu, He.
    assert (Hrow : In (User.set_row db data r)
                      (update_where (where_id id) (User.set_row db data) (users db))).
    { apply In_update_where. exists r. rewrite E. auto. }
    assert (Hcol : Sql.col (User.set_row db data r) c = Sql.Null).
    { unfold User.set_row. rewrite <- (assign_empty (assign _ r)).
      rewrite (set_row_written _ _ _ _ _ c v Hin Hv); [exact Hnull | apply lookup_empty|].
      destruct Hc as [-> | ->]; discriminate. }
    destruct Hc as [-> | ->].
    - apply (not_null_In _ _ _ Hu Hrow Hcol).
    - apply (not_null_In _ _ _ He Hrow Hcol). }
  rewrite (update_where_none _ _ _ Hnone), with_users_same.
  split; [reflexivity|]. unfold User.findById. rewrite (filter_none _ _ Hnone). reflexivity.
Qed.

End ProfileFacts.

(** X14: the profile update passes username and email to the update
    whether or not the body holds them, so a body without a username, or
    without an email (or with null for one of them), is never answered
    200: the answer is 400 or 500, and the store is what it was. *)
Theorem updateProfile_needs_username_and_email (db : DB) (req : Request) :
  Sql.bind (JS.get (body req) "username") = Sql.Null
  \/ Sql.bind (JS.get (body req) "email") = Sql.Null ->
  (http_status (fst (AuthController.updateProfile db req)) = 400
   \/ http_status (fst (AuthController.updateProfile db req)) = 500)
  /\ snd (AuthController.updateProfile db req) = db.
Proof.
  intros Hnull. unfold AuthController.updateProfile.
  destruct (if _ || _ then _ else None) as [field|]; [simpl; auto|].
  match goal with
  | |- context [User.updateById db ?i ?d] =>
      assert (Hupd : match User.updateById db i d with
                     | Err _ => True
                     | Ok (db', found) => db' = db /\ found = None
                     end)
  end.
  { destruct Hnull as [Hn|Hn].
    - apply (User_updateById_null db _ _ "username" (JS.get (body req) "username"));
        [left; reflexivity | reflexivity | exact Hn].
    - apply (User_updateById_null db _ _ "email" (JS.get (body req) "email"));
        [right; reflexivity | reflexivity | exact Hn]. }
  destruct (User.updateById db _ _) as [[db' [u|]]|e].
  - destruct Hupd as [_ Hu]. discriminate Hu.
  - destruct Hupd as [-> _]. simpl. auto.
  - simpl. auto.
Qed.

(** Alice sends a new first name only. *)
Lemma updateProfile_needs_username_and_email_witness :
  (http_status (fst (AuthController.updateProfile Sample.db
                       (mkRequest Sample.alice 2 Sample.new_first_name))) = 400
   \/ http_status (fst (AuthController.updateProfile Sample.db
                          (mkRequest Sample.alice 2 Sample.new_first_name))) = 500)
  /\ snd (AuthController.updateProfile Sample.db
            (mkRequest Sample.alice 2 Sample.new_first_name)) = Sample.db.
Proof.
  apply (updateProfile_needs_username_and_email Sample.db
           (mkRequest Sample.alice 2 Sample.new_first_name)).
  left. vm_compute. reflexivity.
Defined.

Section CreateNewsFacts.

Lemma bind_to_js (v : Sql.value) : Sql.bind (Sql.to_js v) = v.
Proof. destruct v; reflexivity. Qed.

Lemma get_default_or (s : JS.value) (data : gmap string JS.value) :
  data !! "status" = Some (JS.or s (JS.Str "draft")) ->
  JS.get_default data "status" (JS.Str "draft") = JS.or s (JS.Str "draft").
Proof.
  intros H. unfold JS.get_default, JS.get. rewrite H. unfold JS.or.
  destruct s as [| |b|n| |s']; try reflexivity.
  - destruct b; reflexivity.
  - simpl. destruct (n =? 0); reflexivity.
  - simpl. destruct (String.eqb s' ""); reflexivity.
Qed.

(** What [News.findById] shows of the stored row. *)
Lemma News_findById_row (db : DB) (id : JS.value) (x : Sql.row) :
  News.findById db id = Some x ->
  exists n, In n (news db) /\ where_id id n = true
            /\ forall c, c ∈ ["id"; "title"; "slug"; "status"; "author_id"; "category_id"] ->
                 Sql.col x c = Sql.col n c.
Proof.
  unfold News.findById. intros H.
  apply head_Some_elem_of, list_elem_of_In, in_map_iff in H as [j [<- Hj]].
  apply filter_In in Hj as [Hj Hid]. rewrite where_news_id in Hid.
  exists (fst (fst j)). split; [apply In_joined_news, Hj|]. split; [exact Hid|].
  intros c Hc.
  repeat (apply elem_of_cons in Hc as [->|Hc]; [reflexivity|]).
  apply elem_of_nil in Hc. destruct Hc.
Qed.

Lemma inserted_row_author db id title content summary slug image status cat author :
  Sql.col (News.inserted_row db id title content summary slug image status cat author)
          "author_id" = Sql.bind author.
Proof. reflexivity. Qed.

Lemma createNews_201 db req res db' :
  NewsController.createNews db req = (res, db') -> http_status res = 201 ->
  exists finalSlug created,
    News.create db
      (list_to_map [("title", JS.get (body req) "title");
                    ("content", JS.get (body req) "content");
                    ("summary", JS.get (body req) "summary");
                    ("slug", finalSlug);
                    ("featured_image", JS.get (body req) "featured_image");
                    ("status", JS.or (JS.get (body req) "status") (JS.Str "draft"));
                    ("category_id", JS.get (body req) "category_id");
                    ("author_id", Sql.to_js (Sql.col (user req) "id"))])
    = Ok (db', Some created)
    /\ data res = Some created.
Proof.
  unfold NewsController.createNews. intros H Hcode.
  destruct (if JS.truthy _ then _ else _) as [finalSlug|e];
    [|injection H as <- <-; discriminate].
  destruct (News.existsBySlug _ _ _); [injection H as <- <-; discriminate|].
  destruct (_ && negb _); [injection H as <- <-; discriminate|].
  destruct (News.create _ _) as [[db1 [created|]]|e] eqn:Hcr;
    injection H as <- <-; try discriminate.
  exists finalSlug, created. auto.
Qed.

End CreateNewsFacts.

(** X15: an article created through the handler (201) belongs to the
    caller, whatever author the body names, and starts with the status of
    the body or, without one, as a draft: this is what the row handed back
    shows and what is stored as the last row; the creator passes the
    ownership check of update and delete on it. *)
Theorem createNews_author_is_caller (db : DB) (req : Request) (res : Response) (db' : DB) :
  NewsController.createNews db req = (res, db') -> http_status res = 201 ->
  exists created stored,
    data res = Some created
    /\ news db' = (news db ++ [stored])%list
    /\ Sql.col stored "author_id" = Sql.col (user req) "id"
    /\ Sql.col created "author_id" = Sql.col (user req) "id"
    /\ Sql.col created "status"
       = Sql.bind (JS.or (JS.get (body req) "status") (JS.Str "draft"))
    /\ Sql.col created "id" = Sql.col stored "id"
    /\ not_owner_nor_staff (user req) created = false.
Proof.
  intros Hrun Hcode.
  destruct (createNews_201 db req res db' Hrun Hcode) as (finalSlug & created & Hcr & Hdata).
  match type of Hcr with News.create _ ?d = _ => set (newsData := d) in * end.
  assert (Hga : JS.get newsData "author_id" = Sql.to_js (Sql.col (user req) "id"))
    by reflexivity.
  assert (Hgs : newsData !! "status"
                = Some (JS.or (JS.get (body req) "status") (JS.Str "draft")))
    by reflexivity.
  clearbody newsData.
  apply News_create_Ok in Hcr as (slug' & Hnews & Hfind).
  cbv zeta in Hnews, Hfind.
  set (id := fresh_id (seq_news db) (news db)) in *.
  match type of Hnews with _ = (_ ++ [?r])%list => set (row := r) in * end.
  assert (Hauthor : Sql.col row "author_id" = Sql.col (user req) "id").
  { subst row. rewrite inserted_row_author, Hga. apply bind_to_js. }
  assert (Hstatus : Sql.col row "status"
                    = Sql.bind (JS.or (JS.get (body req) "status") (JS.Str "draft"))).
  { subst row.
    rewrite (proj2 (proj2 (inserted_row_columns db id _ _ _ _ _ _ _ _))).
    rewrite (get_default_or _ _ Hgs). reflexivity. }
  symmetry in Hfind. apply News_findById_row in Hfind as (n & Hn & Hw & Hcols).
  assert (Hrow : n = row).
  { rewrite Hnews in Hn. apply in_app_or in Hn as [Hold|[<-|[]]]; [|reflexivity].
    exfalso. apply where_id_Num in Hw.
    pose proof (fresh_id_above (seq_news db) (news db) n id Hold Hw) as Hlt.
    fold id in Hlt. lia. }
  subst n.
  assert (Hca : Sql.col created "author_id" = Sql.col (user req) "id").
  { rewrite (Hcols "author_id") by compute_done. exact Hauthor. }
  exists created, row.
  split; [exact Hdata|]. split; [exact Hnews|]. split; [exact Hauthor|].
  split; [exact Hca|].
  split; [rewrite (Hcols "status") by compute_done; exact Hstatus|].
  split; [apply Hcols; compute_done|].
  apply not_owner_nor_staff_false. right. right. symmetry. exact Hca.
Qed.

(** Bob posts a story that names the admin as its author. *)
Lemma createNews_author_is_caller_witness :
  exists created stored,
    data (fst (NewsController.createNews Sample.db (mkRequest Sample.bob 0 Sample.story)))
    = Some created
    /\ news (snd (NewsController.createNews Sample.db (mkRequest Sample.bob 0 Sample.story)))
       = (news Sample.db ++ [stored])%list
    /\ Sql.col stored "author_id" = Sql.col Sample.bob "id"
    /\ Sql.col created "author_id" = Sql.col Sample.bob "id"
    /\ Sql.col created "status"
       = Sql.bind (JS.or (JS.get Sample.story "status") (JS.Str "draft"))
    /\ Sql.col created "id" = Sql.col stored "id"
    /\ not_owner_nor_staff Sample.bob created = false.
Proof.
  apply (createNews_author_is_caller Sample.db (mkRequest Sample.bob 0 Sample.story)
           (fst (NewsController.createNews Sample.db (mkRequest Sample.bob 0 Sample.story)))
           (snd (NewsController.createNews Sample.db (mkRequest Sample.bob 0 Sample.story)))).
  - apply surjective_pairing.
  - vm_compute. reflexivity.
Defined.

(** ** The shape of a slug *)

Section SlugShapeFacts.

(** A character of a finished slug. *)
Local Abbreviation in_slug :=
  (fun c : ascii => JS.isLower c || JS.isDigit c || JS.isHyphen c = true).

Lemma kept_plain (c : ascii) :
  Spec.slug_char_or_underscore c = true -> separator c = false -> in_slug c.
Proof.
  unfold Spec.slug_char_or_underscore, separator.
  destruct (JS.isLower c), (JS.isDigit c), (JS.isUnderscore c), (JS.isSpace c),
    (JS.isHyphen c); simpl; congruence.
Qed.

Lemma hyphen_in_slug : Forall in_slug hyphen.
Proof. repeat constructor. Qed.

Lemma collapse_in_slug (s : JS.chars) :
  Forall (fun c => Spec.slug_char_or_underscore c = true) s ->
  Forall in_slug (Spec.collapse s).
Proof.
  induction 1 as [|c s Hc Hs IH]; [constructor|].
  destruct (separator c) eqn:Esep.
  - simpl Spec.collapse. rewrite Esep. destruct s as [|c' s'].
    + exact hyphen_in_slug.
    + destruct (separator c'); [exact IH|].
      constructor; [reflexivity | exact IH].
  - rewrite (collapse_plain c s Esep). constructor; [|exact IH].
    apply kept_plain; assumption.
Qed.

Lemma filter_kept (p : ascii -> bool) (s : JS.chars) :
  Forall (fun c => p c = true) (List.filter p s).
Proof.
  apply List.Forall_forall. intros c Hc. apply filter_In in Hc. apply Hc.
Qed.

Lemma dropWhile_head (p : ascii -> bool) (s : JS.chars) (c : ascii) (s' : JS.chars) :
  JS.dropWhile p s = c :: s' -> p c = false.
Proof.
  induction s as [|x s IH]; simpl; [discriminate|].
  destruct (p x) eqn:E; [exact IH|]. intros [= <- _]. exact E.
Qed.

Lemma dropWhile_suffix (p : ascii -> bool) (s : JS.chars) :
  exists pre, s = (pre ++ JS.dropWhile p s)%list.
Proof.
  induction s as [|x s [pre IH]]; [exists []; reflexivity|].
  simpl. destruct (p x); [|exists []; reflexivity].
  exists (x :: pre). simpl. rewrite <- IH. reflexivity.
Qed.

Lemma strip_hyphens_edges (s : JS.chars) :
  (forall c s', Spec.strip_hyphens s = c :: s' -> JS.isHyphen c = false)
  /\ (forall c s', rev (Spec.strip_hyphens s) = c :: s' -> JS.isHyphen c = false).
Proof.
  unfold Spec.strip_hyphens. split.
  - intros c s' H.
    destruct (dropWhile_suffix JS.isHyphen (rev (JS.dropWhile JS.isHyphen s))) as [pre Hpre].
    apply (f_equal (@rev ascii)) in Hpre. rewrite rev_involutive, rev_app_distr, H in Hpre.
    simpl in Hpre. apply (dropWhile_head _ _ _ _ Hpre).
  - intros c s' H. rewrite rev_involutive in H. apply (dropWhile_head _ _ _ _ H).
Qed.

Lemma strip_hyphens_in_slug (s : JS.chars) :
  Forall in_slug s -> Forall in_slug (Spec.strip_hyphens s).
Proof.
  intros H. unfold Spec.strip_hyphens.
  apply List.Forall_rev, Forall_dropWhile, List.Forall_rev, Forall_dropWhile, H.
Qed.

Lemma slug_pipeline_shape (text : JS.chars) :
  Forall in_slug (slug_pipeline text)
  /\ (forall c s', slug_pipeline text = c :: s' -> JS.isHyphen c = false)
  /\ (forall c s', rev (slug_pipeline text) = c :: s' -> JS.isHyphen c = false).
Proof.
  rewrite slug_pipeline_amended. unfold Spec.slugify_with. split.
  - apply strip_hyphens_in_slug, collapse_in_slug, filter_kept.
  - apply strip_hyphens_edges.
Qed.

Lemma chars_of_lift (f : JS.chars -> JS.chars) (s : string) :
  list_ascii_of_string (JS.lift f s) = f (list_ascii_of_string s).
Proof. unfold JS.lift. apply list_ascii_of_string_of_list_ascii. Qed.

Lemma length_chars (s : string) : length (list_ascii_of_string s) = String.length s.
Proof. induction s as [|c s IH]; simpl; [reflexivity | rewrite IH; reflexivity]. Qed.

(** A run of the letter a goes through the pipeline as it is. *)
Lemma letters_lowered (n : nat) :
  JS.toLowerCase_chars (repeat "a"%char n) = repeat "a"%char n.
Proof.
  unfold JS.toLowerCase_chars. induction n as [|n IH]; [reflexivity|].
  simpl repeat. rewrite map_cons, IH. reflexivity.
Qed.

Lemma letters_dropWhile (p : ascii -> bool) :
  p "a"%char = false -> forall k, JS.dropWhile p (repeat "a"%char k) = repeat "a"%char k.
Proof. intros Hp k. destruct k; [reflexivity|]. simpl. rewrite Hp. reflexivity. Qed.

Lemma letters_rev (k : nat) : rev (repeat "a"%char k) = repeat "a"%char k.
Proof.
  induction k as [|k IH]; [reflexivity|]. simpl. rewrite IH. symmetry. apply repeat_cons.
Qed.

Lemma letters_filter (n : nat) :
  List.filter Spec.slug_char_or_underscore (repeat "a"%char n) = repeat "a"%char n.
Proof.
  induction n as [|n IH]; [reflexivity|]. simpl repeat.
  change (List.filter Spec.slug_char_or_underscore ("a"%char :: repeat "a"%char n))
    with ("a"%char :: List.filter Spec.slug_char_or_underscore (repeat "a"%char n)).
  rewrite IH. reflexivity.
Qed.

Lemma letters_collapse (n : nat) :
  Spec.collapse (repeat "a"%char n) = repeat "a"%char n.
Proof.
  induction n as [|n IH]; [reflexivity|]. simpl repeat.
  rewrite collapse_plain by reflexivity. rewrite IH. reflexivity.
Qed.

End SlugShapeFacts.

(** X16: a generated slug is made of lowercase letters, digits and
    hyphens only and does not begin with a hyphen; a category slug does
    not end with one either, while a news slug, cut at 500 characters,
    may, and is never longer than that. *)
Theorem generateSlug_shape (text : string) :
  Forall (fun c => JS.isLower c || JS.isDigit c || JS.isHyphen c = true)
         (list_ascii_of_string (Category.generateSlug text))
  /\ (forall c s', list_ascii_of_string (Category.generateSlug text) = c :: s' ->
        JS.isHyphen c = false)
  /\ (forall c s', rev (list_ascii_of_string (Category.generateSlug text)) = c :: s' ->
        JS.isHyphen c = false)
  /\ Forall (fun c => JS.isLower c || JS.isDigit c || JS.isHyphen c = true)
            (list_ascii_of_string (News.generateSlug text))
  /\ (forall c s', list_ascii_of_string (News.generateSlug text) = c :: s' ->
        JS.isHyphen c = false)
  /\ (String.length (News.generateSlug text) <= 500)%nat
  /\ (forall n, String.length (Category.generateSlug (string_of_list_ascii (repeat "a"%char n)))
                = n).
Proof.
  unfold Category.generateSlug, News.generateSlug.
  rewrite !chars_of_lift.
  destruct (slug_pipeline_shape (list_ascii_of_string text)) as (Hall & Hhead & Hlast).
  split; [exact Hall|]. split; [exact Hhead|]. split; [exact Hlast|].
  unfold JS.substring0_chars.
  split; [apply Forall_take, Hall|].
  split.
  { intros c s' H. destruct (slug_pipeline (list_ascii_of_string text)) as [|x l] eqn:E;
      [discriminate|]. injection H as <- _. apply (Hhead x l). reflexivity. }
  split.
  { rewrite <- length_chars, chars_of_lift. unfold JS.substring0_chars.
    rewrite length_firstn. lia. }
  intros n. rewrite <- length_chars, chars_of_lift, list_ascii_of_string_of_list_ascii.
  rewrite slug_pipeline_amended. unfold Spec.slugify_with.
  pose proof (letters_lowered n) as Hlow.
  pose proof letters_dropWhile as Hdrop.
  pose proof letters_rev as Hrev.
  pose proof (letters_filter n) as Hfilter.
  pose proof (letters_collapse n) as Hcollapse.
  rewrite Hlow. unfold JS.trim_chars, Spec.strip_hyphens.
  rewrite (Hdrop JS.isSpace eq_refl), Hrev, (Hdrop JS.isSpace eq_refl), Hrev.
  rewrite Hfilter, Hcollapse.
  rewrite (Hdrop JS.isHyphen eq_refl), Hrev, (Hdrop JS.isHyphen eq_refl), Hrev.
  apply repeat_length.
Qed.

(** ** Roles in front of the handlers *)

Section RoleFacts.

Lemma authorize_passes (roles : list string) (r : HttpRequest) :
  Middleware.authorize roles r = None ->
  exists role, role ∈ roles /\ Sql.col (caller r) "role" = Sql.Text role.
Proof.
  unfold Middleware.authorize. case_bool_decide as H; [|intros E; discriminate E].
  intros _. apply list_elem_of_fmap in H as [role [Hrole Hin]].
  exists role. split; [exact Hin|]. apply to_js_text, Hrole.
Qed.

Lemma authorize_stops (roles : list string) (r : HttpRequest) (res : Response) :
  Middleware.authorize roles r = Some res -> http_status res = 403.
Proof.
  unfold Middleware.authorize. destruct (bool_decide _); intros E; [discriminate E|].
  injection E as <-. reflexivity.
Qed.

End RoleFacts.

(** X17: the routes that delete a user, toggle the status of a user or
    delete a category write nothing unless the caller is an admin, and the
    route that toggles the status of a category writes nothing unless the
    caller is an admin or an editor; any other caller is answered 403. *)
Theorem routes_write_for_their_roles_only (db : DB) (r : HttpRequest) :
  (Sql.col (caller r) "role" <> Sql.Text "admin" ->
   (http_status (fst (Routes.delete_user db r)) = 403
    /\ snd (Routes.delete_user db r) = db)
   /\ (http_status (fst (Routes.toggle_user_status db r)) = 403
       /\ snd (Routes.toggle_user_status db r) = db)
   /\ (http_status (fst (Routes.delete_category db r)) = 403
       /\ snd (Routes.delete_category db r) = db))
  /\ (Sql.col (caller r) "role" <> Sql.Text "admin" ->
      Sql.col (caller r) "role" <> Sql.Text "editor" ->
      http_status (fst (Routes.toggle_category_status db r)) = 403
      /\ snd (Routes.toggle_category_status db r) = db).
Proof.
  assert (Hadmin : Sql.col (caller r) "role" <> Sql.Text "admin" ->
            exists res, Middleware.authorize ["admin"] r = Some res /\ http_status res = 403).
  { intros Hno. destruct (Middleware.authorize ["admin"] r) as [res|] eqn:E.
    - exists res. split; [reflexivity | apply (authorize_stops _ _ _ E)].
    - apply authorize_passes in E as (role & Hin & Hrole). exfalso. apply Hno.
      apply elem_of_cons in Hin as [->|Hin]; [exact Hrole|].
      apply elem_of_nil in Hin. destruct Hin. }
  split.
  - intros Hno. destruct (Hadmin Hno) as (res & Hres & Hcode).
    unfold Routes.delete_user, Routes.toggle_user_status, Routes.delete_category.
    rewrite Hres. simpl. auto.
  - intros Hno1 Hno2. unfold Routes.toggle_category_status.
    destruct (Middleware.authorize ["admin"; "editor"] r) as [res|] eqn:E.
    + simpl. split; [apply (authorize_stops _ _ _ E) | reflexivity].
    + apply authorize_passes in E as (role & Hin & Hrole). exfalso.
      apply elem_of_cons in Hin as [->|Hin]; [apply Hno1, Hrole|].
      apply elem_of_cons in Hin as [->|Hin]; [apply Hno2, Hrole|].
      apply elem_of_nil in Hin. destruct Hin.
Qed.

(** ** Creation refuses what is taken, and the public feeds *)

Section TakenFacts.

Lemma head_app_Some {A : Type} (l1 l2 : list A) (x : A) :
  In x l1 -> is_Some (head (l1 ++ l2)%list).
Proof. destruct l1; [intros []|]. intros _. eexists. reflexivity. Qed.

Lemma eqb_Text (v : Sql.value) (s : string) :
  v = Sql.Text s -> Sql.eqb v (Sql.Text s) = true.
Proof. intros ->. apply eqb_refl_nonnull. reflexivity. Qed.

End TakenFacts.

(** X18: creation refuses what is taken: a category whose name another
    category already has is answered 400, and so is an article whose slug,
    given or generated from the title, another article already has; the
    store stays as it was. *)
Theorem creation_refuses_duplicates (db : DB) (req : Request) (s : string) :
  ((exists c, In c (categories db) /\ Sql.col c "name" = Sql.Text s) ->
   JS.get (body req) "name" = JS.Str s ->
   http_status (fst (CategoryController.createCategory db req)) = 400
   /\ snd (CategoryController.createCategory db req) = db)
  /\ ((exists n, In n (news db) /\ Sql.col n "slug" = Sql.Text s) ->
      JS.get (body req) "slug" = JS.Str s -> s <> "" ->
      http_status (fst (NewsController.createNews db req)) = 400
      /\ snd (NewsController.createNews db req) = db)
  /\ ((exists n, In n (news db) /\ Sql.col n "slug" = Sql.Text (News.generateSlug s)) ->
      JS.get (body req) "title" = JS.Str s -> body req !! "slug" = None ->
      http_status (fst (NewsController.createNews db req)) = 400
      /\ snd (NewsController.createNews db req) = db).
Proof.
  assert (Hnews : forall g, (exists n, In n (news db) /\ Sql.col n "slug" = Sql.Text g) ->
            News.existsBySlug db (JS.Str g) JS.Null = true).
  { intros g [n [Hn Hs]]. unfold News.existsBySlug. cbn [JS.truthy Sql.bind].
    destruct (List.filter _ (news db)) as [|x l] eqn:E; [|reflexivity].
    exfalso. assert (Hin : In n []); [|destruct Hin].
    rewrite <- E. apply filter_In. split; [exact Hn|].
    rewrite (eqb_Text _ _ Hs). reflexivity. }
  split; [|split].
  - intros [c [Hc Hname]] Hbody. unfold CategoryController.createCategory. rewrite Hbody.
    destruct (if JS.truthy _ then _ else _) as [finalSlug|e] eqn:Efs.
    + unfold Category.checkExists. cbn [JS.truthy Sql.bind].
      match goal with
      | |- context [head (?l1 ++ ?l2)%list] =>
          destruct (head_app_Some l1 l2 c) as [x Hx]
      end.
      { apply filter_In. split; [exact Hc|]. rewrite (eqb_Text _ _ Hname). reflexivity. }
      rewrite Hx. simpl. auto.
    + exfalso. destruct (JS.truthy (JS.get (body req) "slug")); discriminate Efs.
  - intros Hex Hslug Hs. unfold NewsController.createNews. rewrite Hslug.
    rewrite (truthy_Str s Hs), (Hnews s Hex). simpl. auto.
  - intros Hex Htitle Hslug. unfold NewsController.createNews.
    rewrite (get_lookup_None _ _ Hslug), Htitle. cbn [JS.truthy on_string].
    rewrite (Hnews _ Hex). simpl. auto.
Qed.

(** A second Tech in the sample store. *)
Lemma creation_refuses_duplicates_witness :
  http_status (fst (CategoryController.createCategory Sample.db
                      (mkRequest Sample.root 0 {["name" := JS.Str "Tech"]}))) = 400
  /\ snd (CategoryController.createCategory Sample.db
            (mkRequest Sample.root 0 {["name" := JS.Str "Tech"]})) = Sample.db.
Proof.
  refine (proj1 (creation_refuses_duplicates Sample.db
                   (mkRequest Sample.root 0 {["name" := JS.Str "Tech"]}) "Tech") _ _).
  - exists Sample.tech. split; [left; reflexivity | vm_compute; reflexivity].
  - vm_compute. reflexivity.
Defined.

(** X19: the latest-news feed shows published articles only, at most as
    many as asked for, and fails only when the limit is no 64-bit integer;
    the list of active categories shows categories whose is_active flag
    is 1, none of them twice as often as stored. *)
Theorem public_feeds (db : DB) (limit : Z) :
  (- 2 ^ 63 < limit < 2 ^ 63 ->
   exists rows,
     News.getLatest db limit = Ok rows
     /\ (0 <= limit -> (length rows <= Z.to_nat limit)%nat)
     /\ forall x, In x rows ->
          exists n, In n (news db) /\ Sql.col n "status" = Sql.Text "published"
                    /\ Sql.col x "id" = Sql.col n "id"
                    /\ x !! "content" = None)
  /\ (~ (- 2 ^ 63 < limit < 2 ^ 63) ->
      News.getLatest db limit = Err (SqliteError "SQLITE_MISMATCH"))
  /\ (forall x, In x (Category.findActive db) ->
        exists c, In c (categories db) /\ Sql.col c "is_active" = Sql.Int 1
                  /\ Sql.col x "id" = Sql.col c "id"
                  /\ Sql.col x "name" = Sql.col c "name")
  /\ (length (Category.findActive db) <= length (categories db))%nat.
Proof.
  split; [|split; [|split]].
  - intros Hl. unfold News.getLatest. rewrite (must_be_int_Ok limit Hl). cbn [bind_result].
    eexists. split; [reflexivity|]. split.
    + intros Hpos. rewrite length_map. unfold Sql.limit_offset.
      destruct (limit <? 0) eqn:E; [apply Z.ltb_lt in E; lia|].
      rewrite length_take. lia.
    + intros x Hx. apply in_map_iff in Hx as [j [<- Hj]].
      apply In_limit_offset, In_order_by, filter_In in Hj as [Hj Hm].
      exists (fst (fst j)). split; [apply In_joined_news, Hj|].
      unfold Query.where_ in Hm. cbn [forallb Query.holds] in Hm.
      rewrite andb_true_r, read_news_column in Hm by compute_done.
      split; [apply eqb_true, Hm|]. split; [reflexivity|].
      apply select_as_lookup_None. compute_done.
  - intros Hno. unfold News.getLatest. rewrite (must_be_int_Err limit Hno). reflexivity.
  - intros x Hx. unfold Category.findActive in Hx.
    apply in_map_iff in Hx as [c [<- Hc]].
    apply In_order_by, filter_In in Hc as [Hc Hm].
    exists c. split; [exact Hc|].
    unfold Query.where_ in Hm. cbn [forallb Query.holds] in Hm.
    rewrite andb_true_r, read_category_column in Hm by compute_done.
    split; [apply eqb_true, Hm|]. split; reflexivity.
  - unfold Category.findActive. rewrite length_map, order_by_length.
    apply filter_length_le.
Qed.

